(** * Sandboxed file accessor: list, read, search and info

    A shallow embedding of [filesystem.py]: the four tools
    [list_directory], [read_file], [search_files] and [get_file_info].

    Python [str] values that are file names, paths and messages are
    [string] (sequences of 8-bit characters, compared by code as Python
    compares code points); decoded file content is a list of code points;
    [bytes] are [list byte]; Python [int] is [Z].  The dictionaries the tools
    build are records with the dictionaries' keys as fields.  File system
    calls go through a snapshot of the file system ([World]) and are logged,
    exceptions are values threaded by a small monad. *)

From Stdlib Require Import List String Ascii ZArith NArith Lia Bool.
From Stdlib.Strings Require Import Byte.
From Stdlib Require Import Sorted DecimalString.
Import ListNotations.

Local Open Scope list_scope.
Local Open Scope string_scope.

(** ** Strings as the code uses them *)

Definition lower_ascii (c : ascii) : ascii :=
  let n := N_of_ascii c in
  if ((65 <=? n) && (n <=? 90))%N then ascii_of_N (n + 32) else c.

(** [str.lower()] on the 8-bit characters the model has. *)
Fixpoint lower (s : string) : string :=
  match s with
  | EmptyString => EmptyString
  | String c s' => String (lower_ascii c) (lower s')
  end.

(** [sub in s] *)
Fixpoint contains (sub s : string) : bool :=
  String.prefix sub s ||
  match s with
  | EmptyString => false
  | String _ s' => contains sub s'
  end.

Definition startswith (s pre : string) : bool := String.prefix pre s.

(** [x in xs] for a list of strings *)
Definition str_in (x : string) (xs : list string) : bool :=
  existsb (String.eqb x) xs.

(** [s.rfind(c)] *)
Fixpoint rfind (c : ascii) (s : string) : option nat :=
  match s with
  | EmptyString => None
  | String d s' =>
      match rfind c s' with
      | Some i => Some (S i)
      | None => if Ascii.eqb c d then Some 0 else None
      end
  end.

(** [str(n)] for an integer *)
Definition str_of_Z (n : Z) : string := NilZero.string_of_int (Z.to_int n).

(** ** Paths

    A [Path] object that went through [get_safe_path] is absolute and
    normalised: the list of its components below the file system root. *)

Definition path := list string.

(** [str(p)] *)
Definition path_str (p : path) : string :=
  match p with
  | [] => "/"
  | _ => String.concat "" (map (fun c => "/" ++ c) p)
  end.

(** [p.name] *)
Definition name (p : path) : string := last p "".

(** [p.suffix]: the part of the name from its last dot, when that dot is
    neither the first nor the last character. *)
Definition suffix_of_name (n : string) : string :=
  match rfind "." n with
  | Some i =>
      if (0 <? i)%nat && (i <? String.length n - 1)%nat
      then substring i (String.length n - i) n
      else ""
  | None => ""
  end.

Definition suffix (p : path) : string := suffix_of_name (name p).

(** [p / child] *)
Definition child (p : path) (c : string) : path := (p ++ [c])%list.

Fixpoint is_prefix (r p : path) : bool :=
  match r, p with
  | [], _ => true
  | _ :: _, [] => false
  | a :: r', b :: p' => String.eqb a b && is_prefix r' p'
  end.

Fixpoint strip_prefix (r p : path) : option path :=
  match r, p with
  | [], _ => Some p
  | _ :: _, [] => None
  | a :: r', b :: p' => if String.eqb a b then strip_prefix r' p' else None
  end.

(** [r in p.parents]: [r] is a proper ancestor of [p]. *)
Definition in_parents (r p : path) : bool :=
  is_prefix r p && negb (List.length r =? List.length p)%nat.

(** ** Exceptions *)

Inductive exc_class :=
| FileNotFoundError
| NotADirectoryError
| IsADirectoryError
| PermissionError
| OSError
| ValueError
| UnicodeDecodeError
| OverflowError
| AccessDenied
| OtherException (cls : string).

(** [type(e).__name__] *)
Definition class_name (c : exc_class) : string :=
  match c with
  | FileNotFoundError => "FileNotFoundError"
  | NotADirectoryError => "NotADirectoryError"
  | IsADirectoryError => "IsADirectoryError"
  | PermissionError => "PermissionError"
  | OSError => "OSError"
  | ValueError => "ValueError"
  | UnicodeDecodeError => "UnicodeDecodeError"
  | OverflowError => "OverflowError"
  | AccessDenied => "AccessDenied"
  | OtherException cls => cls
  end.

(** An exception instance: its class and [str(e)].  Every class here
    derives from [Exception]. *)
Record exn := mk_exn { exc_cls : exc_class; exc_msg : string }.

(** [isinstance(e, OSError)] *)
Definition is_OSError (e : exn) : bool :=
  match exc_cls e with
  | FileNotFoundError | NotADirectoryError | IsADirectoryError
  | PermissionError | OSError => true
  | _ => false
  end.

(** [isinstance(e, ValueError)] *)
Definition is_ValueError (e : exn) : bool :=
  match exc_cls e with
  | ValueError | UnicodeDecodeError => true
  | _ => false
  end.

(** [isinstance(e, UnicodeDecodeError)] *)
Definition is_UnicodeDecodeError (e : exn) : bool :=
  match exc_cls e with
  | UnicodeDecodeError => true
  | _ => false
  end.

Definition result (A : Type) : Type := exn + A.

(** [p.relative_to(r)] as a string; [ValueError] when [r] is not a prefix. *)
Definition relative_to (p r : path) : result string :=
  match strip_prefix r p with
  | Some [] => inr "."
  | Some (c :: rest) => inr (String.concat "/" (c :: rest))
  | None =>
      inl (mk_exn ValueError
             ("'" ++ path_str p ++ "' is not in the subpath of '" ++ path_str r ++ "'"))
  end.

(** ** The file system seen by one call

    One tool call sees a snapshot: a query answers the same way each time it
    is repeated within the call.  A query either returns or raises. *)

Record stat_result := mk_stat { st_size : Z; st_mtime : Z }.

Record World := mk_world {
  (** [get_project_root()] of [config.py] *)
  project_root : path;
  (** [Path.resolve()]: the normalisation of an absolute segment list,
      dots and symbolic links resolved *)
  fs_resolve : list string -> path;
  fs_exists : path -> result bool;
  fs_is_dir : path -> result bool;
  fs_is_file : path -> result bool;
  fs_stat : path -> result stat_result;
  (** the names of the direct children, in enumeration order *)
  fs_iterdir : path -> result (list string);
  (** every path below a directory, at any depth, in enumeration order *)
  fs_walk : path -> result (list path);
  (** the bytes [open(p)] gives access to *)
  fs_read : path -> result (list byte);
  (** [mimetypes.guess_type(s)[0]] *)
  guess_type : string -> option string;
  (** [datetime.fromtimestamp(t).isoformat()] *)
  fromtimestamp_isoformat : Z -> result string;
  (** [datetime.now().isoformat()] *)
  now_isoformat : string
}.

(** The file system calls a tool makes, in the order it makes them. *)
Inductive encoding := Utf8 | Latin1.

Inductive fs_call :=
| CResolve (raw : string)
| CExists (p : path)
| CIsDir (p : path)
| CIsFile (p : path)
| CStat (p : path)
| CIterdir (p : path)
| CGlob (p : path) (recursive : bool)
| COpenText (p : path) (enc : encoding)
| COpenBinary (p : path).

Definition opens_file (c : fs_call) : bool :=
  match c with
  | COpenText _ _ | COpenBinary _ => true
  | _ => false
  end.

(** A call other than the normalisation done by path confinement itself. *)
Definition reads_or_stats (c : fs_call) : bool :=
  match c with
  | CResolve _ => false
  | _ => true
  end.

(** ** Computations: a log of file system calls, and exceptions *)

Definition M (A : Type) : Type := list fs_call -> result A * list fs_call.

Definition ret {A} (a : A) : M A := fun l => (inr a, l).

Definition raise {A} (e : exn) : M A := fun l => (inl e, l).

Definition bind {A B} (m : M A) (f : A -> M B) : M B :=
  fun l =>
    match m l with
    | (inr a, l') => f a l'
    | (inl e, l') => (inl e, l')
    end.

(** [try: m  except C: h] where [catches] is [isinstance(e, C)] *)
Definition try_except {A} (m : M A) (catches : exn -> bool) (h : exn -> M A) : M A :=
  fun l =>
    match m l with
    | (inr a, l') => (inr a, l')
    | (inl e, l') => if catches e then h e l' else (inl e, l')
    end.

(** a pure step that may raise *)
Definition lift {A} (r : result A) : M A := fun l => (r, l).

(** a file system call: logged, then answered by the snapshot *)
Definition call {A} (c : fs_call) (r : result A) : M A :=
  fun l => (r, (l ++ [c])%list).

Notation "x <- m ;; k" := (bind m (fun x => k))
  (at level 61, m at next level, right associativity).
Notation "m ;;; k" := (bind m (fun _ => k))
  (at level 61, right associativity).

(** [if c: raise e] *)
Definition raise_if (c : bool) (e : exn) : M unit :=
  if c then raise e else ret tt.

(** ** Path confinement *)

(** [s.split("/")] *)
Fixpoint split_slash (cur s : string) : list string :=
  match s with
  | EmptyString => [cur]
  | String c s' =>
      if Ascii.eqb c "/" then cur :: split_slash "" s'
      else split_slash (cur ++ String c "") s'
  end.

(** Normalisation of a segment list where no component is a symbolic link:
    empty and [.] segments vanish, [..] drops the component before it. *)
Fixpoint normalize_from (stack : list string) (segs : list string) : path :=
  match segs with
  | [] => rev stack
  | s :: rest =>
      if (s =? "") || (s =? ".") then normalize_from stack rest
      else if s =? ".." then normalize_from (tl stack) rest
      else normalize_from (s :: stack) rest
  end.

Definition normpath (segs : list string) : path := normalize_from [] segs.

(** The segments handed to the normalisation: an absolute input as it is, a
    relative one joined to the project root. *)
Definition raw_segments (w : World) (p : string) : list string :=
  if startswith p "/" then split_slash "" p
  else (project_root w ++ split_slash "" p)%list.

(** Modelled from the spec: [get_safe_path] of [config.py], which the tools
    import and which is not among the sources.  Empty input is the project
    root; other input is joined to the root when relative, normalised, and
    accepted when the result is the root or below it; anything else is the
    AccessDenied condition.  The spec names neither the Python class nor the
    message of that condition: [AccessDenied] stands for the class, the
    message is the raw input. *)
Definition get_safe_path (w : World) (p : string) : M path :=
  if p =? "" then ret (project_root w)
  else
    resolved <- call (CResolve p) (inr (fs_resolve w (raw_segments w p))) ;;
    if is_prefix (project_root w) resolved then ret resolved
    else raise (mk_exn AccessDenied p).

(** The input normalises to a location outside the project root. *)
Definition escapes (w : World) (p : string) : Prop :=
  p <> "" /\ is_prefix (project_root w) (fs_resolve w (raw_segments w p)) = false.

(** ** File system queries *)

Section Queries.
Variable w : World.

Definition exists_ (p : path) : M bool := call (CExists p) (fs_exists w p).
Definition is_dir (p : path) : M bool := call (CIsDir p) (fs_is_dir w p).
Definition is_file (p : path) : M bool := call (CIsFile p) (fs_is_file w p).
Definition stat (p : path) : M stat_result := call (CStat p) (fs_stat w p).

(** [list(p.iterdir())] *)
Definition iterdir (p : path) : M (list path) :=
  names <- call (CIterdir p) (fs_iterdir w p) ;;
  ret (map (child p) names).
End Queries.

(** [fnmatch] with the wildcards [*] and [?], case sensitive as [Path.glob]
    is on POSIX. *)
Fixpoint fnmatch (pat : string) : string -> bool :=
  match pat with
  | EmptyString => fun s => match s with EmptyString => true | _ => false end
  | String c pat' =>
      if Ascii.eqb c "*" then
        fix star (s : string) : bool :=
          fnmatch pat' s ||
          match s with
          | EmptyString => false
          | String _ s' => star s'
          end
      else if Ascii.eqb c "?" then
        fun s => match s with
                 | EmptyString => false
                 | String _ s' => fnmatch pat' s'
                 end
      else
        fun s => match s with
                 | EmptyString => false
                 | String d s' => Ascii.eqb c d && fnmatch pat' s'
                 end
  end.

Section Glob.
Variable w : World.

(** [list(p.glob(pat))]: the direct children whose name matches. *)
Definition glob (p : path) (pat : string) : M (list path) :=
  names <- call (CGlob p false) (fs_iterdir w p) ;;
  ret (map (child p) (filter (fnmatch pat) names)).

(** [list(p.rglob(pat))]: the paths below [p] whose name matches. *)
Definition rglob (p : path) (pat : string) : M (list path) :=
  paths <- call (CGlob p true) (fs_walk w p) ;;
  ret (filter (fun q => fnmatch pat (name q)) paths).
End Glob.

(** ** Text decoding *)

(** A decoded Python [str]: its code points. *)
Definition str := list N.

Definition is_cont (b : byte) : bool :=
  let c := Byte.to_N b in ((128 <=? c) && (c <? 192))%N.

Definition second_ok3 (c0 : N) (b1 : byte) : bool :=
  let c1 := Byte.to_N b1 in
  is_cont b1 && negb (if (c1 <? 160)%N then (c0 =? 224)%N else (c0 =? 237)%N).

Definition second_ok4 (c0 : N) (b1 : byte) : bool :=
  let c1 := Byte.to_N b1 in
  is_cont b1 && negb (if (c1 <? 144)%N then (c0 =? 240)%N else (c0 =? 244)%N).

Definition cont_bits (b : byte) : N := (Byte.to_N b - 128)%N.

(** The UTF-8 decoder, one item per code point ([Some]) or per undecodable
    run of bytes ([None]): an invalid start byte is a run of one byte, a
    start byte followed by [k] good continuation bytes and then a bad one is
    a run of [1 + k] bytes, a sequence cut by the end of the data is a run
    to the end. *)
Fixpoint utf8_scan (bs : list byte) : list (option N) :=
  match bs with
  | [] => []
  | b0 :: r0 =>
      let c0 := Byte.to_N b0 in
      if (c0 <? 128)%N then Some c0 :: utf8_scan r0
      else if ((c0 <? 194) || (245 <=? c0))%N then None :: utf8_scan r0
      else if (c0 <? 224)%N then
        match r0 with
        | [] => [None]
        | b1 :: r1 =>
            if is_cont b1
            then Some ((c0 - 192) * 64 + cont_bits b1)%N :: utf8_scan r1
            else None :: utf8_scan r0
        end
      else if (c0 <? 240)%N then
        match r0 with
        | [] => [None]
        | b1 :: r1 =>
            if negb (second_ok3 c0 b1) then None :: utf8_scan r0
            else
              match r1 with
              | [] => [None]
              | b2 :: r2 =>
                  if is_cont b2
                  then Some ((c0 - 224) * 4096 + cont_bits b1 * 64
                             + cont_bits b2)%N :: utf8_scan r2
                  else None :: utf8_scan r1
              end
        end
      else
        match r0 with
        | [] => [None]
        | b1 :: r1 =>
            if negb (second_ok4 c0 b1) then None :: utf8_scan r0
            else
              match r1 with
              | [] => [None]
              | b2 :: r2 =>
                  if negb (is_cont b2) then None :: utf8_scan r1
                  else
                    match r2 with
                    | [] => [None]
                    | b3 :: r3 =>
                        if is_cont b3
                        then Some ((c0 - 240) * 262144 + cont_bits b1 * 4096
                                   + cont_bits b2 * 64 + cont_bits b3)%N
                               :: utf8_scan r3
                        else None :: utf8_scan r2
                    end
              end
        end
  end.

Inductive errors_mode := Strict | Ignore.

Definition decoded_points (items : list (option N)) : str :=
  flat_map (fun o => match o with Some c => [c] | None => [] end) items.

Definition all_decoded (items : list (option N)) : bool :=
  forallb (fun o => match o with Some _ => true | None => false end) items.

(** [bs.decode(enc, errors)]: with [errors="ignore"] the undecodable runs
    are dropped, with [errors="strict"] the first of them raises. *)
Definition decode (enc : encoding) (errors : errors_mode) (bs : list byte)
  : result str :=
  match enc with
  | Latin1 => inr (map Byte.to_N bs)
  | Utf8 =>
      let items := utf8_scan bs in
      match errors with
      | Ignore => inr (decoded_points items)
      | Strict =>
          if all_decoded items then inr (decoded_points items)
          else inl (mk_exn UnicodeDecodeError
                      "'utf-8' codec can't decode bytes")
      end
  end.

(** Universal newlines of text mode: [\r\n] and a lone [\r] become [\n]. *)
Fixpoint translate_newlines (s : str) : str :=
  match s with
  | [] => []
  | c :: r =>
      if (c =? 13)%N then
        10%N :: match r with
                | [] => []
                | d :: r' => if (d =? 10)%N then translate_newlines r'
                             else translate_newlines r
                end
      else c :: translate_newlines r
  end.

(** The lines of a text, each with its newline; [cur] is the line being
    read, last character first. *)
Fixpoint split_lines (cur : str) (s : str) : list str :=
  match s with
  | [] => match cur with [] => [] | _ => [rev cur] end
  | c :: r =>
      if (c =? 10)%N then rev (c :: cur) :: split_lines [] r
      else split_lines (c :: cur) r
  end.

(** [with open(p, "r", encoding=enc, errors="ignore") as f: f.readlines()];
    iterating over [f] yields the same lines. *)
Definition open_readlines (w : World) (p : path) (enc : encoding) : M (list str) :=
  bs <- call (COpenText p enc) (fs_read w p) ;;
  text <- lift (decode enc Ignore bs) ;;
  ret (split_lines [] (translate_newlines text)).

(** [with open(p, "rb") as f: f.read()] *)
Definition open_read_binary (w : World) (p : path) : M (list byte) :=
  call (COpenBinary p) (fs_read w p).

(** ** Base64 *)

Module Base64.

(** Six bits, most significant first. *)
Definition sextet : Type := bool * bool * bool * bool * bool * bool.

Definition bit (b : bool) (v : N) : N := if b then v else 0%N.

Definition sextet_to_N (s : sextet) : N :=
  let '(a, b, c, d, e, f) := s in
  (bit a 32 + bit b 16 + bit c 8 + bit d 4 + bit e 2 + bit f 1)%N.

Definition sextet_of_N (n : N) : sextet :=
  (N.testbit n 5, N.testbit n 4, N.testbit n 3,
   N.testbit n 2, N.testbit n 1, N.testbit n 0).

Definition byte_of_code (n : N) : byte :=
  match Byte.of_N n with
  | Some b => b
  | None => x00
  end.

(** The alphabet [A-Z a-z 0-9 + /]. *)
Definition char_of_sextet (s : sextet) : byte :=
  let n := sextet_to_N s in
  if (n <? 26)%N then byte_of_code (65 + n)
  else if (n <? 52)%N then byte_of_code (97 + (n - 26))
  else if (n <? 62)%N then byte_of_code (48 + (n - 52))
  else if (n =? 62)%N then byte_of_code 43
  else byte_of_code 47.

Definition sextet_of_char (c : byte) : option sextet :=
  let n := Byte.to_N c in
  if ((65 <=? n) && (n <=? 90))%N then Some (sextet_of_N (n - 65))
  else if ((97 <=? n) && (n <=? 122))%N then Some (sextet_of_N (n - 71))
  else if ((48 <=? n) && (n <=? 57))%N then Some (sextet_of_N (n + 4))
  else if (n =? 43)%N then Some (sextet_of_N 62)
  else if (n =? 47)%N then Some (sextet_of_N 63)
  else None.

(** the padding character [=] *)
Definition pad : byte := x3d.

Definition encode3 (x y z : byte) : list byte :=
  let '(x0, (x1, (x2, (x3, (x4, (x5, (x6, x7))))))) := Byte.to_bits x in
  let '(y0, (y1, (y2, (y3, (y4, (y5, (y6, y7))))))) := Byte.to_bits y in
  let '(z0, (z1, (z2, (z3, (z4, (z5, (z6, z7))))))) := Byte.to_bits z in
  [ char_of_sextet (x7, x6, x5, x4, x3, x2);
    char_of_sextet (x1, x0, y7, y6, y5, y4);
    char_of_sextet (y3, y2, y1, y0, z7, z6);
    char_of_sextet (z5, z4, z3, z2, z1, z0) ].

Definition encode2 (x y : byte) : list byte :=
  let '(x0, (x1, (x2, (x3, (x4, (x5, (x6, x7))))))) := Byte.to_bits x in
  let '(y0, (y1, (y2, (y3, (y4, (y5, (y6, y7))))))) := Byte.to_bits y in
  [ char_of_sextet (x7, x6, x5, x4, x3, x2);
    char_of_sextet (x1, x0, y7, y6, y5, y4);
    char_of_sextet (y3, y2, y1, y0, false, false);
    pad ].

Definition encode1 (x : byte) : list byte :=
  let '(x0, (x1, (x2, (x3, (x4, (x5, (x6, x7))))))) := Byte.to_bits x in
  [ char_of_sextet (x7, x6, x5, x4, x3, x2);
    char_of_sextet (x1, x0, false, false, false, false);
    pad; pad ].

(** [base64.b64encode(bs)] *)
Fixpoint b64encode (bs : list byte) : list byte :=
  match bs with
  | [] => []
  | [x] => encode1 x
  | [x; y] => encode2 x y
  | x :: y :: z :: rest => (encode3 x y z ++ b64encode rest)%list
  end.

Definition byte1 (s1 s2 : sextet) : byte :=
  let '(a7, a6, a5, a4, a3, a2) := s1 in
  let '(a1, a0, _, _, _, _) := s2 in
  Byte.of_bits (a0, (a1, (a2, (a3, (a4, (a5, (a6, a7))))))).

Definition byte2 (s2 s3 : sextet) : byte :=
  let '(_, _, b7, b6, b5, b4) := s2 in
  let '(b3, b2, b1, b0, _, _) := s3 in
  Byte.of_bits (b0, (b1, (b2, (b3, (b4, (b5, (b6, b7))))))).

Definition byte3 (s3 s4 : sextet) : byte :=
  let '(_, _, _, _, c7, c6) := s3 in
  let '(c5, c4, c3, c2, c1, c0) := s4 in
  Byte.of_bits (c0, (c1, (c2, (c3, (c4, (c5, (c6, c7))))))).

Definition is_nil {A} (l : list A) : bool :=
  match l with [] => true | _ => false end.

(** [base64.b64decode] on input made of whole groups of the alphabet with
    padding only in the last group; [None] stands for what the library
    does with any other input. *)
Fixpoint decode_bytes (cs : list byte) : option (list byte) :=
  match cs with
  | [] => Some []
  | c1 :: c2 :: c3 :: c4 :: rest =>
      match sextet_of_char c1, sextet_of_char c2 with
      | Some s1, Some s2 =>
          match sextet_of_char c3, sextet_of_char c4 with
          | Some s3, Some s4 =>
              match decode_bytes rest with
              | Some tl => Some (byte1 s1 s2 :: byte2 s2 s3 :: byte3 s3 s4 :: tl)
              | None => None
              end
          | Some s3, None =>
              if Byte.eqb c4 pad && is_nil rest
              then Some [byte1 s1 s2; byte2 s2 s3] else None
          | None, None =>
              if Byte.eqb c3 pad && Byte.eqb c4 pad && is_nil rest
              then Some [byte1 s1 s2] else None
          | None, Some _ => None
          end
      | _, _ => None
      end
  | _ => None
  end.

(** [s.encode("ascii")] of a [str] argument *)
Fixpoint ascii_bytes (s : str) : option (list byte) :=
  match s with
  | [] => Some []
  | c :: r =>
      if (c <? 128)%N then
        match Byte.of_N c, ascii_bytes r with
        | Some b, Some bs => Some (b :: bs)
        | _, _ => None
        end
      else None
  end.

(** [base64.b64decode(s)] for a [str] *)
Definition b64decode (s : str) : option (list byte) :=
  match ascii_bytes s with
  | Some cs => decode_bytes cs
  | None => None
  end.

End Base64.

(** ** Sorting

    [list.sort] is stable; so is insertion from the right end. *)

Section Sorting.
Context {A : Type}.

(** [x] goes before the first element it is allowed to precede. *)
Fixpoint insert_by (le : A -> A -> bool) (x : A) (l : list A) : list A :=
  match l with
  | [] => [x]
  | y :: l' => if le x y then x :: l else y :: insert_by le x l'
  end.

Definition sort_by (le : A -> A -> bool) (l : list A) : list A :=
  fold_right (insert_by le) [] l.

Variable key : A -> string.

(** [l.sort(key=key)] *)
Definition sort_asc (l : list A) : list A :=
  sort_by (fun x y => String.leb (key x) (key y)) l.

(** [l.sort(key=key, reverse=True)] *)
Definition sort_desc (l : list A) : list A :=
  sort_by (fun x y => String.leb (key y) (key x)) l.
End Sorting.

(** ** The dictionaries the tools build *)

(** [file_info] *)
Record FileEntry := mk_entry {
  fi_name : string;
  fi_path : string;
  fi_relative_path : string;
  fi_type : string;
  fi_size : option Z;
  fi_modified_time : option string;
  fi_mime_type : option string;
  fi_extension : option string;
  fi_line_count : option Z
}.

Record ListResult := mk_list_result {
  lr_success : bool;
  lr_action : string;
  lr_path : string;
  lr_relative_path : string;
  lr_files : list FileEntry;
  lr_subdirectories : list string;
  lr_total_files : Z;
  lr_total_directories : Z;
  lr_timestamp : string
}.

Record ReadResult := mk_read_result {
  rr_success : bool;
  rr_action : string;
  rr_path : string;
  rr_relative_path : string;
  rr_content : str;
  rr_encoding : string;
  rr_line_count : Z;
  rr_size : Z;
  rr_mime_type : string;
  rr_is_text : bool;
  rr_timestamp : string
}.

Record SearchResult := mk_search_result {
  sr_success : bool;
  sr_action : string;
  sr_search_term : string;
  sr_path : string;
  sr_files : list FileEntry;
  sr_total_matches : Z;
  sr_max_results : Z;
  sr_recursive : bool;
  sr_timestamp : string
}.

Record InfoResult := mk_info_result {
  ir_success : bool;
  ir_action : string;
  ir_path : string;
  ir_relative_path : string;
  ir_name : string;
  ir_type : string;
  ir_size : option Z;
  ir_modified_time : string;
  ir_mime_type : option string;
  ir_extension : option string;
  ir_line_count : option Z;
  ir_timestamp : string
}.

(** [error_result] *)
Record ErrorResult := mk_error_result {
  er_success : bool;
  er_error : string;
  er_error_type : string;
  er_timestamp : string
}.

(** What a tool returns: the dictionary [json.dumps] writes out. *)
Inductive document :=
| DList (r : ListResult)
| DRead (r : ReadResult)
| DSearch (r : SearchResult)
| DInfo (r : InfoResult)
| DError (r : ErrorResult).

(** The [except Exception as e] clause every tool ends with. *)
Definition error_result (w : World) (e : exn) : ErrorResult :=
  {| er_success := false;
     er_error := exc_msg e;
     er_error_type := class_name (exc_cls e);
     er_timestamp := now_isoformat w |}.

(** [try: body  except Exception as e: return json.dumps(error_result)] *)
Definition run_tool {A} (w : World) (wrap : A -> document) (body : M A)
  : list fs_call -> document * list fs_call :=
  fun l =>
    match body l with
    | (inr r, l') => (wrap r, l')
    | (inl e, l') => (DError (error_result w e), l')
    end.

(** Truth value of an optional list of extensions: [None] and [[]] are
    false. *)
Definition given (file_extensions : option (list string)) : bool :=
  match file_extensions with
  | Some (_ :: _) => true
  | _ => false
  end.

Definition extensions (file_extensions : option (list string)) : list string :=
  match file_extensions with
  | Some l => l
  | None => []
  end.

(** [any(ext.lower() in file_ext for ext in file_extensions)] *)
Definition any_ext_in (file_extensions : option (list string)) (file_ext : string) : bool :=
  existsb (fun ext => contains (lower ext) file_ext) (extensions file_extensions).

(** [p.relative_to(root)], the absolute path when that raises [ValueError] *)
Definition relative_or_absolute (w : World) (p : path) : M string :=
  try_except (lift (relative_to p (project_root w))) is_ValueError
    (fun _ => ret (path_str p)).

(** [len(l)] *)
Definition len {A} (l : list A) : Z := Z.of_nat (List.length l).

(** ** list_directory *)

Section ListDirectory.
Variable w : World.
Variable file_extensions : option (list string).

(** What one round of the loop adds. *)
Inductive listed :=
| LDir (n : string)
| LFile (e : FileEntry)
| LSkip.

(** The body of the [try] inside the loop. *)
Definition list_item (item : path) : M listed :=
  d <- is_dir w item ;;
  if (d : bool) then ret (LDir (name item))
  else if given file_extensions
          && negb (any_ext_in file_extensions (lower (suffix item)))
  then ret LSkip
  else
    stat_info <- stat w item ;;
    let mime_type := guess_type w (path_str item) in
    relative_path <-
      (if in_parents (project_root w) item
       then lift (relative_to item (project_root w))
       else ret (path_str item)) ;;
    d1 <- is_dir w item ;;
    d2 <- is_dir w item ;;
    d3 <- is_dir w item ;;
    modified_time <-
      (if negb d3
       then t <- lift (fromtimestamp_isoformat w (st_mtime stat_info)) ;;
            ret (Some t)
       else ret None) ;;
    d4 <- is_dir w item ;;
    ret (LFile
           {| fi_name := name item;
              fi_path := path_str item;
              fi_relative_path := relative_path;
              fi_type := if (d1 : bool) then "directory" else "file";
              fi_size := if negb d2 then Some (st_size stat_info) else None;
              fi_modified_time := modified_time;
              fi_mime_type := mime_type;
              fi_extension :=
                if negb d4 then Some (lower (suffix item)) else None;
              fi_line_count := None |}).

(** [for item in safe_path.iterdir(): try: ... except (OSError,
    PermissionError): continue] *)
Fixpoint list_loop (items : list path)
         (files : list FileEntry) (subdirectories : list string)
  : M (list FileEntry * list string) :=
  match items with
  | [] => ret (files, subdirectories)
  | item :: rest =>
      r <- try_except (list_item item) is_OSError (fun _ => ret LSkip) ;;
      match r with
      | LDir n => list_loop rest files (subdirectories ++ [n])%list
      | LFile e => list_loop rest (files ++ [e])%list subdirectories
      | LSkip => list_loop rest files subdirectories
      end
  end.

Definition list_directory_body (path : string) : M ListResult :=
  safe_path <- get_safe_path w path ;;
  ex <- exists_ w safe_path ;;
  raise_if (negb ex)
    (mk_exn FileNotFoundError ("Path not found: " ++ path_str safe_path)) ;;;
  d <- is_dir w safe_path ;;
  raise_if (negb d)
    (mk_exn NotADirectoryError
       ("Path is not a directory: " ++ path_str safe_path)) ;;;
  relative_path <- relative_or_absolute w safe_path ;;
  items <- iterdir w safe_path ;;
  fs <- list_loop items [] [] ;;
  let files := sort_asc fi_name (fst fs) in
  let subdirectories := sort_asc (fun n => n) (snd fs) in
  ret {| lr_success := true;
         lr_action := "list";
         lr_path := path_str safe_path;
         lr_relative_path := relative_path;
         lr_files := files;
         lr_subdirectories := subdirectories;
         lr_total_files := len files;
         lr_total_directories := len subdirectories;
         lr_timestamp := now_isoformat w |}.

Definition list_directory (path : string) : list fs_call -> document * list fs_call :=
  run_tool w DList (list_directory_body path).
End ListDirectory.

(** ** read_file *)

Definition MAX_FILE_SIZE : Z := 10 * 1024 * 1024.

Definition text_mime_types : list string :=
  [ "application/json"; "application/xml"; "application/javascript";
    "application/x-python"; "application/x-c++src" ].

(** [if mime_type: is_text = mime_type.startswith("text/") or mime_type in
    [...]], [False] otherwise *)
Definition mime_is_text (mime_type : option string) : bool :=
  match mime_type with
  | Some m =>
      if m =? "" then false
      else startswith m "text/" || str_in m text_mime_types
  | None => false
  end.

Definition text_extensions : list string :=
  [ ".txt"; ".md"; ".markdown"; ".py"; ".cpp"; ".h"; ".hpp"; ".c"; ".cc";
    ".java"; ".cs"; ".go"; ".rs"; ".js"; ".ts"; ".jsx"; ".tsx"; ".html";
    ".htm"; ".css"; ".scss"; ".less"; ".xml"; ".json"; ".yaml"; ".yml";
    ".toml"; ".ini"; ".cfg"; ".conf"; ".php"; ".rb"; ".pl"; ".pm"; ".lua";
    ".sql"; ".sh"; ".bash"; ".bat"; ".cmd"; ".ps1"; ".asm"; ".s"; ".v";
    ".sv"; ".vhd"; ".vhdl"; ".tex"; ".rst"; ".log"; ".csv"; ".tsv";
    ".proto"; ".thrift"; ".gradle"; ".m"; ".mm"; ".swift"; ".kt"; ".kts";
    ".dart"; ".elm"; ".erl"; ".ex"; ".exs"; ".fs"; ".fsx"; ".fsi"; ".hs";
    ".lhs"; ".ml"; ".mli"; ".nim"; ".pas"; ".pp"; ".r"; ".rmd"; ".scala";
    ".vb"; ".vbs"; ".zig"; ".uproject"; ".uplugin"; ".Build.cs";
    ".Target.cs" ].

(** [mime_type or "application/octet-stream"] *)
Definition mime_or_default (mime_type : option string) : string :=
  match mime_type with
  | Some m => if m =? "" then "application/octet-stream" else m
  | None => "application/octet-stream"
  end.

(** The variables the reading part of [read_file] assigns. *)
Record read_state := mk_read_state {
  content : str;
  line_count : Z;
  content_encoding : string;
  is_text : bool
}.

Section ReadFile.
Variable w : World.

(** [lines = f.readlines(); line_count = len(lines); content =
    "".join(lines)] under [open(..., encoding=enc, errors="ignore")] *)
Definition read_lines_into (st : read_state) (p : path) (enc : encoding)
  : M read_state :=
  lines <- open_readlines w p enc ;;
  ret {| content := List.concat lines;
         line_count := len lines;
         content_encoding := content_encoding st;
         is_text := is_text st |}.

(** [if is_text: try: ... except UnicodeDecodeError: try: ... except
    Exception: is_text = False] *)
Definition read_text (st : read_state) (p : path) : M read_state :=
  if is_text st then
    try_except (read_lines_into st p Utf8) is_UnicodeDecodeError
      (fun _ =>
         try_except (read_lines_into st p Latin1) (fun _ => true)
           (fun _ => ret {| content := content st;
                            line_count := line_count st;
                            content_encoding := content_encoding st;
                            is_text := false |}))
  else ret st.

(** [if not is_text: ... base64.b64encode(binary_data).decode("utf-8")] *)
Definition read_binary (st : read_state) (p : path) : M read_state :=
  if negb (is_text st) then
    binary_data <- open_read_binary w p ;;
    encoded <- lift (decode Utf8 Strict (Base64.b64encode binary_data)) ;;
    ret {| content := encoded;
           line_count := 0;
           content_encoding := "base64";
           is_text := is_text st |}
  else ret st.

Definition read_file_body (path : string) : M ReadResult :=
  safe_path <- get_safe_path w path ;;
  ex <- exists_ w safe_path ;;
  raise_if (negb ex)
    (mk_exn FileNotFoundError ("File not found: " ++ path_str safe_path)) ;;;
  f <- is_file w safe_path ;;
  raise_if (negb f)
    (mk_exn ValueError ("Path is not a file: " ++ path_str safe_path)) ;;;
  st0 <- stat w safe_path ;;
  let file_size := st_size st0 in
  raise_if (file_size >? MAX_FILE_SIZE)%Z
    (mk_exn ValueError
       ("File too large (" ++ str_of_Z file_size ++ " bytes). Maximum size is "
        ++ str_of_Z MAX_FILE_SIZE ++ " bytes.")) ;;;
  stat_info <- stat w safe_path ;;
  let mime_type := guess_type w (path_str safe_path) in
  relative_path <- relative_or_absolute w safe_path ;;
  let is_text0 := mime_is_text mime_type in
  let is_text1 :=
    if str_in (lower (suffix safe_path)) text_extensions then true
    else is_text0 in
  let st := {| content := []; line_count := 0;
               content_encoding := "text"; is_text := is_text1 |} in
  st <- read_text st safe_path ;;
  st <- read_binary st safe_path ;;
  ret {| rr_success := true;
         rr_action := "read";
         rr_path := path_str safe_path;
         rr_relative_path := relative_path;
         rr_content := content st;
         rr_encoding := content_encoding st;
         rr_line_count := line_count st;
         rr_size := file_size;
         rr_mime_type := mime_or_default mime_type;
         rr_is_text := is_text st;
         rr_timestamp := now_isoformat w |}.

Definition read_file (path : string) : list fs_call -> document * list fs_call :=
  run_tool w DRead (read_file_body path).
End ReadFile.

(** ** search_files *)

(** The sort key [x["modified_time"] or ""] *)
Definition modified_key (x : FileEntry) : string :=
  match fi_modified_time x with
  | Some t => t
  | None => ""
  end.

Section SearchFiles.
Variable w : World.
Variable search_term : string.
Variable file_extensions : option (list string).
Variable recursive : bool.
Variable max_results : Z.

(** [[f for f in files if f.is_file()]] *)
Fixpoint keep_files (files : list path) : M (list path) :=
  match files with
  | [] => ret []
  | f :: rest =>
      b <- is_file w f ;;
      kept <- keep_files rest ;;
      ret (if (b : bool) then f :: kept else kept)
  end.

(** The [if] at the head of the loop body: a file whose name holds the
    term is described and appended. *)
Definition search_item (search_term_lower : string) (file_path : path)
           (matches : list FileEntry) : M (list FileEntry) :=
  if contains search_term_lower (lower (name file_path)) then
    stat_info <- stat w file_path ;;
    let mime_type := guess_type w (path_str file_path) in
    relative_path <- relative_or_absolute w file_path ;;
    modified_time <- lift (fromtimestamp_isoformat w (st_mtime stat_info)) ;;
    ret (matches ++
         [ {| fi_name := name file_path;
              fi_path := path_str file_path;
              fi_relative_path := relative_path;
              fi_type := "file";
              fi_size := Some (st_size stat_info);
              fi_modified_time := Some modified_time;
              fi_mime_type := mime_type;
              fi_extension := Some (lower (suffix file_path));
              fi_line_count := None |} ])%list
  else ret matches.

(** [for file_path in files_to_search: ...; if len(matches) >= max_results:
    break] *)
Fixpoint search_loop (search_term_lower : string) (files : list path)
         (matches : list FileEntry) : M (list FileEntry) :=
  match files with
  | [] => ret matches
  | file_path :: rest =>
      matches' <- search_item search_term_lower file_path matches ;;
      if (len matches' >=? max_results)%Z then ret matches'
      else search_loop search_term_lower rest matches'
  end.

Definition search_files_body (path : string) : M SearchResult :=
  raise_if (search_term =? "")
    (mk_exn ValueError "Search term is required") ;;;
  safe_path <- get_safe_path w path ;;
  ex <- exists_ w safe_path ;;
  raise_if (negb ex)
    (mk_exn FileNotFoundError ("Path not found: " ++ path_str safe_path)) ;;;
  f <- is_file w safe_path ;;
  files_to_search <-
    (if (f : bool) then ret [safe_path]
     else if recursive then rglob w safe_path "*.*"
     else glob w safe_path "*.*") ;;
  files_to_search <- keep_files files_to_search ;;
  let files_to_search :=
    if given file_extensions
    then filter (fun f => any_ext_in file_extensions (lower (suffix f)))
           files_to_search
    else files_to_search in
  matches <- search_loop (lower search_term) files_to_search [] ;;
  let matches := sort_desc modified_key matches in
  ret {| sr_success := true;
         sr_action := "search";
         sr_search_term := search_term;
         sr_path := path_str safe_path;
         sr_files := matches;
         sr_total_matches := len matches;
         sr_max_results := max_results;
         sr_recursive := recursive;
         sr_timestamp := now_isoformat w |}.

Definition search_files (path : string) : list fs_call -> document * list fs_call :=
  run_tool w DSearch (search_files_body path).
End SearchFiles.

(** ** get_file_info *)

Section GetFileInfo.
Variable w : World.

(** [line_count = None; if safe_path.is_file(): ...] *)
Definition count_lines (safe_path : path) (mime_type : option string)
  : M (option Z) :=
  f <- is_file w safe_path ;;
  if (f : bool) then
    if mime_is_text mime_type then
      try_except
        (lines <- open_readlines w safe_path Utf8 ;; ret (Some (len lines)))
        (fun _ => true)
        (fun _ => ret None)
    else ret None
  else ret None.

Definition get_file_info_body (path : string) : M InfoResult :=
  safe_path <- get_safe_path w path ;;
  ex <- exists_ w safe_path ;;
  raise_if (negb ex)
    (mk_exn FileNotFoundError ("Path not found: " ++ path_str safe_path)) ;;;
  stat_info <- stat w safe_path ;;
  let mime_type := guess_type w (path_str safe_path) in
  relative_path <- relative_or_absolute w safe_path ;;
  line_count <- count_lines safe_path mime_type ;;
  d <- is_dir w safe_path ;;
  f1 <- is_file w safe_path ;;
  modified_time <- lift (fromtimestamp_isoformat w (st_mtime stat_info)) ;;
  f2 <- is_file w safe_path ;;
  ret {| ir_success := true;
         ir_action := "info";
         ir_path := path_str safe_path;
         ir_relative_path := relative_path;
         ir_name := name safe_path;
         ir_type := if (d : bool) then "directory" else "file";
         ir_size := if (f1 : bool) then Some (st_size stat_info) else None;
         ir_modified_time := modified_time;
         ir_mime_type := mime_type;
         ir_extension :=
           if (f2 : bool) then Some (lower (suffix safe_path)) else None;
         ir_line_count := line_count;
         ir_timestamp := now_isoformat w |}.

Definition get_file_info (path : string) : list fs_call -> document * list fs_call :=
  run_tool w DInfo (get_file_info_body path).
End GetFileInfo.

(** ** A concrete file system

    A snapshot given by the list of its nodes, without symbolic links and
    without access faults: the queries are computed from the list. *)

Record node := mk_node {
  n_path : path;
  n_is_dir : bool;
  n_size : Z;
  n_mtime : Z;
  n_bytes : list byte
}.

Definition path_eqb (p q : path) : bool := is_prefix p q && is_prefix q p.

Definition find_node (nodes : list node) (p : path) : option node :=
  find (fun n => path_eqb (n_path n) p) nodes.

Definition no_such_file (p : path) : exn :=
  mk_exn FileNotFoundError ("[Errno 2] No such file or directory: " ++ path_str p).

(** A table of [mimetypes] entries by extension. *)
Definition guess_by_extension (s : string) : option string :=
  let ext := lower (suffix_of_name s) in
  if ext =? ".txt" then Some "text/plain"
  else if ext =? ".md" then Some "text/markdown"
  else if ext =? ".json" then Some "application/json"
  else if ext =? ".png" then Some "image/png"
  else None.

Definition two_digits (t : Z) : string :=
  (if (t <? 10)%Z then "0" else "") ++ str_of_Z t.

(** Time stamps of the first minute of the epoch, in UTC. *)
Definition iso_of_seconds (t : Z) : result string :=
  if ((0 <=? t) && (t <? 60))%Z
  then inr ("1970-01-01T00:00:" ++ two_digits t)
  else inl (mk_exn OverflowError "timestamp out of range for platform time_t").

Definition snapshot (root : path) (nodes : list node) : World :=
  {| project_root := root;
     fs_resolve := normpath;
     fs_exists := fun p =>
       inr (match find_node nodes p with Some _ => true | None => false end);
     fs_is_dir := fun p =>
       inr (match find_node nodes p with Some n => n_is_dir n | None => false end);
     fs_is_file := fun p =>
       inr (match find_node nodes p with
            | Some n => negb (n_is_dir n)
            | None => false
            end);
     fs_stat := fun p =>
       match find_node nodes p with
       | Some n => inr (mk_stat (n_size n) (n_mtime n))
       | None => inl (no_such_file p)
       end;
     fs_iterdir := fun p =>
       match find_node nodes p with
       | Some n =>
           if n_is_dir n
           then inr (map (fun c => name (n_path c))
                       (filter (fun c => path_eqb (removelast (n_path c)) p
                                         && negb (path_eqb (n_path c) p))
                          nodes))
           else inl (mk_exn NotADirectoryError
                       ("[Errno 20] Not a directory: " ++ path_str p))
       | None => inl (no_such_file p)
       end;
     fs_walk := fun p =>
       inr (map n_path
              (filter (fun c => is_prefix p (n_path c)
                                && negb (path_eqb (n_path c) p))
                 nodes));
     fs_read := fun p =>
       match find_node nodes p with
       | Some n =>
           if n_is_dir n
           then inl (mk_exn IsADirectoryError
                       ("[Errno 21] Is a directory: " ++ path_str p))
           else inr (n_bytes n)
       | None => inl (no_such_file p)
       end;
     guess_type := guess_by_extension;
     fromtimestamp_isoformat := iso_of_seconds;
     now_isoformat := "2024-01-01T00:00:00" |}.

Definition dir_node (p : path) : node := mk_node p true 4096 0 [].

Definition file_node (p : path) (mtime : Z) (bytes : list byte) : node :=
  mk_node p false (len bytes) mtime bytes.

(** A project at [/srv/proj] with a few files. *)
Definition demo_root : path := ["srv"; "proj"].

Definition demo_nodes : list node :=
  [ dir_node ["srv"; "proj"];
    file_node ["srv"; "proj"; "notes.txt"] 5 (list_byte_of_string "hello");
    file_node ["srv"; "proj"; "a.txt"] 7 [xff; x41];
    file_node ["srv"; "proj"; "Makefile"] 9 (list_byte_of_string "all:");
    file_node ["srv"; "proj"; "logo.png"] 3 [x89; x50; x4e; x47; x00];
    file_node ["srv"; "proj"; "game.uproject"] 4 (list_byte_of_string "{}");
    dir_node ["srv"; "proj"; "sub"];
    file_node ["srv"; "proj"; "sub"; "deep.md"] 8 (list_byte_of_string "x");
    dir_node ["srv"; "proj"; "alpha"];
    mk_node ["srv"; "proj"; "huge.txt"] false (MAX_FILE_SIZE + 1) 2
      (list_byte_of_string "small") ].

Definition demo : World := snapshot demo_root demo_nodes.

(** The same file system where reading one file is refused. *)
Definition with_read_fault (w : World) (p : path) (e : exn) : World :=
  {| project_root := project_root w;
     fs_resolve := fs_resolve w;
     fs_exists := fs_exists w;
     fs_is_dir := fs_is_dir w;
     fs_is_file := fs_is_file w;
     fs_stat := fs_stat w;
     fs_iterdir := fs_iterdir w;
     fs_walk := fs_walk w;
     fs_read := fun q => if path_eqb q p then inl e else fs_read w q;
     guess_type := guess_type w;
     fromtimestamp_isoformat := fromtimestamp_isoformat w;
     now_isoformat := now_isoformat w |}.

Definition permission_denied : exn :=
  mk_exn PermissionError "[Errno 13] Permission denied".

Definition locked : World :=
  with_read_fault demo ["srv"; "proj"; "notes.txt"] permission_denied.

(** The file system calls a run adds to the log, and the document. *)
Definition answer (run : list fs_call -> document * list fs_call) : document :=
  fst (run []).

Definition calls (run : list fs_call -> document * list fs_call) : list fs_call :=
  snd (run []).

(** ** Predicates used in the statements *)

(** The failure envelope of the AccessDenied condition. *)
Definition denied (w : World) (p : string) : document :=
  DError {| er_success := false;
            er_error := p;
            er_error_type := "AccessDenied";
            er_timestamp := now_isoformat w |}.

Definition is_denied (d : document) : bool :=
  match d with
  | DError e => er_error_type e =? "AccessDenied"
  | _ => false
  end.

Definition ascii_byte (b : byte) : Prop := (Byte.to_N b <? 128)%N = true.

Definition newest_first (x y : FileEntry) : Prop :=
  String.leb (modified_key y) (modified_key x) = true.

Definition by_name (x y : FileEntry) : Prop :=
  String.leb (fi_name x) (fi_name y) = true.

Definition ascending (x y : string) : Prop := String.leb x y = true.

(** A query that fails, fails with an [OSError]. *)
Definition os_fault {A} (r : result A) : bool :=
  match r with
  | inl e => is_OSError e
  | inr _ => true
  end.

(** The queries [list_directory] makes on one child fail, if they do, with
    an [OSError]. *)
Definition faults_are_os (w : World) (item : path) : bool :=
  os_fault (fs_is_dir w item) && os_fault (fs_stat w item) &&
  match fs_stat w item with
  | inr st => os_fault (fromtimestamp_isoformat w (st_mtime st))
  | inl _ => true
  end.

(** The log [l'] extends [l] by calls that open no file. *)
Definition quiet (l l' : list fs_call) : Prop :=
  exists extra, l' = (l ++ extra)%list /\
                Forall (fun c => opens_file c = false) extra.

(** A listed file carries no line count. *)
Definition no_line_count (e : FileEntry) : Prop := fi_line_count e = None.

(** The reading of claim C6 in the spec's words: the text result is reached
    by the Latin-1 retry, or else the result is base64. *)
Definition via_latin1_or_base64 (p : path) (d : document) (log : list fs_call)
  : Prop :=
  match d with
  | DRead r =>
      (rr_encoding r = "text" /\ In (COpenText p Latin1) log) \/
      rr_encoding r = "base64"
  | _ => False
  end.

(** The text [read_file] returns for bytes read as UTF-8 with
    [errors="ignore"]. *)
Definition utf8_text (bs : list byte) : str :=
  List.concat (split_lines [] (translate_newlines (decoded_points (utf8_scan bs)))).

(** The success envelope of the tool named [action]: [success] is true,
    [action] and [timestamp] are there, the other keys are the tool's. *)
Definition success_envelope (w : World) (action : string) (d : document) : Prop :=
  match d with
  | DList r =>
      action = "list" /\ lr_success r = true /\ lr_action r = action /\
      lr_timestamp r = now_isoformat w
  | DRead r =>
      action = "read" /\ rr_success r = true /\ rr_action r = action /\
      rr_timestamp r = now_isoformat w
  | DSearch r =>
      action = "search" /\ sr_success r = true /\ sr_action r = action /\
      sr_timestamp r = now_isoformat w
  | DInfo r =>
      action = "info" /\ ir_success r = true /\ ir_action r = action /\
      ir_timestamp r = now_isoformat w
  | DError _ => False
  end.

(** The failure envelope made from the exception [e]. *)
Definition failure_envelope (w : World) (e : exn) (d : document) : Prop :=
  d = DError {| er_success := false;
                er_error := exc_msg e;
                er_error_type := class_name (exc_cls e);
                er_timestamp := now_isoformat w |}.

(** What a tool call comes to: the body returned and the answer is the
    success envelope, or the body raised [e] and the answer is the failure
    envelope of [e]. *)
Definition enveloped {A} (w : World) (action : string) (body : M A)
           (run : list fs_call -> document * list fs_call) (l : list fs_call)
  : Prop :=
  (exists r, fst (body l) = inr r /\ success_envelope w action (fst (run l))) \/
  (exists e, fst (body l) = inl e /\ failure_envelope w e (fst (run l))).

(** The name holds a dot. *)
Definition has_dot (n : string) : bool := contains "." n.

(** What a successful listing looks like. *)
Definition listing_in_order (r : ListResult) : Prop :=
  Sorted by_name (lr_files r) /\
  Sorted ascending (lr_subdirectories r) /\
  lr_total_files r = len (lr_files r) /\
  lr_total_directories r = len (lr_subdirectories r) /\
  Forall no_line_count (lr_files r).

(** ** Further predicates used in the statements *)

(** The failure envelope of an exception of class [cls] with message
    [msg]. *)
Definition failure (w : World) (cls : exc_class) (msg : string) : document :=
  DError {| er_success := false;
            er_error := msg;
            er_error_type := class_name cls;
            er_timestamp := now_isoformat w |}.

(** [is_dir] answers yes. *)
Definition is_dir_true (w : World) (item : path) : bool :=
  match fs_is_dir w item with
  | inr true => true
  | _ => false
  end.

(** The extension passes the filter, or there is no filter. *)
Definition passes_filter (file_extensions : option (list string)) (item : path)
  : bool :=
  negb (given file_extensions)
  || any_ext_in file_extensions (lower (suffix item)).

(** [stat] answers and its time stamp converts. *)
Definition stat_and_time_ok (w : World) (item : path) : bool :=
  match fs_stat w item with
  | inr st =>
      match fromtimestamp_isoformat w (st_mtime st) with
      | inr _ => true
      | inl _ => false
      end
  | inl _ => false
  end.

(** The children [list_directory] puts among its files. *)
Definition listable (w : World) (file_extensions : option (list string))
           (item : path) : bool :=
  match fs_is_dir w item with
  | inr false => passes_filter file_extensions item && stat_and_time_ok w item
  | _ => false
  end.

(** The entry [e] describes the file [item] as the queries of [w] answer. *)
Definition describes (w : World) (item : path) (e : FileEntry) : Prop :=
  exists st t,
    fs_stat w item = inr st /\
    fromtimestamp_isoformat w (st_mtime st) = inr t /\
    fi_name e = name item /\
    fi_path e = path_str item /\
    fi_type e = "file" /\
    fi_size e = Some (st_size st) /\
    fi_modified_time e = Some t /\
    fi_mime_type e = guess_type w (path_str item) /\
    fi_extension e = Some (lower (suffix item)) /\
    fi_line_count e = None.

(** A filter argument that keeps every file: none, an empty list, or a list
    with the empty string in it. *)
Definition filters_nothing (file_extensions : option (list string)) : Prop :=
  given file_extensions = false \/ In "" (extensions file_extensions).

(** The names of the files of a listing. *)
Definition file_names (r : ListResult) : list string :=
  map fi_name (lr_files r).

(** [is_file] answers yes. *)
Definition is_file_true (w : World) (f : path) : bool :=
  match fs_is_file w f with
  | inr true => true
  | _ => false
  end.

(** The name holds the term, case ignored. *)
Definition name_matches (term : string) (f : path) : bool :=
  contains (lower term) (lower (name f)).

(** The paths [search_files] starts from: the confined path itself when it
    is a file, else what [*.*] selects below it, one level down or at any
    depth. *)
Definition search_candidates (w : World) (safe : path) (recursive : bool)
  : list path :=
  match fs_is_file w safe with
  | inr true => [safe]
  | _ =>
      if recursive then
        match fs_walk w safe with
        | inr paths => filter (fun q => has_dot (name q)) paths
        | inl _ => []
        end
      else
        match fs_iterdir w safe with
        | inr names => map (child safe) (filter has_dot names)
        | inl _ => []
        end
  end.

(** The candidates that are files, pass the extension filter and hold the
    term in their name, in enumeration order. *)
Definition search_matches (w : World) (term : string)
           (file_extensions : option (list string)) (safe : path)
           (recursive : bool) : list path :=
  filter (name_matches term)
    (filter (passes_filter file_extensions)
       (filter (is_file_true w) (search_candidates w safe recursive))).

(** The answer with the echoed search term replaced. *)
Definition with_search_term (term : string) (d : document) : document :=
  match d with
  | DSearch r =>
      DSearch {| sr_success := sr_success r;
                 sr_action := sr_action r;
                 sr_search_term := term;
                 sr_path := sr_path r;
                 sr_files := sr_files r;
                 sr_total_matches := sr_total_matches r;
                 sr_max_results := sr_max_results r;
                 sr_recursive := sr_recursive r;
                 sr_timestamp := sr_timestamp r |}
  | _ => d
  end.

(** [read_file] takes the file for text: its MIME type is textual or its
    extension is listed. *)
Definition classified_text (w : World) (safe : path) : bool :=
  mime_is_text (guess_type w (path_str safe))
  || str_in (lower (suffix safe)) text_extensions.

(** The number of line feeds of a text. *)
Definition count_lf (s : str) : nat :=
  List.length (filter (fun c => (c =? 10)%N) s).

(** The text is not empty and does not end in a line feed. *)
Definition unterminated (s : str) : bool :=
  match s with
  | [] => false
  | _ => negb (last s 0%N =? 10)%N
  end.

(** The number of lines of a text: its line feeds, and one more for a last
    line without line feed. *)
Definition lines_in (s : str) : Z :=
  Z.of_nat (count_lf s) + (if unterminated s then 1 else 0).

(** The decoded text of a file opened as UTF-8 with [errors="ignore"] in
    text mode. *)
Definition text_of (bs : list byte) : str :=
  translate_newlines (decoded_points (utf8_scan bs)).

(** * The engine bridge ([ue4_ops.py])

    The tools that relay a command to a running editor over a connection.
    A connection object is what the duck-typed dispatch sees of it: which
    of its send methods exist and what calling them does.  What has been
    sent is a log threaded through the tools.  Objects count as true, as
    objects without [__bool__] and [__len__] do. *)

Module UE4.
Section Bridge.

(** The values of the dictionaries relayed to the engine. *)
Context {value : Type}.

Definition dict : Type := list (string * value).

(** [d or {}] *)
Definition or_empty (d : option dict) : dict :=
  match d with
  | Some d => d
  | None => []
  end.

(** [s or "default"] *)
Definition or_default (s : string) : string :=
  if s =? "" then "default" else s.

(** The ["payload"] of a command. *)
Inductive payload :=
| MovePayload (actor_name : string) (location rotation scale : dict)
| DictPayload (d : dict).

(** [command] *)
Record command := mk_command {
  cmd_action : string;
  cmd_request_id : string;
  cmd_payload : payload
}.

(** A method of a connection object, as [await connection.m(command)]
    meets it: missing; taking the command and returning; raising with
    nothing sent; or letting the command out and raising all the same, in
    the call or when its result is awaited (a plain [send], whose result
    cannot be awaited, ends in [TypeError] after it has sent). *)
Inductive method :=
| Absent
| Sends
| Raises (e : exn)
| SendsThenRaises (e : exn).

Record connection := mk_connection {
  conn_name : string;
  send_json : method;
  send : method;
  (** the [ws] attribute: missing or [None], or an object and its [send] *)
  ws : option method
}.

(** The manager and its [active_connections] dictionary, in insertion
    order; the attribute may be missing. *)
Record manager := mk_manager {
  active_connections : option (list (string * connection))
}.

Record Env := mk_env {
  (** [get_ue4_websocket_manager()] *)
  ue4_manager : option manager;
  (** [int(datetime.now().timestamp() * 1000)] *)
  clock_millis : Z;
  (** [datetime.now().isoformat()] *)
  clock_isoformat : string
}.

Inductive transport := BySendJson | BySend | ByWsSend.

(** One command that went out: the connection, the method used, the
    command ([send] and [ws.send] carry it as [json.dumps(command)]). *)
Record sent := mk_sent {
  sent_to : string;
  sent_by : transport;
  sent_command : command
}.

Definition U (A : Type) : Type := list sent -> result A * list sent.

Definition retU {A} (a : A) : U A := fun l => (inr a, l).

Definition raiseU {A} (e : exn) : U A := fun l => (inl e, l).

Definition bindU {A B} (m : U A) (f : A -> U B) : U B :=
  fun l =>
    match m l with
    | (inr a, l') => f a l'
    | (inl e, l') => (inl e, l')
    end.

Definition RuntimeError (msg : string) : exn :=
  mk_exn (OtherException "RuntimeError") msg.

(** [d[k]] when [k in d] *)
Fixpoint lookup (k : string) (d : list (string * connection))
  : option connection :=
  match d with
  | [] => None
  | (k', c) :: d' => if k =? k' then Some c else lookup k d'
  end.

(** [get_ue4_connection(session_id)] *)
Definition get_ue4_connection (env : Env) (session_id : string)
  : result (option connection) :=
  match ue4_manager env with
  | None =>
      inl (RuntimeError
             "UE4 WebSocket manager not initialized. Call set_ue4_websocket_manager() first.")
  | Some m =>
      let conns := match active_connections m with
                   | Some d => d
                   | None => []
                   end in
      match lookup session_id conns with
      | Some c => inr (Some c)
      | None =>
          if session_id =? "" then
            match conns with
            | (_, c) :: _ => inr (Some c)
            | [] => inr None
            end
          else inr None
      end
  end.

(** Calling a method that is there. *)
Definition call_method (c : connection) (t : transport) (m : method)
           (cmd : command) : U unit :=
  match m with
  | Sends => fun l => (inr tt, (l ++ [mk_sent (conn_name c) t cmd])%list)
  | Raises e => raiseU e
  | SendsThenRaises e =>
      fun l => (inl e, (l ++ [mk_sent (conn_name c) t cmd])%list)
  | Absent =>
      raiseU (mk_exn (OtherException "AttributeError") "no such method")
  end.

(** [_send_ue4_command(connection, command)] *)
Definition send_ue4_command (c : connection) (cmd : command) : U unit :=
  match send_json c with
  | Absent =>
      match send c with
      | Absent =>
          match ws c with
          | Some Absent | None =>
              raiseU (RuntimeError
                        "UE4 connection object does not support send_json/send")
          | Some m => call_method c ByWsSend m cmd
          end
      | m => call_method c BySend m cmd
      end
  | m => call_method c BySendJson m cmd
  end.

(** The dictionaries the tools answer with. *)
Record MoveResult := mk_move_result {
  mv_success : bool;
  mv_action : string;
  mv_status : string;
  mv_request_id : string;
  mv_session_id : string;
  mv_actor_name : string;
  mv_location : option dict;
  mv_rotation : option dict;
  mv_scale : option dict;
  mv_message : string;
  mv_timestamp : string
}.

Record SelectedResult := mk_selected_result {
  sl_success : bool;
  sl_action : string;
  sl_status : string;
  sl_request_id : string;
  sl_session_id : string;
  sl_message : string;
  sl_timestamp : string
}.

Record ExecResult := mk_exec_result {
  ex_success : bool;
  ex_action : string;
  ex_status : string;
  ex_request_id : string;
  ex_session_id : string;
  ex_command_name : string;
  ex_parameters : dict;
  ex_message : string;
  ex_timestamp : string
}.

(** [error_result] of the engine tools *)
Record FailedResult := mk_failed_result {
  fl_success : bool;
  fl_action : string;
  fl_session_id : string;
  fl_error : string;
  fl_error_type : string;
  fl_timestamp : string
}.

Inductive answer :=
| AMove (r : MoveResult)
| ASelected (r : SelectedResult)
| AExec (r : ExecResult)
| AFailed (r : FailedResult).

(** The [except Exception as e] clause of an engine tool. *)
Definition failed (env : Env) (action session_id : string) (e : exn)
  : FailedResult :=
  {| fl_success := false;
     fl_action := action;
     fl_session_id := or_default session_id;
     fl_error := exc_msg e;
     fl_error_type := class_name (exc_cls e);
     fl_timestamp := clock_isoformat env |}.

Definition run_engine_tool {A} (env : Env) (action session_id : string)
           (wrap : A -> answer) (body : U A) : list sent -> answer * list sent :=
  fun l =>
    match body l with
    | (inr r, l') => (wrap r, l')
    | (inl e, l') => (AFailed (failed env action session_id e), l')
    end.

(** [connection = get_ue4_connection(session_id); if not connection:
    raise RuntimeError(...)] *)
Definition connect (env : Env) (session_id : string) : U connection :=
  fun l =>
    match get_ue4_connection env session_id with
    | inl e => (inl e, l)
    | inr (Some c) => (inr c, l)
    | inr None =>
        (inl (RuntimeError
                ("No active UE4 connection found for session_id: "
                 ++ session_id)), l)
    end.

Definition move_actor_body (env : Env) (session_id actor_name : string)
           (location rotation scale : option dict) : U MoveResult :=
  if actor_name =? "" then
    raiseU (mk_exn ValueError "Actor name is required")
  else
    bindU (connect env session_id) (fun connection =>
    let request_id := "move_actor_" ++ str_of_Z (clock_millis env) in
    let command :=
      {| cmd_action := "move_actor";
         cmd_request_id := request_id;
         cmd_payload := MovePayload actor_name (or_empty location)
                          (or_empty rotation) (or_empty scale) |} in
    bindU (send_ue4_command connection command) (fun _ =>
    retU {| mv_success := true;
            mv_action := "move_actor";
            mv_status := "command_sent";
            mv_request_id := request_id;
            mv_session_id := or_default session_id;
            mv_actor_name := actor_name;
            mv_location := location;
            mv_rotation := rotation;
            mv_scale := scale;
            mv_message :=
              "Move actor '" ++ actor_name ++ "' command sent to UE4";
            mv_timestamp := clock_isoformat env |})).

Definition move_actor (env : Env) (session_id actor_name : string)
           (location rotation scale : option dict)
  : list sent -> answer * list sent :=
  run_engine_tool env "move_actor" session_id AMove
    (move_actor_body env session_id actor_name location rotation scale).

Definition get_selected_actors_body (env : Env) (session_id : string)
  : U SelectedResult :=
  bindU (connect env session_id) (fun connection =>
  let request_id :=
    "get_selected_actors_" ++ str_of_Z (clock_millis env) in
  let command :=
    {| cmd_action := "get_selected_actors";
       cmd_request_id := request_id;
       cmd_payload := DictPayload [] |} in
  bindU (send_ue4_command connection command) (fun _ =>
  retU {| sl_success := true;
          sl_action := "get_selected_actors";
          sl_status := "command_sent";
          sl_request_id := request_id;
          sl_session_id := or_default session_id;
          sl_message :=
            "Get selected actors command sent to UE4 (await UE4 response)";
          sl_timestamp := clock_isoformat env |})).

Definition get_selected_actors (env : Env) (session_id : string)
  : list sent -> answer * list sent :=
  run_engine_tool env "get_selected_actors" session_id ASelected
    (get_selected_actors_body env session_id).

Definition execute_ue4_command_body (env : Env)
           (session_id command_name : string) (parameters : option dict)
  : U ExecResult :=
  if command_name =? "" then
    raiseU (mk_exn ValueError "Command name is required")
  else
    bindU (connect env session_id) (fun connection =>
    let request_id :=
      "execute_ue4_command_" ++ str_of_Z (clock_millis env) in
    let command :=
      {| cmd_action := command_name;
         cmd_request_id := request_id;
         cmd_payload := DictPayload (or_empty parameters) |} in
    bindU (send_ue4_command connection command) (fun _ =>
    retU {| ex_success := true;
            ex_action := "execute_ue4_command";
            ex_status := "command_sent";
            ex_request_id := request_id;
            ex_session_id := or_default session_id;
            ex_command_name := command_name;
            ex_parameters := or_empty parameters;
            ex_message := "Command '" ++ command_name ++ "' sent to UE4";
            ex_timestamp := clock_isoformat env |})).

Definition execute_ue4_command (env : Env)
           (session_id command_name : string) (parameters : option dict)
  : list sent -> answer * list sent :=
  run_engine_tool env "execute_ue4_command" session_id AExec
    (execute_ue4_command_body env session_id command_name parameters).

(** The [success] key of an answer. *)
Definition succeeded (a : answer) : bool :=
  match a with
  | AMove r => mv_success r
  | ASelected r => sl_success r
  | AExec r => ex_success r
  | AFailed r => fl_success r
  end.

(** The connection a session id stands for, when the manager is there. *)
Definition chosen (env : Env) (session_id : string) : option connection :=
  match get_ue4_connection env session_id with
  | inr (Some c) => Some c
  | _ => None
  end.

(** The method the dispatch picks: the first one there of [send_json],
    [send], [ws.send]. *)
Definition picked (c : connection) : option (transport * method) :=
  match send_json c, send c, ws c with
  | Absent, Absent, Some Absent => None
  | Absent, Absent, None => None
  | Absent, Absent, Some m => Some (ByWsSend, m)
  | Absent, m, _ => Some (BySend, m)
  | m, _, _ => Some (BySendJson, m)
  end.

(** The connections registered with the manager, in insertion order. *)
Definition registered (env : Env) : list (string * connection) :=
  match ue4_manager env with
  | Some m =>
      match active_connections m with
      | Some d => d
      | None => []
      end
  | None => []
  end.

(** A run of the tool [action] that sends at most one command, and that
    only to the connection its session id stands for and by the method the
    dispatch picks: it succeeds when that method took the command and
    returned; it fails either with nothing sent, or with the one command
    sent by a method that raised after sending, and then answers with that
    exception. *)
Definition sends_at_most_once (env : Env) (action session_id : string)
           (run : list sent -> answer * list sent) : Prop :=
  forall l,
    match run l with
    | (a, l') =>
        (succeeded a = true /\
         exists c t cmd,
           chosen env session_id = Some c /\
           picked c = Some (t, Sends) /\
           l' = (l ++ [mk_sent (conn_name c) t cmd])%list) \/
        (succeeded a = false /\ l' = l) \/
        (exists c t cmd e,
           chosen env session_id = Some c /\
           picked c = Some (t, SendsThenRaises e) /\
           a = AFailed (failed env action session_id e) /\
           l' = (l ++ [mk_sent (conn_name c) t cmd])%list)
    end.

End Bridge.

(** An editor session [ed1] that has [send_json], a second one that has
    [send] only, a third whose only sender is its [ws] attribute, a fourth
    that cannot send, a fifth whose [send_json] raises, and a sixth whose
    [send] is a plain method: it sends, and its result cannot be awaited. *)
Definition studio : Env :=
  {| ue4_manager :=
       Some (mk_manager
               (Some [ ("ed1", mk_connection "editor-1" Sends Sends None);
                       ("ed2", mk_connection "editor-2" Absent Sends None);
                       ("ed3", mk_connection "editor-3" Absent Absent
                                 (Some Sends));
                       ("ed4", mk_connection "editor-4" Absent Absent None);
                       ("ed5", mk_connection "editor-5"
                                 (Raises (mk_exn (OtherException "ConnectionClosed")
                                            "socket closed"))
                                 Sends None);
                       ("ed6", mk_connection "editor-6" Absent
                                 (SendsThenRaises
                                    (mk_exn (OtherException "TypeError")
                                       "object NoneType can't be used in 'await' expression"))
                                 None) ]));
     clock_millis := 1700000000000;
     clock_isoformat := "2023-11-14T22:13:20" |}.

End UE4.

(** * Properties *)

(** ** Running computations *)

Lemma bind_inr {A B} (m : M A) (f : A -> M B) l a l1 :
  m l = (inr a, l1) -> bind m f l = f a l1.
Proof. intros H. unfold bind. now rewrite H. Qed.

Lemma bind_inl {A B} (m : M A) (f : A -> M B) l e l1 :
  m l = (inl e, l1) -> bind m f l = (inl e, l1).
Proof. intros H. unfold bind. now rewrite H. Qed.

Lemma bind_inv {A B} (m : M A) (f : A -> M B) l b l' :
  bind m f l = (inr b, l') ->
  exists a l1, m l = (inr a, l1) /\ f a l1 = (inr b, l').
Proof.
  unfold bind. destruct (m l) as [[e|a] l1]; intros H.
  - discriminate.
  - now exists a, l1.
Qed.

Lemma run_tool_inr {A} w (wrap : A -> document) body l r l' :
  body l = (inr r, l') -> run_tool w wrap body l = (wrap r, l').
Proof. intros H. unfold run_tool. now rewrite H. Qed.

Lemma run_tool_inl {A} w (wrap : A -> document) body l e l' :
  body l = (inl e, l') ->
  run_tool w wrap body l = (DError (error_result w e), l').
Proof. intros H. unfold run_tool. now rewrite H. Qed.

(** ** Path confinement *)

Lemma get_safe_path_escapes w p l :
  escapes w p ->
  get_safe_path w p l = (inl (mk_exn AccessDenied p), (l ++ [CResolve p])%list).
Proof.
  intros [Hne Hout]. unfold get_safe_path.
  destruct (String.eqb_spec p "") as [->|_]; [congruence|].
  unfold bind, call. now rewrite Hout.
Qed.

(** ** search_files: the empty term *)

(** C9: a search with an empty term fails with [ValueError], message
    "Search term is required", whatever the path is; the log of file system
    calls is left as it was, so path confinement has not been entered. *)
Theorem search_empty_term_first w exts recursive max_results path l :
  search_files w "" exts recursive max_results path l =
  (DError {| er_success := false;
             er_error := "Search term is required";
             er_error_type := "ValueError";
             er_timestamp := now_isoformat w |}, l).
Proof. reflexivity. Qed.

(** C1, as stated, fails: a search with the default empty term on the
    escaping path [../../etc/passwd] answers with the invalid-argument
    failure, not with AccessDenied. *)
Lemma search_escape_not_denied :
  escapes demo "../../etc/passwd" /\
  is_denied (answer (search_files demo "" None false 50 "../../etc/passwd")) = false /\
  answer (search_files demo "" None false 50 "../../etc/passwd") =
  DError {| er_success := false;
            er_error := "Search term is required";
            er_error_type := "ValueError";
            er_timestamp := "2024-01-01T00:00:00" |}.
Proof. repeat split; try reflexivity. discriminate. Qed.

(** C1, amended: on a path that normalises outside the project root,
    [list_directory], [read_file], [get_file_info], and [search_files] with
    a non-empty term, answer with the AccessDenied failure envelope, and the
    only file system call made is the normalisation of the path. *)
Theorem escaping_path_denied w p exts term recursive max_results l :
  escapes w p ->
  list_directory w exts p l = (denied w p, (l ++ [CResolve p])%list) /\
  read_file w p l = (denied w p, (l ++ [CResolve p])%list) /\
  get_file_info w p l = (denied w p, (l ++ [CResolve p])%list) /\
  (term <> "" ->
   search_files w term exts recursive max_results p l =
   (denied w p, (l ++ [CResolve p])%list)).
Proof.
  intros Hesc. pose proof (get_safe_path_escapes w p l Hesc) as Hsafe.
  repeat split.
  - unfold list_directory. apply (run_tool_inl _ _ _ _ (mk_exn AccessDenied p)). unfold list_directory_body.
    now apply bind_inl.
  - unfold read_file. apply (run_tool_inl _ _ _ _ (mk_exn AccessDenied p)). unfold read_file_body. now apply bind_inl.
  - unfold get_file_info. apply (run_tool_inl _ _ _ _ (mk_exn AccessDenied p)). unfold get_file_info_body.
    now apply bind_inl.
  - intros Hterm. unfold search_files. apply (run_tool_inl _ _ _ _ (mk_exn AccessDenied p)).
    unfold search_files_body.
    destruct (String.eqb_spec term "") as [->|_]; [congruence|].
    unfold raise_if. rewrite (bind_inr _ _ l tt l) by reflexivity.
    now apply bind_inl.
Qed.

Lemma escaping_path_denied_witness :
  escapes demo "../../etc/passwd" /\
  list_directory demo None "../../etc/passwd" [] =
  (denied demo "../../etc/passwd", [CResolve "../../etc/passwd"]) /\
  read_file demo "../../etc/passwd" [] =
  (denied demo "../../etc/passwd", [CResolve "../../etc/passwd"]) /\
  get_file_info demo "../../etc/passwd" [] =
  (denied demo "../../etc/passwd", [CResolve "../../etc/passwd"]) /\
  search_files demo "passwd" None true 50 "../../etc/passwd" [] =
  (denied demo "../../etc/passwd", [CResolve "../../etc/passwd"]).
Proof.
  assert (escapes demo "../../etc/passwd") as Hesc
    by (split; [discriminate | reflexivity]).
  destruct (escaping_path_denied demo "../../etc/passwd" None "passwd" true 50
              [] Hesc) as (Hlist & Hread & Hinfo & Hsearch).
  split; [exact Hesc|]. split; [exact Hlist|]. split; [exact Hread|].
  split; [exact Hinfo|]. apply Hsearch. discriminate.
Defined.

(** ** Stepping through a tool *)

Ltac unfold_queries :=
  unfold exists_, is_dir, is_file, stat, iterdir, glob, rglob,
    relative_or_absolute, open_readlines, open_read_binary in *.

Ltac unfold_monad :=
  unfold bind, call, ret, raise, raise_if, lift, try_except in *.

(** Invert [bind m f l = (inr b, l')] into its two steps. *)
Ltac inv_bind H :=
  let a := fresh "a" in
  let l1 := fresh "l" in
  let Hm := fresh "Hm" in
  apply bind_inv in H; destruct H as (a & l1 & Hm & H).

Lemma raise_if_inv c e l l' :
  raise_if c e l = (inr tt, l') -> c = false /\ l' = l.
Proof.
  unfold raise_if, raise, ret. destruct c; intros H; inversion H; auto.
Qed.

Lemma app_one_assoc {A} (l : list A) a m : ((l ++ [a]) ++ m)%list = (l ++ a :: m)%list.
Proof. now rewrite <- app_assoc. Qed.

(** ** read_file: the size limit *)

(** C2: when the size [stat] reports exceeds 10 MiB, [read_file] fails with
    the [ValueError] "File too large ..." whatever bytes the file holds, and
    the calls made after confinement are [exists], [is_file] and one
    [stat]: the file is not opened. *)
Theorem read_too_large w p l safe l1 s :
  get_safe_path w p l = (inr safe, l1) ->
  fs_exists w safe = inr true ->
  fs_is_file w safe = inr true ->
  fs_stat w safe = inr s ->
  (st_size s > 10 * 1024 * 1024)%Z ->
  read_file w p l =
  (DError {| er_success := false;
             er_error := "File too large (" ++ str_of_Z (st_size s)
                         ++ " bytes). Maximum size is 10485760 bytes.";
             er_error_type := "ValueError";
             er_timestamp := now_isoformat w |},
   (l1 ++ [CExists safe; CIsFile safe; CStat safe])%list).
Proof.
  intros Hsafe Hex Hfile Hstat Hbig.
  unfold read_file, run_tool, read_file_body.
  rewrite (bind_inr _ _ _ _ _ Hsafe).
  unfold_queries. unfold_monad. rewrite Hex, Hfile, Hstat. simpl.
  replace (st_size s >? MAX_FILE_SIZE)%Z with true
    by (symmetry; apply Z.gtb_lt; unfold MAX_FILE_SIZE; lia).
  rewrite !app_one_assoc. reflexivity.
Qed.

Lemma read_too_large_witness :
  read_file demo "huge.txt" [] =
  (DError {| er_success := false;
             er_error := "File too large (10485761 bytes). Maximum size is 10485760 bytes.";
             er_error_type := "ValueError";
             er_timestamp := "2024-01-01T00:00:00" |},
   [CResolve "huge.txt"; CExists ["srv"; "proj"; "huge.txt"];
    CIsFile ["srv"; "proj"; "huge.txt"]; CStat ["srv"; "proj"; "huge.txt"]]).
Proof.
  apply (read_too_large demo "huge.txt" [] ["srv"; "proj"; "huge.txt"]
           [CResolve "huge.txt"] (mk_stat 10485761 2));
    try reflexivity.
Defined.

(** ** get_file_info: the line count *)

Lemma count_lines_some w safe mime l n l' :
  count_lines w safe mime l = (inr (Some n), l') ->
  fs_is_file w safe = inr true /\ mime_is_text mime = true.
Proof.
  unfold count_lines. unfold_queries. unfold_monad.
  destruct (fs_is_file w safe) as [e|[|]]; try discriminate.
  destruct (mime_is_text mime); try discriminate.
  auto.
Qed.

(** Counting never raises: a failure of the file access is swallowed. *)
Lemma count_lines_total w safe mime l :
  fs_is_file w safe = inr true ->
  exists lc l', count_lines w safe mime l = (inr lc, l').
Proof.
  intros Hf. unfold count_lines. unfold_queries. unfold_monad. rewrite Hf.
  destruct (mime_is_text mime); [|eauto].
  destruct (fs_read w safe); simpl; eauto.
Qed.

Lemma count_lines_read_fails w safe mime l e :
  fs_is_file w safe = inr true ->
  fs_read w safe = inl e ->
  exists l', count_lines w safe mime l = (inr None, l').
Proof.
  intros Hf Hr. unfold count_lines. unfold_queries. unfold_monad.
  rewrite Hf, Hr. destruct (mime_is_text mime); simpl; eauto.
Qed.

Lemma relative_or_absolute_total w p l :
  exists s, relative_or_absolute w p l = (inr s, l).
Proof.
  unfold relative_or_absolute, relative_to. unfold_monad.
  destruct (strip_prefix (project_root w) p) as [[|c rest]|]; simpl; eauto.
Qed.

(** C4: [get_file_info] reports a line count only for a file whose guessed
    MIME type is textual ([text/...] or one of the five application types),
    whatever the extension is; and when opening or reading the file fails
    while counting, the call still succeeds, with [line_count] absent. *)
Theorem info_line_count_by_mime w p l :
  (forall r l' n,
      get_file_info w p l = (DInfo r, l') ->
      ir_line_count r = Some n ->
      mime_is_text (ir_mime_type r) = true /\
      exists safe, fs_is_file w safe = inr true /\ ir_path r = path_str safe) /\
  (forall safe l1 st d t e,
      get_safe_path w p l = (inr safe, l1) ->
      fs_exists w safe = inr true ->
      fs_stat w safe = inr st ->
      fs_is_file w safe = inr true ->
      fs_is_dir w safe = inr d ->
      fromtimestamp_isoformat w (st_mtime st) = inr t ->
      fs_read w safe = inl e ->
      exists r l', get_file_info w p l = (DInfo r, l') /\
                   ir_success r = true /\ ir_line_count r = None).
Proof.
  split.
  - intros r l' n Hrun Hlc.
    unfold get_file_info, run_tool in Hrun.
    destruct (get_file_info_body w p l) as [[e|r0] l0] eqn:Hbody;
      inversion Hrun; subst r0 l0; clear Hrun.
    unfold get_file_info_body in Hbody.
    inv_bind Hbody. inv_bind Hbody. inv_bind Hbody. inv_bind Hbody.
    inv_bind Hbody. inv_bind Hbody. inv_bind Hbody. inv_bind Hbody.
    inv_bind Hbody. inv_bind Hbody.
    inversion Hbody; subst r; clear Hbody. cbn [ir_line_count] in Hlc.
    subst. cbn [ir_mime_type ir_path].
    match goal with
    | H : count_lines _ _ _ _ = _ |- _ =>
        apply count_lines_some in H; destruct H as [Hf Hmime]
    end.
    split; eauto.
  - intros safe l1 st d t e Hsafe Hex Hstat Hfile Hdir Hts Hread.
    unfold get_file_info, run_tool, get_file_info_body.
    rewrite (bind_inr _ _ _ _ _ Hsafe).
    destruct (count_lines_read_fails w safe (guess_type w (path_str safe))
                ((l1 ++ [CExists safe]) ++ [CStat safe])%list e Hfile Hread)
      as [l2 Hcount].
    destruct (relative_or_absolute_total w safe
                ((l1 ++ [CExists safe]) ++ [CStat safe])%list) as [rel Hrel].
    unfold exists_, stat, is_dir, is_file. rewrite Hex, Hstat, Hdir, Hfile.
    cbv [bind call ret raise raise_if lift negb].
    rewrite Hrel. cbv beta iota. rewrite Hcount. cbv beta iota. rewrite Hts.
    eexists _, _. split; [reflexivity|]. simpl. auto.
Qed.

Lemma info_line_count_by_mime_witness :
  mime_is_text (Some "text/plain") = true /\
  exists r l', get_file_info locked "notes.txt" [] = (DInfo r, l') /\
               ir_line_count r = None.
Proof.
  split.
  - edestruct (proj1 (info_line_count_by_mime demo "notes.txt" [])) as [H _];
      [vm_compute; reflexivity | reflexivity | exact H].
  - edestruct (proj2 (info_line_count_by_mime locked "notes.txt" []))
      as (r & l' & Hrun & _ & Hlc);
      [ vm_compute; reflexivity | reflexivity | reflexivity | reflexivity
      | reflexivity | reflexivity | reflexivity | ].
    exists r, l'. split; [exact Hrun | exact Hlc].
Defined.

(** The extension list of [read_file] plays no part: a [.uproject] file
    without a MIME type is text for [read_file], with one line, and has no
    line count for [get_file_info]. *)
Example info_ignores_text_extensions :
  (exists r l, read_file demo "game.uproject" [] = (DRead r, l) /\
               rr_is_text r = true /\ rr_line_count r = 1%Z) /\
  (exists r l, get_file_info demo "game.uproject" [] = (DInfo r, l) /\
               ir_line_count r = None).
Proof.
  split; eexists _, _; (split; [vm_compute; reflexivity|]); simpl; auto.
Qed.

(** ** Base64 round trip *)

Lemma sextet_char_roundtrip s :
  Base64.sextet_of_char (Base64.char_of_sextet s) = Some s.
Proof.
  destruct s as [[[[[a b] c] d] e] f].
  destruct a, b, c, d, e, f; reflexivity.
Qed.

Lemma char_is_ascii s : (Byte.to_N (Base64.char_of_sextet s) <? 128)%N = true.
Proof.
  destruct s as [[[[[a b] c] d] e] f].
  destruct a, b, c, d, e, f; reflexivity.
Qed.

Lemma pad_not_in_alphabet : Base64.sextet_of_char Base64.pad = None.
Proof. reflexivity. Qed.

Lemma list_ind3 {A} (P : list A -> Prop) :
  P [] -> (forall x, P [x]) -> (forall x y, P [x; y]) ->
  (forall x y z rest, P rest -> P (x :: y :: z :: rest)) ->
  forall l, P l.
Proof.
  intros H0 H1 H2 H3.
  assert (forall l, P l /\ (forall x, P (x :: l)) /\ (forall x y, P (x :: y :: l)))
    as Hall.
  { induction l as [|a l (IH0 & IH1 & IH2)]; repeat split; auto. }
  intros l. apply Hall.
Qed.

Lemma decode_encode3 x y z rest tl :
  Base64.decode_bytes rest = Some tl ->
  Base64.decode_bytes (Base64.encode3 x y z ++ rest) = Some (x :: y :: z :: tl).
Proof.
  intros Hrest. unfold Base64.encode3.
  destruct (Byte.to_bits x) as (x0 & x1 & x2 & x3 & x4 & x5 & x6 & x7) eqn:Ex.
  destruct (Byte.to_bits y) as (y0 & y1 & y2 & y3 & y4 & y5 & y6 & y7) eqn:Ey.
  destruct (Byte.to_bits z) as (z0 & z1 & z2 & z3 & z4 & z5 & z6 & z7) eqn:Ez.
  cbn [app Base64.decode_bytes].
  rewrite !sextet_char_roundtrip, Hrest.
  unfold Base64.byte1, Base64.byte2, Base64.byte3.
  now rewrite <- Ex, <- Ey, <- Ez, !Byte.of_bits_to_bits.
Qed.

Lemma decode_encode2 x y :
  Base64.decode_bytes (Base64.encode2 x y) = Some [x; y].
Proof.
  unfold Base64.encode2.
  destruct (Byte.to_bits x) as (x0 & x1 & x2 & x3 & x4 & x5 & x6 & x7) eqn:Ex.
  destruct (Byte.to_bits y) as (y0 & y1 & y2 & y3 & y4 & y5 & y6 & y7) eqn:Ey.
  cbn [Base64.decode_bytes].
  rewrite !sextet_char_roundtrip, pad_not_in_alphabet.
  unfold Base64.byte1, Base64.byte2. cbn [Byte.eqb Base64.is_nil andb].
  replace (Byte.eqb Base64.pad Base64.pad) with true by reflexivity.
  cbn [andb].
  now rewrite <- Ex, <- Ey, !Byte.of_bits_to_bits.
Qed.

Lemma decode_encode1 x :
  Base64.decode_bytes (Base64.encode1 x) = Some [x].
Proof.
  unfold Base64.encode1.
  destruct (Byte.to_bits x) as (x0 & x1 & x2 & x3 & x4 & x5 & x6 & x7) eqn:Ex.
  cbn [Base64.decode_bytes].
  rewrite !sextet_char_roundtrip, pad_not_in_alphabet.
  unfold Base64.byte1.
  replace (Byte.eqb Base64.pad Base64.pad) with true by reflexivity.
  cbn [andb Base64.is_nil].
  now rewrite <- Ex, !Byte.of_bits_to_bits.
Qed.

Lemma decode_bytes_b64encode bs :
  Base64.decode_bytes (Base64.b64encode bs) = Some bs.
Proof.
  induction bs as [|x|x y|x y z rest IH] using list_ind3.
  - reflexivity.
  - apply decode_encode1.
  - apply decode_encode2.
  - change (Base64.b64encode (x :: y :: z :: rest))
      with (Base64.encode3 x y z ++ Base64.b64encode rest)%list.
    now apply decode_encode3.
Qed.

Lemma b64encode_ascii bs : Forall ascii_byte (Base64.b64encode bs).
Proof.
  induction bs as [|x|x y|x y z rest IH] using list_ind3.
  - constructor.
  - unfold Base64.b64encode, Base64.encode1.
    destruct (Byte.to_bits x) as (x0 & x1 & x2 & x3 & x4 & x5 & x6 & x7).
    repeat constructor; apply char_is_ascii.
  - unfold Base64.b64encode, Base64.encode2.
    destruct (Byte.to_bits x) as (x0 & x1 & x2 & x3 & x4 & x5 & x6 & x7).
    destruct (Byte.to_bits y) as (y0 & y1 & y2 & y3 & y4 & y5 & y6 & y7).
    repeat constructor; apply char_is_ascii.
  - change (Base64.b64encode (x :: y :: z :: rest))
      with (Base64.encode3 x y z ++ Base64.b64encode rest)%list.
    apply Forall_app. split; [|exact IH].
    unfold Base64.encode3.
    destruct (Byte.to_bits x) as (x0 & x1 & x2 & x3 & x4 & x5 & x6 & x7).
    destruct (Byte.to_bits y) as (y0 & y1 & y2 & y3 & y4 & y5 & y6 & y7).
    destruct (Byte.to_bits z) as (z0 & z1 & z2 & z3 & z4 & z5 & z6 & z7).
    repeat constructor; apply char_is_ascii.
Qed.

Lemma utf8_scan_ascii cs :
  Forall ascii_byte cs -> utf8_scan cs = map (fun b => Some (Byte.to_N b)) cs.
Proof.
  induction 1 as [|b cs Hb _ IH]; [reflexivity|].
  cbn [utf8_scan map]. unfold ascii_byte in Hb. rewrite Hb. now rewrite IH.
Qed.

Lemma decode_strict_ascii cs :
  Forall ascii_byte cs -> decode Utf8 Strict cs = inr (map Byte.to_N cs).
Proof.
  intros H. unfold decode. rewrite (utf8_scan_ascii cs H).
  assert (all_decoded (map (fun b => Some (Byte.to_N b)) cs) = true) as ->.
  { clear H. induction cs; simpl; auto. }
  f_equal. clear H. induction cs as [|b cs IH]; simpl; [reflexivity|].
  now f_equal.
Qed.

Lemma ascii_bytes_of_codes cs :
  Forall ascii_byte cs -> Base64.ascii_bytes (map Byte.to_N cs) = Some cs.
Proof.
  induction 1 as [|b cs Hb _ IH]; [reflexivity|].
  cbn [map Base64.ascii_bytes]. unfold ascii_byte in Hb.
  now rewrite Hb, Byte.of_to_N, IH.
Qed.

(** What [read_file] stores for binary data decodes back to the data. *)
Lemma b64_content_roundtrip bs :
  exists s, decode Utf8 Strict (Base64.b64encode bs) = inr s /\
            Base64.b64decode s = Some bs.
Proof.
  exists (map Byte.to_N (Base64.b64encode bs)). split.
  - apply decode_strict_ascii, b64encode_ascii.
  - unfold Base64.b64decode.
    rewrite (ascii_bytes_of_codes _ (b64encode_ascii bs)).
    apply decode_bytes_b64encode.
Qed.

(** ** Sorting *)

Section SortFacts.
Context {A : Type}.
Variable le : A -> A -> bool.
Hypothesis le_total : forall x y, le x y = true \/ le y x = true.

Let R (x y : A) : Prop := le x y = true.

Lemma insert_by_hdrel x y l :
  R y x -> HdRel R y l -> HdRel R y (insert_by le x l).
Proof.
  intros Hyx Hl. destruct l as [|z l]; simpl.
  - now constructor.
  - inversion Hl; subst. destruct (le x z); now constructor.
Qed.

Lemma insert_by_sorted x l : Sorted R l -> Sorted R (insert_by le x l).
Proof.
  induction 1 as [|y l Hs IH Hhd]; simpl.
  - repeat constructor.
  - destruct (le x y) eqn:Hxy.
    + constructor; [now constructor | now constructor].
    + constructor; [exact IH|].
      apply insert_by_hdrel; [|exact Hhd].
      destruct (le_total x y) as [H|H]; [congruence | exact H].
Qed.

Lemma sort_by_sorted l : Sorted R (sort_by le l).
Proof.
  induction l as [|x l IH]; simpl; [constructor|].
  now apply insert_by_sorted.
Qed.
End SortFacts.

Section SortContent.
Context {A : Type}.
Variable le : A -> A -> bool.

Lemma insert_by_length x l :
  List.length (insert_by le x l) = S (List.length l).
Proof.
  induction l as [|y l IH]; simpl; [reflexivity|].
  destruct (le x y); simpl; congruence.
Qed.

Lemma sort_by_length l : List.length (sort_by le l) = List.length l.
Proof.
  induction l as [|x l IH]; simpl; [reflexivity|].
  now rewrite insert_by_length, IH.
Qed.

Lemma insert_by_in x l y : In y (insert_by le x l) -> y = x \/ In y l.
Proof.
  induction l as [|z l IH]; simpl.
  - intros [H|[]]; auto.
  - destruct (le x z); simpl; intros [H|H]; auto.
    destruct (IH H); auto.
Qed.

Lemma sort_by_in l y : In y (sort_by le l) -> In y l.
Proof.
  revert y. induction l as [|x l IH]; simpl; intros y H; [exact H|].
  apply insert_by_in in H. destruct H; auto.
Qed.

Lemma sort_by_Forall (P : A -> Prop) l : Forall P l -> Forall P (sort_by le l).
Proof.
  intros H. apply Forall_forall. intros y Hy. apply sort_by_in in Hy.
  now apply (proj1 (Forall_forall P l) H).
Qed.
End SortContent.

(** ** search_files: the cap and the order *)

Lemma search_item_grows w stl f matches l ms l' :
  search_item w stl f matches l = (inr ms, l') ->
  ms = matches \/ exists e, ms = (matches ++ [e])%list /\ fi_name e = name f.
Proof.
  unfold search_item.
  destruct (contains stl (lower (name f))).
  - intros H. inv_bind H. inv_bind H. inv_bind H.
    inversion H; subst. right. eexists. split; reflexivity.
  - intros H. inversion H. now left.
Qed.

Lemma search_loop_bound w max_results stl files :
  forall matches l ms l',
    search_loop w max_results stl files matches l = (inr ms, l') ->
    (len matches < max_results)%Z ->
    (len ms <= max_results)%Z.
Proof.
  induction files as [|f rest IH]; intros matches l ms l' Hrun Hlt.
  - inversion Hrun; subst. lia.
  - cbn [search_loop] in Hrun. inv_bind Hrun.
    assert (len a <= len matches + 1)%Z as Hgrow.
    { apply search_item_grows in Hm. destruct Hm as [->|(e & -> & _)].
      - lia.
      - unfold len. rewrite length_app. simpl. lia. }
    destruct (len a >=? max_results)%Z eqn:Hcap.
    + inversion Hrun; subst. lia.
    + apply (IH _ _ _ _ Hrun). rewrite Z.geb_leb in Hcap.
      apply Z.leb_gt in Hcap. lia.
Qed.

Lemma search_files_inv w term exts recursive max_results p l r l' :
  search_files w term exts recursive max_results p l = (DSearch r, l') ->
  exists files matches l1 l2,
    search_loop w max_results (lower term) files [] l1 = (inr matches, l2) /\
    sr_files r = sort_desc modified_key matches /\
    sr_max_results r = max_results /\
    sr_total_matches r = len (sr_files r).
Proof.
  intros Hrun. unfold search_files, run_tool in Hrun.
  destruct (search_files_body w term exts recursive max_results p l)
    as [[e|r0] l0] eqn:Hbody; inversion Hrun; subst r0 l0; clear Hrun.
  unfold search_files_body in Hbody.
  inv_bind Hbody. inv_bind Hbody. inv_bind Hbody. inv_bind Hbody.
  inv_bind Hbody. inv_bind Hbody. inv_bind Hbody. inv_bind Hbody.
  inversion Hbody; subst r; clear Hbody. cbn.
  eexists _, _, _, _. split; [eassumption|]. auto.
Qed.

(** C3: the cap fails at [max_results = 0].  The loop tests
    [len(matches) >= max_results] only after it has appended a match, so a
    search of the project for "notes" with a cap of zero answers with
    success, echoes [max_results = 0], and returns the one entry
    [notes.txt]: more entries than the cap the claim, and the docstring of
    [max_results], allow. *)
Theorem search_zero_cap_returns_one :
  exists r l,
    search_files demo "notes" None false 0 "" [] = (DSearch r, l) /\
    sr_max_results r = 0%Z /\
    map fi_name (sr_files r) = ["notes.txt"] /\
    (len (sr_files r) > sr_max_results r)%Z.
Proof.
  eexists _, _. split; [vm_compute; reflexivity |].
  repeat split.
Qed.

(** From a cap of one on the claim holds: a successful search with
    [max_results >= 1] returns at most [max_results] entries, and for every
    cap the entries are in descending order of the key
    [modified_time or ""] (strings compared character by character). *)
Lemma search_cap_and_order w term exts recursive max_results p l r l' :
  search_files w term exts recursive max_results p l = (DSearch r, l') ->
  ((1 <= max_results)%Z -> (len (sr_files r) <= max_results)%Z) /\
  Sorted newest_first (sr_files r).
Proof.
  intros Hrun.
  destruct (search_files_inv _ _ _ _ _ _ _ _ _ Hrun)
    as (files & matches & l1 & l2 & Hloop & Hfiles & _ & _).
  split.
  - intros Hmax. rewrite Hfiles. unfold sort_desc, len.
    rewrite sort_by_length.
    apply (search_loop_bound _ _ _ _ _ _ _ _ Hloop). unfold len. simpl. lia.
  - rewrite Hfiles. unfold sort_desc, newest_first.
    apply (sort_by_sorted (fun x y => String.leb (modified_key y) (modified_key x))).
    intros x y. destruct (String.leb_total (modified_key x) (modified_key y)); auto.
Qed.

(** ** list_directory *)

Lemma quiet_refl l : quiet l l.
Proof. exists []. split; [now rewrite app_nil_r | constructor]. Qed.

Lemma quiet_snoc l l' c :
  opens_file c = false -> quiet l l' -> quiet l (l' ++ [c])%list.
Proof.
  intros Hc (extra & -> & Hq). exists (extra ++ [c])%list. split.
  - now rewrite app_assoc.
  - apply Forall_app. split; [exact Hq | now repeat constructor].
Qed.

Lemma quiet_trans l1 l2 l3 : quiet l1 l2 -> quiet l2 l3 -> quiet l1 l3.
Proof.
  intros (e1 & -> & H1) (e2 & -> & H2). exists (e1 ++ e2)%list. split.
  - now rewrite app_assoc.
  - apply Forall_app. now split.
Qed.

Ltac quiet_steps :=
  repeat (apply quiet_snoc; [reflexivity|]); apply quiet_refl.

Lemma get_safe_path_quiet w p l safe l1 :
  get_safe_path w p l = (inr safe, l1) -> quiet l l1.
Proof.
  unfold get_safe_path. destruct (p =? "").
  - intros H. inversion H. apply quiet_refl.
  - unfold_monad.
    destruct (is_prefix (project_root w) (fs_resolve w (raw_segments w p)));
      intros H; inversion H. quiet_steps.
Qed.

Lemma strip_prefix_of_prefix r : forall p,
  is_prefix r p = true -> exists q, strip_prefix r p = Some q.
Proof.
  induction r as [|a r IH]; intros p H; simpl in *; [eauto|].
  destruct p as [|b p]; [discriminate|].
  apply andb_true_iff in H. destruct H as [Hab Hp].
  rewrite Hab. now apply IH.
Qed.

Lemma relative_to_in_parents r p :
  in_parents r p = true -> exists s, relative_to p r = inr s.
Proof.
  unfold in_parents. intros H. apply andb_true_iff in H. destruct H as [H _].
  destruct (strip_prefix_of_prefix r p H) as [q Hq].
  unfold relative_to. rewrite Hq. destruct q; eauto.
Qed.

Ltac break_match :=
  match goal with
  | |- context [match ?x with _ => _ end] =>
      lazymatch x with
      | context [match _ with _ => _ end] => fail
      | _ => destruct x eqn:?
      end
  end.

(** One round of the loop, however it ends: it opens nothing, and a file it
    lists has no line count. *)
Lemma list_round_sound w exts item l res l' :
  try_except (list_item w exts item) is_OSError (fun _ => ret LSkip) l
  = (res, l') ->
  quiet l l' /\ (forall e, res = inr (LFile e) -> fi_line_count e = None).
Proof.
  unfold list_item. unfold_queries. unfold_monad.
  repeat break_match;
    intros H; inversion H; subst;
    (split; [quiet_steps | intros ? He; inversion He; reflexivity]).
Qed.

(** One round of the loop where the child's faults are OS errors: the
    inner handler takes them all. *)
Lemma list_round_returns w exts item l :
  faults_are_os w item = true ->
  exists res l',
    try_except (list_item w exts item) is_OSError (fun _ => ret LSkip) l
    = (inr res, l').
Proof.
  unfold faults_are_os. intros H.
  apply andb_true_iff in H. destruct H as [H Hts].
  apply andb_true_iff in H. destruct H as [Hdir Hstat].
  unfold list_item. unfold_queries. unfold_monad.
  destruct (fs_is_dir w item) as [e|d]; simpl in Hdir.
  { rewrite Hdir. eauto. }
  destruct d; [eauto|].
  destruct (given exts && negb (any_ext_in exts (lower (suffix item))));
    [eauto|].
  destruct (fs_stat w item) as [e|st]; simpl in Hstat.
  { rewrite Hstat. eauto. }
  destruct (in_parents (project_root w) item) eqn:Hpar.
  - destruct (relative_to_in_parents _ _ Hpar) as [s ->]. cbn.
    destruct (fromtimestamp_isoformat w (st_mtime st)) as [e|t]; simpl in Hts.
    + rewrite Hts. eauto.
    + eauto.
  - cbn.
    destruct (fromtimestamp_isoformat w (st_mtime st)) as [e|t]; simpl in Hts.
    + rewrite Hts. eauto.
    + eauto.
Qed.

Lemma list_loop_sound w exts items :
  forall files subdirectories l files' subdirectories' l',
    list_loop w exts items files subdirectories l
    = (inr (files', subdirectories'), l') ->
    (Forall no_line_count files -> Forall no_line_count files') /\
    quiet l l'.
Proof.
  induction items as [|item rest IH];
    intros files subdirectories l files' subdirectories' l' Hrun.
  - inversion Hrun; subst. split; [auto | apply quiet_refl].
  - cbn [list_loop] in Hrun. inv_bind Hrun.
    apply list_round_sound in Hm. destruct Hm as [Hq Hlc].
    destruct a as [n|e|]; apply IH in Hrun; destruct Hrun as [Hkeep Hq'];
      (split; [|now apply (quiet_trans l l0 l')]).
    + exact Hkeep.
    + intros Hfiles. apply Hkeep. apply Forall_app. split; [exact Hfiles|].
      repeat constructor. now apply Hlc.
    + exact Hkeep.
Qed.

Lemma list_loop_runs w exts items :
  Forall (fun item => faults_are_os w item = true) items ->
  forall files subdirectories l,
  exists result l',
    list_loop w exts items files subdirectories l = (inr result, l').
Proof.
  induction 1 as [|item rest Hitem _ IH]; intros files subdirectories l.
  - eexists _, _. reflexivity.
  - destruct (list_round_returns w exts item l Hitem) as (res & l1 & Hround).
    cbn [list_loop]. rewrite (bind_inr _ _ _ _ _ Hround).
    destruct res; apply IH.
Qed.

Lemma relative_or_absolute_log w p l s l' :
  relative_or_absolute w p l = (inr s, l') -> l' = l.
Proof.
  destruct (relative_or_absolute_total w p l) as [s' H]. rewrite H.
  intros Heq. now inversion Heq.
Qed.

Lemma call_quiet {A} c (r : result A) l a l' :
  opens_file c = false -> call c r l = (inr a, l') -> quiet l l'.
Proof.
  unfold call. intros Hc H. inversion H; subst. now apply quiet_snoc, quiet_refl.
Qed.

Lemma list_directory_body_sound w exts p l r l' :
  list_directory_body w exts p l = (inr r, l') ->
  listing_in_order r /\ quiet l l'.
Proof.
  unfold list_directory_body, exists_, is_dir, iterdir. intros H.
  repeat match goal with
         | H : bind _ _ _ = (inr _, _) |- _ =>
             apply bind_inv in H; destruct H as (? & ? & ? & H)
         | H : get_safe_path _ _ _ = (inr _, _) |- _ =>
             apply get_safe_path_quiet in H
         | H : call _ _ _ = (inr _, _) |- _ =>
             apply call_quiet in H; [|reflexivity]
         | H : raise_if _ _ _ = (inr ?u, _) |- _ =>
             destruct u; apply raise_if_inv in H; destruct H as [_ ->]
         | H : relative_or_absolute _ _ _ = (inr _, _) |- _ =>
             apply relative_or_absolute_log in H; subst
         | H : list_loop _ _ _ _ _ _ = (inr ?fs, _) |- _ =>
             destruct fs as [files subs]; apply list_loop_sound in H;
             destruct H as [Hkeep Hq]
         | H : ret _ _ = (inr _, _) |- _ => inversion H; subst; clear H
         end.
  split.
  - unfold listing_in_order.
    cbn [lr_files lr_subdirectories lr_total_files lr_total_directories fst snd].
    repeat split.
    + unfold sort_asc, by_name.
      apply (sort_by_sorted (fun x y => String.leb (fi_name x) (fi_name y))).
      intros; apply String.leb_total.
    + unfold sort_asc, ascending.
      apply (sort_by_sorted (fun x y => String.leb x y)).
      intros; apply String.leb_total.
    + unfold sort_asc. apply sort_by_Forall. apply Hkeep. constructor.
  - eauto 10 using quiet_trans.
Qed.

(** C5: whenever [list_directory] succeeds, its files are in ascending
    order of name, its subdirectory names in ascending order, the two
    totals are the lengths of the two lists, every file has [line_count]
    unset, and no call of the run opens a file.  And it does succeed for a
    directory that exists and whose children fail their queries, if at all,
    with OS errors. *)
Theorem list_sorted_and_counted w exts p l :
  (forall r l',
      list_directory w exts p l = (DList r, l') ->
      listing_in_order r /\ quiet l l') /\
  (forall safe l1 names,
      get_safe_path w p l = (inr safe, l1) ->
      fs_exists w safe = inr true ->
      fs_is_dir w safe = inr true ->
      fs_iterdir w safe = inr names ->
      forallb (fun n => faults_are_os w (child safe n)) names = true ->
      exists r l',
        list_directory w exts p l = (DList r, l') /\
        lr_path r = path_str safe).
Proof.
  split.
  - intros r l' Hrun. unfold list_directory, run_tool in Hrun.
    destruct (list_directory_body w exts p l) as [[e|r0] l0] eqn:Hbody;
      inversion Hrun; subst r0 l0.
    now apply (list_directory_body_sound w exts p).
  - intros safe l1 names Hsafe Hex Hdir Hiter Hfaults.
    assert (Forall (fun item => faults_are_os w item = true)
              (map (child safe) names)) as Hitems.
    { apply Forall_forall. intros item Hin. apply in_map_iff in Hin.
      destruct Hin as (n & <- & Hn).
      now apply (proj1 (forallb_forall _ names) Hfaults). }
    pose (l2 := (((l1 ++ [CExists safe]) ++ [CIsDir safe])
                   ++ [CIterdir safe])%list).
    destruct (list_loop_runs w exts _ Hitems [] [] l2) as (res & l' & Hloop).
    destruct (relative_or_absolute_total w safe
                ((l1 ++ [CExists safe]) ++ [CIsDir safe])%list) as [rel Hrel].
    eexists _, l'. split.
    + unfold list_directory, run_tool, list_directory_body.
      rewrite (bind_inr _ _ _ _ _ Hsafe).
      unfold exists_, is_dir, iterdir. rewrite Hex, Hdir, Hiter.
      cbv [bind call ret raise raise_if lift negb].
      rewrite Hrel. cbv beta iota. fold l2. rewrite Hloop. reflexivity.
    + reflexivity.
Qed.

Lemma list_sorted_and_counted_witness :
  exists r l',
    list_directory demo None "" [] = (DList r, l') /\
    lr_path r = "/srv/proj" /\
    listing_in_order r /\ quiet [] l'.
Proof.
  destruct (proj2 (list_sorted_and_counted demo None "" [])
              ["srv"; "proj"] []
              [ "notes.txt"; "a.txt"; "Makefile"; "logo.png"; "game.uproject";
                "sub"; "alpha"; "huge.txt" ]
              eq_refl eq_refl eq_refl eq_refl eq_refl)
    as (r & l' & Hrun & Hpath).
  exists r, l'. split; [exact Hrun|]. split; [exact Hpath|].
  exact (proj1 (list_sorted_and_counted demo None "" []) r l' Hrun).
Defined.

(** The spec's example: a directory with one file of ten bytes and one
    subdirectory. *)
Example list_one_file_one_subdirectory :
  let w := snapshot ["p"]
             [ dir_node ["p"];
               file_node ["p"; "a.txt"] 1 (list_byte_of_string "0123456789");
               dir_node ["p"; "sub"] ] in
  exists r l,
    list_directory w None "" [] = (DList r, l) /\
    map fi_name (lr_files r) = ["a.txt"] /\
    map fi_size (lr_files r) = [Some 10%Z] /\
    lr_subdirectories r = ["sub"] /\
    lr_total_files r = 1%Z /\ lr_total_directories r = 1%Z.
Proof.
  eexists _, _. split; [vm_compute; reflexivity|]. repeat split.
Qed.

(** ** read_file: text and binary content *)

Lemma size_within_limit s :
  (st_size s <= 10 * 1024 * 1024)%Z -> (st_size s >? MAX_FILE_SIZE)%Z = false.
Proof.
  intros H. unfold MAX_FILE_SIZE.
  destruct (st_size s >? 10 * 1024 * 1024)%Z eqn:E; [|reflexivity].
  apply Z.gtb_lt in E. lia.
Qed.

(** C7: for a file classified binary (neither its MIME type nor its
    extension says text) with bytes [C], within the size limit,
    [read_file] succeeds with [encoding = "base64"], [line_count = 0], and
    a content whose base64 decoding is [C]. *)
Theorem read_binary_roundtrip w p l safe l1 s C :
  get_safe_path w p l = (inr safe, l1) ->
  fs_exists w safe = inr true ->
  fs_is_file w safe = inr true ->
  fs_stat w safe = inr s ->
  (st_size s <= 10 * 1024 * 1024)%Z ->
  mime_is_text (guess_type w (path_str safe)) = false ->
  str_in (lower (suffix safe)) text_extensions = false ->
  fs_read w safe = inr C ->
  exists r l',
    read_file w p l = (DRead r, l') /\
    Base64.b64decode (rr_content r) = Some C /\
    rr_encoding r = "base64" /\
    rr_line_count r = 0%Z /\
    rr_is_text r = false.
Proof.
  intros Hsafe Hex Hfile Hstat Hsize Hmime Hext Hread.
  destruct (b64_content_roundtrip C) as (enc & Hdec & Hback).
  destruct (relative_or_absolute_total w safe
              ((((l1 ++ [CExists safe]) ++ [CIsFile safe]) ++ [CStat safe])
                 ++ [CStat safe])%list) as [rel Hrel].
  eexists _, _. split.
  - unfold read_file, run_tool, read_file_body.
    rewrite (bind_inr _ _ _ _ _ Hsafe).
    unfold exists_, is_file, stat. rewrite Hex, Hfile, Hstat.
    cbv [bind call ret raise raise_if lift negb].
    rewrite (size_within_limit s Hsize). rewrite Hrel. cbv beta iota.
    rewrite Hext, Hmime.
    unfold read_text, read_binary, open_read_binary.
    cbv [bind call ret raise raise_if lift negb is_text].
    rewrite Hread, Hdec. reflexivity.
  - cbn. auto.
Qed.

Lemma read_binary_roundtrip_witness :
  exists r l',
    read_file demo "logo.png" [] = (DRead r, l') /\
    Base64.b64decode (rr_content r) = Some [x89; x50; x4e; x47; x00] /\
    rr_encoding r = "base64" /\
    rr_line_count r = 0%Z /\
    rr_is_text r = false.
Proof.
  apply (read_binary_roundtrip demo "logo.png" [] ["srv"; "proj"; "logo.png"]
           [CResolve "logo.png"] (mk_stat 5 3));
    try reflexivity.
  discriminate.
Defined.

(** C6, as stated, fails: [a.txt] holds the bytes [ff 41], which are not
    valid UTF-8; [read_file] returns the text ["A"], the invalid byte
    dropped, where Latin-1 gives two characters; the file is opened once,
    as UTF-8, and the result is not base64. *)
Lemma invalid_utf8_read_without_latin1 :
  all_decoded (utf8_scan [xff; x41]) = false /\
  str_in (lower (suffix ["srv"; "proj"; "a.txt"])) text_extensions = true /\
  fs_read demo ["srv"; "proj"; "a.txt"] = inr [xff; x41] /\
  (exists r, answer (read_file demo "a.txt") = DRead r /\
             rr_encoding r = "text" /\ rr_content r = [65%N]) /\
  decode Latin1 Ignore [xff; x41] = inr [255%N; 65%N] /\
  ~ via_latin1_or_base64 ["srv"; "proj"; "a.txt"]
      (answer (read_file demo "a.txt")) (calls (read_file demo "a.txt")).
Proof.
  repeat split; try reflexivity.
  - eexists. split; [vm_compute; reflexivity|]. split; reflexivity.
  - vm_compute. intros [[_ H]|H]; [|discriminate].
    repeat (destruct H as [H|H]; [discriminate|]). exact H.
Qed.

(** C6, amended: a readable file within the size limit whose extension is
    in the text list is read as text whatever its bytes are: it is opened
    once, as UTF-8 with undecodable bytes dropped, the result has
    [encoding = "text"] and [is_text] set, and neither the Latin-1 retry nor
    the base64 path is entered. *)
Theorem read_text_extension_any_bytes w p l safe l1 s bs :
  get_safe_path w p l = (inr safe, l1) ->
  fs_exists w safe = inr true ->
  fs_is_file w safe = inr true ->
  fs_stat w safe = inr s ->
  (st_size s <= 10 * 1024 * 1024)%Z ->
  str_in (lower (suffix safe)) text_extensions = true ->
  fs_read w safe = inr bs ->
  exists r,
    read_file w p l =
    (DRead r, (l1 ++ [CExists safe; CIsFile safe; CStat safe; CStat safe;
                      COpenText safe Utf8])%list) /\
    rr_encoding r = "text" /\
    rr_is_text r = true /\
    rr_content r = utf8_text bs /\
    rr_line_count r =
      len (split_lines [] (translate_newlines (decoded_points (utf8_scan bs)))).
Proof.
  intros Hsafe Hex Hfile Hstat Hsize Hext Hread.
  destruct (relative_or_absolute_total w safe
              ((((l1 ++ [CExists safe]) ++ [CIsFile safe]) ++ [CStat safe])
                 ++ [CStat safe])%list) as [rel Hrel].
  eexists. split.
  - unfold read_file, run_tool, read_file_body.
    rewrite (bind_inr _ _ _ _ _ Hsafe).
    unfold exists_, is_file, stat. rewrite Hex, Hfile, Hstat.
    cbv [bind call ret raise raise_if lift negb].
    rewrite (size_within_limit s Hsize). rewrite Hrel. cbv beta iota.
    rewrite Hext.
    unfold read_text, read_binary, read_lines_into, open_readlines, decode.
    cbv [bind call ret raise raise_if lift negb is_text try_except].
    rewrite Hread. cbv beta iota. rewrite !app_one_assoc. reflexivity.
  - cbn. auto.
Qed.

Lemma read_text_extension_any_bytes_witness :
  exists r,
    read_file demo "a.txt" [] =
    (DRead r, [CResolve "a.txt"; CExists ["srv"; "proj"; "a.txt"];
               CIsFile ["srv"; "proj"; "a.txt"]; CStat ["srv"; "proj"; "a.txt"];
               CStat ["srv"; "proj"; "a.txt"];
               COpenText ["srv"; "proj"; "a.txt"] Utf8]) /\
    rr_encoding r = "text" /\
    rr_is_text r = true /\
    rr_content r = utf8_text [xff; x41] /\
    rr_line_count r =
      len (split_lines [] (translate_newlines
                             (decoded_points (utf8_scan [xff; x41])))).
Proof.
  apply (read_text_extension_any_bytes demo "a.txt" [] ["srv"; "proj"; "a.txt"]
           [CResolve "a.txt"] (mk_stat 2 7) [xff; x41]);
    try reflexivity.
  discriminate.
Defined.

(** ** The envelope *)

Ltac inv_binds H :=
  repeat (apply bind_inv in H; destruct H as (? & ? & ? & H)).

Lemma list_directory_body_fields w exts p l r l' :
  list_directory_body w exts p l = (inr r, l') ->
  lr_success r = true /\ lr_action r = "list" /\
  lr_timestamp r = now_isoformat w.
Proof.
  unfold list_directory_body. intros H. inv_binds H.
  inversion H; subst r. cbn. auto.
Qed.

Lemma read_file_body_fields w p l r l' :
  read_file_body w p l = (inr r, l') ->
  rr_success r = true /\ rr_action r = "read" /\
  rr_timestamp r = now_isoformat w.
Proof.
  unfold read_file_body. intros H. inv_binds H.
  inversion H; subst r. cbn. auto.
Qed.

Lemma search_files_body_fields w term exts recursive max_results p l r l' :
  search_files_body w term exts recursive max_results p l = (inr r, l') ->
  sr_success r = true /\ sr_action r = "search" /\
  sr_timestamp r = now_isoformat w.
Proof.
  unfold search_files_body. intros H. inv_binds H.
  inversion H; subst r. cbn. auto.
Qed.

Lemma get_file_info_body_fields w p l r l' :
  get_file_info_body w p l = (inr r, l') ->
  ir_success r = true /\ ir_action r = "info" /\
  ir_timestamp r = now_isoformat w.
Proof.
  unfold get_file_info_body. intros H. inv_binds H.
  inversion H; subst r. cbn. auto.
Qed.

(** C8: each of the four tools, on every input and every file system,
    returns an envelope: the success envelope of the tool when its body
    returns, and when the body raises an exception [e], the failure
    envelope with [success = false], [error = str(e)],
    [error_type = type(e).__name__] and the time stamp.  No exception is
    left to the caller. *)
Theorem tools_answer_with_envelopes w exts term recursive max_results p l :
  enveloped w "list" (list_directory_body w exts p)
            (list_directory w exts p) l /\
  enveloped w "read" (read_file_body w p) (read_file w p) l /\
  enveloped w "search"
            (search_files_body w term exts recursive max_results p)
            (search_files w term exts recursive max_results p) l /\
  enveloped w "info" (get_file_info_body w p) (get_file_info w p) l.
Proof.
  unfold enveloped, failure_envelope.
  unfold list_directory, read_file, search_files, get_file_info, run_tool.
  repeat split.
  - destruct (list_directory_body w exts p l) as [[e|r] l'] eqn:Hbody.
    + right. exists e. auto.
    + left. exists r. split; [reflexivity|].
      apply list_directory_body_fields in Hbody. cbn. tauto.
  - destruct (read_file_body w p l) as [[e|r] l'] eqn:Hbody.
    + right. exists e. auto.
    + left. exists r. split; [reflexivity|].
      apply read_file_body_fields in Hbody. cbn. tauto.
  - destruct (search_files_body w term exts recursive max_results p l)
      as [[e|r] l'] eqn:Hbody.
    + right. exists e. auto.
    + left. exists r. split; [reflexivity|].
      apply search_files_body_fields in Hbody. cbn. tauto.
  - destruct (get_file_info_body w p l) as [[e|r] l'] eqn:Hbody.
    + right. exists e. auto.
    + left. exists r. split; [reflexivity|].
      apply get_file_info_body_fields in Hbody. cbn. tauto.
Qed.

(** The spec's example: [get_file_info] on a directory. *)
Example info_on_directory :
  exists r l,
    get_file_info demo "sub" [] = (DInfo r, l) /\
    ir_type r = "directory" /\ ir_size r = None /\ ir_line_count r = None.
Proof. eexists _, _. split; [vm_compute; reflexivity|]. repeat split. Qed.

(** The spec's example: reading a missing file. *)
Example read_missing_file :
  answer (read_file demo "ghost.txt") =
  DError {| er_success := false;
            er_error := "File not found: /srv/proj/ghost.txt";
            er_error_type := "FileNotFoundError";
            er_timestamp := "2024-01-01T00:00:00" |}.
Proof. reflexivity. Qed.

(** ** search_files: the candidates *)

Lemma fnmatch_star s : fnmatch "*" s = true.
Proof. induction s as [|c s IH]; [reflexivity|]. cbn in *. now rewrite IH. Qed.

Lemma prefix_empty s : String.prefix "" s = true.
Proof. now destruct s. Qed.

(** The pattern [*.*] matches the names that hold a dot. *)
Lemma fnmatch_star_dot_star s : fnmatch "*.*" s = has_dot s.
Proof.
  unfold has_dot. induction s as [|c s IH]; [reflexivity|].
  change (fnmatch "*.*" (String c s))
    with ((Ascii.eqb "." c && fnmatch "*" s) || fnmatch "*.*" s).
  rewrite fnmatch_star, IH. cbn [contains String.prefix].
  destruct (Ascii.eqb_spec "." c) as [<-|Hne].
  - now rewrite prefix_empty.
  - destruct (ascii_dec "." c); [contradiction | reflexivity].
Qed.

Lemma name_child p n : name (child p n) = n.
Proof. unfold name, child. apply last_last. Qed.

Lemma glob_star_dot_star w safe l files l' :
  glob w safe "*.*" l = (inr files, l') ->
  Forall (fun q => has_dot (name q) = true) files.
Proof.
  unfold glob. intros H. inv_bind H. inversion H; subst. clear.
  apply Forall_forall. intros q Hq. apply in_map_iff in Hq.
  destruct Hq as (n & <- & Hn). apply filter_In in Hn.
  rewrite name_child, <- fnmatch_star_dot_star. tauto.
Qed.

Lemma rglob_star_dot_star w safe l files l' :
  rglob w safe "*.*" l = (inr files, l') ->
  Forall (fun q => has_dot (name q) = true) files.
Proof.
  unfold rglob. intros H. inv_bind H. inversion H; subst. clear.
  apply Forall_forall. intros q Hq. apply filter_In in Hq.
  rewrite <- fnmatch_star_dot_star. tauto.
Qed.

Lemma keep_files_subset w files :
  forall l kept l', keep_files w files l = (inr kept, l') ->
                    forall q, In q kept -> In q files.
Proof.
  induction files as [|f rest IH]; intros l kept l' H q Hq.
  - inversion H; subst. exact Hq.
  - cbn [keep_files] in H. inv_bind H. inv_bind H. inversion H; subst.
    destruct a.
    + destruct Hq as [<-|Hq]; [now left | right; eauto].
    + right; eauto.
Qed.

Lemma search_loop_names w max_results stl (P : string -> Prop) files :
  Forall (fun q => P (name q)) files ->
  forall matches l ms l',
    search_loop w max_results stl files matches l = (inr ms, l') ->
    Forall (fun e => P (fi_name e)) matches ->
    Forall (fun e => P (fi_name e)) ms.
Proof.
  induction 1 as [|f rest Hf _ IH]; intros matches l ms l' Hrun Hms.
  - inversion Hrun; subst. exact Hms.
  - cbn [search_loop] in Hrun. inv_bind Hrun.
    assert (Forall (fun e => P (fi_name e)) a) as Ha.
    { apply search_item_grows in Hm. destruct Hm as [->|(e & -> & He)].
      - exact Hms.
      - apply Forall_app. split; [exact Hms|]. repeat constructor.
        now rewrite He. }
    destruct (len a >=? max_results)%Z.
    + inversion Hrun; subst. exact Ha.
    + eapply IH; eassumption.
Qed.

Lemma call_inv {A} c (r : result A) l a l' :
  call c r l = (inr a, l') -> r = inr a.
Proof. unfold call. intros H. now inversion H. Qed.

(** C10: when the confined path is not a file, the candidates are those the
    pattern [*.*] selects, one level down or at any depth, so every entry a
    search returns has a dot in its name: a file with a dot-less name is
    not returned, whatever the term.  When the confined path is a file whose
    name holds the term, it is the one entry returned, dot or no dot (with
    no extension filter, and [stat] and the time stamp available). *)
Theorem search_candidates_by_pattern w term exts recursive max_results p l :
  (forall safe l1 r l',
      get_safe_path w p l = (inr safe, l1) ->
      fs_is_file w safe = inr false ->
      search_files w term exts recursive max_results p l = (DSearch r, l') ->
      Forall (fun e => has_dot (fi_name e) = true) (sr_files r)) /\
  (forall safe l1 st t,
      get_safe_path w p l = (inr safe, l1) ->
      term <> "" ->
      fs_exists w safe = inr true ->
      fs_is_file w safe = inr true ->
      given exts = false ->
      contains (lower term) (lower (name safe)) = true ->
      fs_stat w safe = inr st ->
      fromtimestamp_isoformat w (st_mtime st) = inr t ->
      exists r l' e,
        search_files w term exts recursive max_results p l = (DSearch r, l') /\
        sr_files r = [e] /\ fi_name e = name safe /\
        fi_path e = path_str safe).
Proof.
  split.
  - intros safe l1 r l' Hsafe Hfile Hrun.
    unfold search_files, run_tool in Hrun.
    destruct (search_files_body w term exts recursive max_results p l)
      as [[e|r0] l0] eqn:Hbody; inversion Hrun; subst r0 l0; clear Hrun.
    unfold search_files_body in Hbody.
    inv_bind Hbody. destruct a. apply raise_if_inv in Hm. destruct Hm as [_ ->].
    rewrite (bind_inr _ _ _ _ _ Hsafe) in Hbody.
    inv_bind Hbody. inv_bind Hbody. inv_bind Hbody.
    inv_bind Hbody. inv_bind Hbody. inv_bind Hbody.
    inversion Hbody; subst r; clear Hbody. cbn [sr_files].
    unfold is_file in Hm1. apply call_inv in Hm1. rewrite Hfile in Hm1.
    inversion Hm1; subst a1. clear Hm1.
    assert (Forall (fun q => has_dot (name q) = true) a2) as Hcand.
    { destruct recursive.
      - eapply rglob_star_dot_star; eassumption.
      - eapply glob_star_dot_star; eassumption. }
    assert (Forall (fun q => has_dot (name q) = true) a3) as Hkept.
    { apply Forall_forall. intros q Hq.
      apply (proj1 (Forall_forall _ a2) Hcand).
      eapply keep_files_subset; eassumption. }
    unfold sort_desc. apply sort_by_Forall.
    eapply (search_loop_names w max_results (lower term)
              (fun n => has_dot n = true)); [|eassumption|constructor].
    destruct (given exts); [|exact Hkept].
    apply Forall_forall. intros q Hq. apply filter_In in Hq.
    apply (proj1 (Forall_forall _ a3) Hkept). tauto.
  - intros safe l1 st t Hsafe Hterm Hex Hfile Hgiven Hmatch Hstat Hts.
    destruct (relative_or_absolute_total w safe
                ((((l1 ++ [CExists safe]) ++ [CIsFile safe]) ++ [CIsFile safe])
                   ++ [CStat safe])%list) as [rel Hrel].
    unfold search_files, run_tool, search_files_body.
    destruct (String.eqb_spec term "") as [->|_]; [congruence|].
    unfold raise_if at 1. rewrite (bind_inr _ _ l tt l) by reflexivity.
    rewrite (bind_inr _ _ _ _ _ Hsafe).
    unfold exists_, is_file. rewrite Hex, Hfile.
    cbv [bind call ret raise raise_if lift negb keep_files is_file].
    rewrite Hfile, Hgiven. cbv beta iota.
    unfold search_loop, search_item, stat. rewrite Hmatch, Hstat.
    cbv [bind call ret raise raise_if lift negb].
    rewrite Hrel. cbv beta iota. rewrite Hts.
    destruct (len _ >=? max_results)%Z;
      eexists _, _, _; (split; [reflexivity|]); cbn; auto.
Qed.

Lemma search_candidates_by_pattern_witness :
  (exists r l',
      search_files demo "make" None false 50 "" [] = (DSearch r, l') /\
      Forall (fun e => has_dot (fi_name e) = true) (sr_files r)) /\
  (exists r l' e,
      search_files demo "make" None false 50 "Makefile" [] = (DSearch r, l') /\
      sr_files r = [e] /\ fi_name e = "Makefile").
Proof.
  split.
  - eexists _, _. split; [vm_compute; reflexivity|].
    eapply (proj1 (search_candidates_by_pattern demo "make" None false 50 "" []));
      [reflexivity | reflexivity | vm_compute; reflexivity].
  - edestruct (proj2 (search_candidates_by_pattern demo "make" None false 50
                        "Makefile" []))
      as (r & l' & e & Hrun & Hfiles & Hname & _);
      [ vm_compute; reflexivity | discriminate | reflexivity | reflexivity
      | reflexivity | reflexivity | reflexivity | reflexivity | ].
    exists r, l', e. repeat split; assumption.
Defined.

(** The dot-less [Makefile] matches the term and is not found from the
    directory. *)
Example makefile_not_found_from_directory :
  exists r l,
    search_files demo "make" None false 50 "" [] = (DSearch r, l) /\
    sr_files r = [].
Proof. eexists _, _. split; [vm_compute; reflexivity | reflexivity]. Qed.

(** * Further properties of the file tools *)

(** ** Paths that are missing or of the wrong kind *)

(** X1: A confined path that does not exist: each tool answers
    [FileNotFoundError] ("File not found" for [read_file], "Path not found"
    for the others) after the one [exists] query, [search_files] provided
    its term is not empty. *)
Theorem missing_path_not_found w exts term recursive max_results p l safe l1 :
  get_safe_path w p l = (inr safe, l1) ->
  fs_exists w safe = inr false ->
  list_directory w exts p l =
    (failure w FileNotFoundError ("Path not found: " ++ path_str safe),
     (l1 ++ [CExists safe])%list) /\
  read_file w p l =
    (failure w FileNotFoundError ("File not found: " ++ path_str safe),
     (l1 ++ [CExists safe])%list) /\
  get_file_info w p l =
    (failure w FileNotFoundError ("Path not found: " ++ path_str safe),
     (l1 ++ [CExists safe])%list) /\
  (term <> "" ->
   search_files w term exts recursive max_results p l =
     (failure w FileNotFoundError ("Path not found: " ++ path_str safe),
      (l1 ++ [CExists safe])%list)).
Proof.
  intros Hsafe Hex. repeat split.
  - unfold list_directory, run_tool, list_directory_body.
    rewrite (bind_inr _ _ _ _ _ Hsafe). unfold exists_. rewrite Hex.
    reflexivity.
  - unfold read_file, run_tool, read_file_body.
    rewrite (bind_inr _ _ _ _ _ Hsafe). unfold exists_. rewrite Hex.
    reflexivity.
  - unfold get_file_info, run_tool, get_file_info_body.
    rewrite (bind_inr _ _ _ _ _ Hsafe). unfold exists_. rewrite Hex.
    reflexivity.
  - intros Hterm. unfold search_files, run_tool, search_files_body.
    destruct (String.eqb_spec term "") as [->|_]; [congruence|].
    unfold raise_if at 1. rewrite (bind_inr _ _ l tt l) by reflexivity.
    rewrite (bind_inr _ _ _ _ _ Hsafe). unfold exists_. rewrite Hex.
    reflexivity.
Qed.

Lemma missing_path_not_found_witness :
  read_file demo "ghost.txt" [] =
    (failure demo FileNotFoundError "File not found: /srv/proj/ghost.txt",
     [CResolve "ghost.txt"; CExists ["srv"; "proj"; "ghost.txt"]]) /\
  search_files demo "x" None true 50 "ghost.txt" [] =
    (failure demo FileNotFoundError "Path not found: /srv/proj/ghost.txt",
     [CResolve "ghost.txt"; CExists ["srv"; "proj"; "ghost.txt"]]).
Proof.
  destruct (missing_path_not_found demo None "x" true 50 "ghost.txt" []
              ["srv"; "proj"; "ghost.txt"] [CResolve "ghost.txt"]
              eq_refl eq_refl) as (_ & Hread & _ & Hsearch).
  split; [exact Hread | apply Hsearch; discriminate].
Defined.

(** X2: [list_directory] on a path that exists and is not a directory answers
    [NotADirectoryError] after [exists] and [is_dir]; nothing is
    enumerated. *)
Theorem list_rejects_non_directory w exts p l safe l1 :
  get_safe_path w p l = (inr safe, l1) ->
  fs_exists w safe = inr true ->
  fs_is_dir w safe = inr false ->
  list_directory w exts p l =
    (failure w NotADirectoryError
       ("Path is not a directory: " ++ path_str safe),
     (l1 ++ [CExists safe; CIsDir safe])%list).
Proof.
  intros Hsafe Hex Hdir.
  unfold list_directory, run_tool, list_directory_body.
  rewrite (bind_inr _ _ _ _ _ Hsafe). unfold exists_, is_dir.
  rewrite Hex, Hdir. cbv [bind call ret raise raise_if lift negb].
  rewrite app_one_assoc. reflexivity.
Qed.

Lemma list_rejects_non_directory_witness :
  list_directory demo None "notes.txt" [] =
    (failure demo NotADirectoryError
       "Path is not a directory: /srv/proj/notes.txt",
     [CResolve "notes.txt"; CExists ["srv"; "proj"; "notes.txt"];
      CIsDir ["srv"; "proj"; "notes.txt"]]).
Proof.
  apply (list_rejects_non_directory demo None "notes.txt" []
           ["srv"; "proj"; "notes.txt"] [CResolve "notes.txt"]);
    reflexivity.
Defined.

(** X3: [read_file] on a path that exists and is not a regular file (a
    directory, say) answers [ValueError] "Path is not a file" after
    [exists] and [is_file]; no [stat] is made and nothing is opened. *)
Theorem read_rejects_non_file w p l safe l1 :
  get_safe_path w p l = (inr safe, l1) ->
  fs_exists w safe = inr true ->
  fs_is_file w safe = inr false ->
  read_file w p l =
    (failure w ValueError ("Path is not a file: " ++ path_str safe),
     (l1 ++ [CExists safe; CIsFile safe])%list).
Proof.
  intros Hsafe Hex Hfile.
  unfold read_file, run_tool, read_file_body.
  rewrite (bind_inr _ _ _ _ _ Hsafe). unfold exists_, is_file.
  rewrite Hex, Hfile. cbv [bind call ret raise raise_if lift negb].
  rewrite app_one_assoc. reflexivity.
Qed.

Lemma read_rejects_non_file_witness :
  read_file demo "sub" [] =
    (failure demo ValueError "Path is not a file: /srv/proj/sub",
     [CResolve "sub"; CExists ["srv"; "proj"; "sub"];
      CIsFile ["srv"; "proj"; "sub"]]).
Proof.
  apply (read_rejects_non_file demo "sub" [] ["srv"; "proj"; "sub"]
           [CResolve "sub"]);
    reflexivity.
Defined.

(** ** What a listing holds *)

Lemma list_round_cases w exts item l res l' :
  try_except (list_item w exts item) is_OSError (fun _ => ret LSkip) l
  = (inr res, l') ->
  match res with
  | LDir n => n = name item /\ is_dir_true w item = true
  | LFile e => listable w exts item = true /\ describes w item e
  | LSkip => is_dir_true w item = false /\ listable w exts item = false
  end.
Proof.
  unfold list_item, is_dir_true, listable, passes_filter, stat_and_time_ok,
    describes.
  unfold_queries. unfold_monad.
  destruct (fs_is_dir w item) as [e|[|]].
  - destruct (is_OSError e); intros H; inversion H; subst. auto.
  - intros H; inversion H; subst. auto.
  - destruct (given exts && negb (any_ext_in exts (lower (suffix item))))
      eqn:Hskip.
    + intros H; inversion H; subst. split; [reflexivity|].
      apply andb_true_iff in Hskip. destruct Hskip as [-> Hany].
      apply negb_true_iff in Hany. rewrite Hany. reflexivity.
    + assert (negb (given exts)
              || any_ext_in exts (lower (suffix item)) = true) as Hpass.
      { destruct (given exts); cbn in *; [|reflexivity].
        now apply negb_false_iff in Hskip. }
      rewrite Hpass. cbn [andb].
      destruct (fs_stat w item) as [e1|st] eqn:Hstat.
      { destruct (is_OSError e1); intros H; inversion H; subst. auto. }
      destruct (in_parents (project_root w) item) eqn:Hpar.
      * destruct (relative_to_in_parents _ _ Hpar) as [rel ->]. cbn.
        destruct (fromtimestamp_isoformat w (st_mtime st)) as [e2|t] eqn:Hts.
        { destruct (is_OSError e2); intros H; inversion H; subst. auto. }
        intros H; inversion H; subst. split; [reflexivity|].
        exists st, t. cbn. repeat split; solve [reflexivity | assumption].
      * cbn.
        destruct (fromtimestamp_isoformat w (st_mtime st)) as [e2|t] eqn:Hts.
        { destruct (is_OSError e2); intros H; inversion H; subst. auto. }
        intros H; inversion H; subst. split; [reflexivity|].
        exists st, t. cbn. repeat split; solve [reflexivity | assumption].
Qed.

Lemma list_loop_spec w exts items :
  forall files subdirectories l files' subdirectories' l',
    list_loop w exts items files subdirectories l
    = (inr (files', subdirectories'), l') ->
    subdirectories' =
      (subdirectories ++ map name (filter (is_dir_true w) items))%list /\
    exists added,
      files' = (files ++ added)%list /\
      Forall2 (describes w) (filter (listable w exts) items) added.
Proof.
  induction items as [|item rest IH];
    intros files subdirectories l files' subdirectories' l' Hrun.
  - inversion Hrun; subst. cbn. rewrite app_nil_r. split; [reflexivity|].
    exists []. rewrite app_nil_r. split; [reflexivity | constructor].
  - cbn [list_loop] in Hrun. inv_bind Hrun.
    apply list_round_cases in Hm.
    cbn [filter].
    assert (listable w exts item = true -> is_dir_true w item = false) as Hex.
    { unfold listable, is_dir_true.
      destruct (fs_is_dir w item) as [?|[|]]; auto; discriminate. }
    destruct a as [n|e|]; apply IH in Hrun;
      destruct Hrun as (Hsubs & added & Hfiles & Hdesc).
    + destruct Hm as [-> Hdir]. rewrite Hdir.
      assert (listable w exts item = false) as ->.
      { destruct (listable w exts item) eqn:E; [|reflexivity].
        specialize (Hex eq_refl). congruence. }
      split.
      * rewrite Hsubs, <- app_assoc. reflexivity.
      * exists added. auto.
    + destruct Hm as [Hlist Hd]. rewrite Hlist, (Hex Hlist). split.
      * exact Hsubs.
      * exists (e :: added). split.
        -- rewrite Hfiles, <- app_assoc. reflexivity.
        -- now constructor.
    + destruct Hm as [Hdir Hlist]. rewrite Hdir, Hlist. split.
      * exact Hsubs.
      * exists added. auto.
Qed.

Lemma list_directory_inv w exts p l r l' :
  list_directory w exts p l = (DList r, l') ->
  exists safe l1 names files subdirectories l2 l3,
    get_safe_path w p l = (inr safe, l1) /\
    fs_exists w safe = inr true /\
    fs_is_dir w safe = inr true /\
    fs_iterdir w safe = inr names /\
    list_loop w exts (map (child safe) names) [] [] l2
    = (inr (files, subdirectories), l3) /\
    lr_path r = path_str safe /\
    lr_files r = sort_asc fi_name files /\
    lr_subdirectories r = sort_asc (fun n => n) subdirectories.
Proof.
  intros Hrun. unfold list_directory, run_tool in Hrun.
  destruct (list_directory_body w exts p l) as [[e|r0] l0] eqn:Hbody;
    inversion Hrun; subst r0 l0; clear Hrun.
  unfold list_directory_body, exists_, is_dir, iterdir in Hbody.
  inv_bind Hbody. inv_bind Hbody. inv_bind Hbody. inv_bind Hbody.
  inv_bind Hbody. inv_bind Hbody. inv_bind Hbody. inv_bind Hbody.
  inversion Hbody; subst r; clear Hbody. cbn.
  inv_bind Hm5. inversion Hm5; subst; clear Hm5.
  destruct a1. apply raise_if_inv in Hm1. destruct Hm1 as [Ha0 ->].
  destruct a3. apply raise_if_inv in Hm3. destruct Hm3 as [Ha2 ->].
  apply negb_false_iff in Ha0, Ha2. subst a0 a2.
  apply call_inv in Hm0, Hm2, Hm7.
  destruct a6 as [files subs].
  eexists a, _, a7, files, subs, _, _.
  repeat split; eauto.
Qed.

(** X4: The subdirectories of a successful listing are the names of the
    children for which [is_dir] answers yes, in ascending order; the
    extension filter plays no part. *)
Theorem subdirectories_are_directory_children w exts p l r l' safe l1 names :
  get_safe_path w p l = (inr safe, l1) ->
  fs_iterdir w safe = inr names ->
  list_directory w exts p l = (DList r, l') ->
  lr_subdirectories r =
    sort_asc (fun n => n)
      (filter (fun n => is_dir_true w (child safe n)) names).
Proof.
  intros Hsafe Hiter Hrun.
  destruct (list_directory_inv _ _ _ _ _ _ Hrun)
    as (safe' & l1' & names' & files & subs & l2 & l3 & Hsafe' & _ & _
        & Hiter' & Hloop & _ & _ & Hsubs).
  rewrite Hsafe in Hsafe'. inversion Hsafe'; subst safe' l1'.
  rewrite Hiter in Hiter'. inversion Hiter'; subst names'.
  apply list_loop_spec in Hloop. destruct Hloop as [-> _].
  rewrite Hsubs. cbn [app]. f_equal.
  clear. induction names as [|n names IH]; [reflexivity|].
  cbn [map filter]. destruct (is_dir_true w (child safe n)); cbn [map].
  - now rewrite name_child, IH.
  - exact IH.
Qed.

Lemma subdirectories_are_directory_children_witness :
  exists r l',
    list_directory demo (Some [".txt"]) "" [] = (DList r, l') /\
    lr_subdirectories r = ["alpha"; "sub"].
Proof.
  eexists _, _. split; [vm_compute; reflexivity|].
  erewrite (subdirectories_are_directory_children demo (Some [".txt"]) "" []);
    [| reflexivity | reflexivity | vm_compute; reflexivity].
  reflexivity.
Defined.

Lemma list_files_spec w exts p l r l' safe l1 names :
  get_safe_path w p l = (inr safe, l1) ->
  fs_iterdir w safe = inr names ->
  list_directory w exts p l = (DList r, l') ->
  exists entries,
    Forall2 (describes w)
      (filter (listable w exts) (map (child safe) names)) entries /\
    lr_files r = sort_asc fi_name entries.
Proof.
  intros Hsafe Hiter Hrun.
  destruct (list_directory_inv _ _ _ _ _ _ Hrun)
    as (safe' & l1' & names' & files & subs & l2 & l3 & Hsafe' & _ & _
        & Hiter' & Hloop & _ & Hfiles & _).
  rewrite Hsafe in Hsafe'. inversion Hsafe'; subst safe' l1'.
  rewrite Hiter in Hiter'. inversion Hiter'; subst names'.
  apply list_loop_spec in Hloop.
  destruct Hloop as (_ & added & -> & Hdesc).
  exists added. split; [exact Hdesc | exact Hfiles].
Qed.

(** X5: The files of a successful listing are, in ascending order of name, one
    entry for each child that is not a directory, passes the extension
    filter, and whose [stat] and time stamp succeed; the entry has the
    child's name, path, size, time stamp, MIME type and lower-case
    extension, type ["file"] and no line count.  A child whose query fails
    with an OS error has no entry. *)
Theorem files_are_listable_children w exts p l r l' safe l1 names :
  get_safe_path w p l = (inr safe, l1) ->
  fs_iterdir w safe = inr names ->
  list_directory w exts p l = (DList r, l') ->
  exists entries,
    Forall2 (describes w)
      (filter (listable w exts) (map (child safe) names)) entries /\
    lr_files r = sort_asc fi_name entries.
Proof. apply list_files_spec. Qed.

Lemma files_are_listable_children_witness :
  exists r l' entries,
    list_directory demo (Some [".TXT"]) "" [] = (DList r, l') /\
    Forall2 (describes demo)
      [ ["srv"; "proj"; "notes.txt"]; ["srv"; "proj"; "a.txt"];
        ["srv"; "proj"; "huge.txt"] ] entries /\
    lr_files r = sort_asc fi_name entries.
Proof.
  eexists _, _.
  edestruct (files_are_listable_children demo (Some [".TXT"]) "" [])
    as (entries & Hdesc & Hfiles);
    [reflexivity | reflexivity | vm_compute; reflexivity |].
  exists entries. split; [vm_compute; reflexivity|].
  split; [exact Hdesc | exact Hfiles].
Defined.

(** ** The extension filter *)

Lemma bind_ext {A B} (m : M A) (f g : A -> M B) l :
  (forall a l1, f a l1 = g a l1) -> bind m f l = bind m g l.
Proof. intros H. unfold bind. destruct (m l) as [[e|a] l1]; auto. Qed.

Lemma skip_test_is_passes exts item :
  given exts && negb (any_ext_in exts (lower (suffix item)))
  = negb (passes_filter exts item).
Proof.
  unfold passes_filter.
  destruct (given exts), (any_ext_in exts (lower (suffix item))); reflexivity.
Qed.

Lemma filter_test_is_passes exts (files : list path) :
  (if given exts
   then filter (fun f => any_ext_in exts (lower (suffix f))) files
   else files)
  = filter (passes_filter exts) files.
Proof.
  unfold passes_filter. destruct (given exts); cbn [negb orb].
  - reflexivity.
  - induction files as [|f files IH]; [reflexivity|]. cbn. now rewrite <- IH.
Qed.

Section SameFilter.
Variable w : World.
Variables e1 e2 : option (list string).
Hypothesis same : forall item, passes_filter e1 item = passes_filter e2 item.

Lemma list_item_same item l : list_item w e1 item l = list_item w e2 item l.
Proof.
  unfold list_item. apply bind_ext. intros d l1.
  rewrite !skip_test_is_passes, same. reflexivity.
Qed.

Lemma list_loop_same items :
  forall files subdirectories l,
    list_loop w e1 items files subdirectories l
    = list_loop w e2 items files subdirectories l.
Proof.
  induction items as [|item rest IH]; intros files subdirectories l;
    [reflexivity|].
  cbn [list_loop]. unfold bind, try_except. rewrite list_item_same.
  destruct (list_item w e2 item l) as [[e|[n|fe|]] l1]; auto.
  destruct (is_OSError e); auto. cbn. apply IH.
Qed.

Lemma list_directory_same p l :
  list_directory w e1 p l = list_directory w e2 p l.
Proof.
  unfold list_directory, run_tool, list_directory_body.
  assert (forall (m1 m2 : M ListResult), m1 l = m2 l ->
            (let (r, l') := m1 l in
             match r with
             | inl e => (DError (error_result w e), l')
             | inr r0 => (DList r0, l')
             end) =
            (let (r, l') := m2 l in
             match r with
             | inl e => (DError (error_result w e), l')
             | inr r0 => (DList r0, l')
             end)) as Hwrap by (intros m1 m2 ->; reflexivity).
  apply Hwrap. clear Hwrap.
  repeat (apply bind_ext; intros).
  unfold bind. rewrite list_loop_same. reflexivity.
Qed.

Lemma search_files_same term recursive max_results p l :
  search_files w term e1 recursive max_results p l
  = search_files w term e2 recursive max_results p l.
Proof.
  unfold search_files, run_tool, search_files_body.
  assert (forall (m1 m2 : M SearchResult), m1 l = m2 l ->
            (let (r, l') := m1 l in
             match r with
             | inl e => (DError (error_result w e), l')
             | inr r0 => (DSearch r0, l')
             end) =
            (let (r, l') := m2 l in
             match r with
             | inl e => (DError (error_result w e), l')
             | inr r0 => (DSearch r0, l')
             end)) as Hwrap by (intros m1 m2 ->; reflexivity).
  apply Hwrap. clear Hwrap.
  repeat (apply bind_ext; intros).
  rewrite !filter_test_is_passes.
  rewrite (filter_ext _ _ same). reflexivity.
Qed.
End SameFilter.

Lemma contains_empty s : contains "" s = true.
Proof. destruct s; reflexivity. Qed.

Lemma lower_ascii_idem c : lower_ascii (lower_ascii c) = lower_ascii c.
Proof.
  destruct c as [b0 b1 b2 b3 b4 b5 b6 b7].
  destruct b0, b1, b2, b3, b4, b5, b6, b7; reflexivity.
Qed.

Lemma lower_idem s : lower (lower s) = lower s.
Proof.
  induction s as [|c s IH]; [reflexivity|].
  cbn [lower]. now rewrite lower_ascii_idem, IH.
Qed.

Lemma filters_nothing_passes exts item :
  filters_nothing exts -> passes_filter exts item = true.
Proof.
  unfold filters_nothing, passes_filter. intros [->|Hin]; [reflexivity|].
  apply orb_true_iff. right. unfold any_ext_in.
  apply existsb_exists. exists "". split; [exact Hin | apply contains_empty].
Qed.

(** X6: A filter argument that is an empty list, or that holds the empty
    string, filters nothing: [list_directory] and [search_files] answer as
    they do without a filter. *)
Theorem filter_without_effect w exts term recursive max_results p l :
  filters_nothing exts ->
  list_directory w exts p l = list_directory w None p l /\
  search_files w term exts recursive max_results p l
  = search_files w term None recursive max_results p l.
Proof.
  intros H. split.
  - apply list_directory_same. intros item.
    now rewrite (filters_nothing_passes exts item H).
  - apply search_files_same. intros item.
    now rewrite (filters_nothing_passes exts item H).
Qed.

Lemma filter_without_effect_witness :
  list_directory demo (Some [".png"; ""]) "" []
  = list_directory demo None "" [] /\
  search_files demo "a" (Some []) true 50 "" []
  = search_files demo "a" None true 50 "" [].
Proof.
  split.
  - apply (filter_without_effect demo (Some [".png"; ""]) "a" true 50 "" []).
    right. cbn. auto.
  - apply (filter_without_effect demo (Some []) "a" true 50 "" []).
    left. reflexivity.
Defined.

(** X7: The extension filter ignores the case of its strings: a filter and its
    lower-case form give the same answers. *)
Theorem filter_ignores_case w exts term recursive max_results p l :
  list_directory w (Some exts) p l
  = list_directory w (Some (map lower exts)) p l /\
  search_files w term (Some exts) recursive max_results p l
  = search_files w term (Some (map lower exts)) recursive max_results p l.
Proof.
  assert (forall item,
             passes_filter (Some exts) item
             = passes_filter (Some (map lower exts)) item) as Hsame.
  { intros item. unfold passes_filter, any_ext_in, given, extensions.
    f_equal.
    - now destruct exts.
    - induction exts as [|ext exts IH]; [reflexivity|].
      cbn [map existsb]. now rewrite lower_idem, IH. }
  split.
  - now apply list_directory_same.
  - now apply search_files_same.
Qed.

Lemma insert_by_in_inv {A} (le : A -> A -> bool) x l y :
  y = x \/ In y l -> In y (insert_by le x l).
Proof.
  induction l as [|z l IH]; cbn.
  - intros [H|[]]; auto.
  - destruct (le x z); cbn; intros [H|[H|H]]; auto.
Qed.

Lemma sort_by_in_iff {A} (le : A -> A -> bool) l y :
  In y (sort_by le l) <-> In y l.
Proof.
  split; [apply sort_by_in|].
  induction l as [|x l IH]; cbn; [auto|].
  intros [H|H]; apply insert_by_in_inv; auto.
Qed.

Lemma describes_names w items entries :
  Forall2 (describes w) items entries ->
  map fi_name entries = map name items.
Proof.
  induction 1 as [|item e items entries Hd _ IH]; [reflexivity|].
  destruct Hd as (st & t & _ & _ & Hname & _). cbn. now rewrite Hname, IH.
Qed.

(** The file names of a successful listing are the names of the listable
    children. *)
Lemma listed_names w exts p l r l' safe l1 names n :
  get_safe_path w p l = (inr safe, l1) ->
  fs_iterdir w safe = inr names ->
  list_directory w exts p l = (DList r, l') ->
  In n (file_names r) <->
  In n names /\ listable w exts (child safe n) = true.
Proof.
  intros Hsafe Hiter Hrun.
  destruct (list_files_spec _ _ _ _ _ _ _ _ _ Hsafe Hiter Hrun)
    as (entries & Hdesc & Hfiles).
  apply describes_names in Hdesc. unfold file_names. rewrite Hfiles.
  unfold sort_asc. split.
  - intros Hin. apply in_map_iff in Hin. destruct Hin as (e & <- & He).
    apply sort_by_in in He.
    assert (In (fi_name e) (map fi_name entries)) as Hn
        by (apply in_map; exact He).
    rewrite Hdesc in Hn. apply in_map_iff in Hn.
    destruct Hn as (item & Hname & Hitem). apply filter_In in Hitem.
    destruct Hitem as [Hitem Hl]. apply in_map_iff in Hitem.
    destruct Hitem as (n' & <- & Hn'). rewrite name_child in Hname.
    subst n'. auto.
  - intros [Hn Hl].
    assert (In n (map fi_name entries)) as Hin.
    { rewrite Hdesc. apply in_map_iff. exists (child safe n).
      split; [apply name_child|]. apply filter_In. split; [|exact Hl].
      now apply in_map. }
    apply in_map_iff in Hin. destruct Hin as (e & <- & He).
    apply in_map. now apply sort_by_in_iff.
Qed.

Lemma append_assoc_str (a b c : string) : (a ++ b) ++ c = a ++ (b ++ c).
Proof. induction a as [|x a IH]; cbn; [reflexivity | now rewrite IH]. Qed.

Lemma prefix_iff a : forall s,
  String.prefix a s = true <-> exists t, s = a ++ t.
Proof.
  induction a as [|x a IH]; intros s.
  - split; [intros _; now exists s | intros _; apply prefix_empty].
  - destruct s as [|y s]; cbn.
    + split; [discriminate | intros [t Ht]; discriminate].
    + destruct (ascii_dec x y) as [->|Hne].
      * rewrite IH. split; intros [t Ht]; exists t; [now rewrite Ht|].
        now inversion Ht.
      * split; [discriminate|]. intros [t Ht]. inversion Ht. congruence.
Qed.

(** [sub in s] holds when [s] is [sub] with something before and after. *)
Lemma contains_iff a s :
  contains a s = true <-> exists pre post, s = pre ++ a ++ post.
Proof.
  split.
  - induction s as [|c s IH]; cbn [contains]; intros H.
    + apply orb_true_iff in H. destruct H as [H|H]; [|discriminate].
      apply prefix_iff in H. destruct H as [t Ht]. now exists "", t.
    + apply orb_true_iff in H. destruct H as [H|H].
      * apply prefix_iff in H. destruct H as [t Ht]. now exists "", t.
      * destruct (IH H) as (pre & post & ->). now exists (String c pre), post.
  - intros (pre & post & ->). induction pre as [|c pre IH].
    + cbn [append].
      assert (String.prefix a (a ++ post) = true) as Hp
          by (apply prefix_iff; now exists post).
      destruct (a ++ post); cbn [contains]; rewrite Hp; reflexivity.
    + cbn [append contains]. rewrite IH. apply orb_true_r.
Qed.

Lemma contains_trans a b c :
  contains a b = true -> contains b c = true -> contains a c = true.
Proof.
  rewrite !contains_iff. intros (p1 & q1 & ->) (p2 & q2 & ->).
  exists (p2 ++ p1), (q1 ++ q2).
  now rewrite !append_assoc_str.
Qed.

Lemma shorter_filter_passes a b item :
  contains (lower a) (lower b) = true ->
  passes_filter (Some [b]) item = true ->
  passes_filter (Some [a]) item = true.
Proof.
  unfold passes_filter, any_ext_in. cbn. rewrite !orb_false_r.
  apply contains_trans.
Qed.

(** X8: The filter matches by substring: when the filter string [a] occurs in
    the filter string [b] (case ignored), every file listed under the
    filter [[b]] is listed under the filter [[a]]. *)
Theorem shorter_filter_lists_more w a b p l ra la rb lb :
  contains (lower a) (lower b) = true ->
  list_directory w (Some [a]) p l = (DList ra, la) ->
  list_directory w (Some [b]) p l = (DList rb, lb) ->
  forall n, In n (file_names rb) -> In n (file_names ra).
Proof.
  intros Hsub Ha Hb n Hn.
  destruct (list_directory_inv _ _ _ _ _ _ Ha)
    as (safe & l1 & names & _ & _ & _ & _ & Hsafe & _ & _ & Hiter & _).
  apply (listed_names _ _ _ _ _ _ _ _ _ n Hsafe Hiter Hb) in Hn.
  apply (listed_names _ _ _ _ _ _ _ _ _ n Hsafe Hiter Ha).
  destruct Hn as [Hin Hl]. split; [exact Hin|].
  unfold listable in *.
  destruct (fs_is_dir w (child safe n)) as [?|[|]]; try discriminate.
  apply andb_true_iff in Hl. destruct Hl as [Hp Hst].
  apply andb_true_iff. split; [|exact Hst].
  now apply (shorter_filter_passes a b).
Qed.

Lemma shorter_filter_lists_more_witness :
  exists ra la rb lb,
    list_directory demo (Some ["X"]) "" [] = (DList ra, la) /\
    list_directory demo (Some [".txt"]) "" [] = (DList rb, lb) /\
    file_names rb = ["a.txt"; "huge.txt"; "notes.txt"] /\
    (forall n, In n (file_names rb) -> In n (file_names ra)).
Proof.
  eexists _, _, _, _.
  split; [vm_compute; reflexivity|]. split; [vm_compute; reflexivity|].
  split; [reflexivity|].
  eapply (shorter_filter_lists_more demo "X" ".txt" "" []);
    vm_compute; reflexivity.
Defined.

(** ** What a search returns *)

Lemma keep_files_spec w files :
  forall l kept l',
    keep_files w files l = (inr kept, l') ->
    kept = filter (is_file_true w) files.
Proof.
  induction files as [|f rest IH]; intros l kept l' H.
  - now inversion H.
  - cbn [keep_files] in H. inv_bind H. inv_bind H. inversion H; subst.
    apply IH in Hm0. subst a0. unfold is_file in Hm. apply call_inv in Hm.
    cbn [filter]. unfold is_file_true. rewrite Hm. now destruct a.
Qed.

Lemma lift_inv {A} (r : result A) l a l' :
  lift r l = (inr a, l') -> r = inr a.
Proof. unfold lift. intros H. now inversion H. Qed.

Lemma search_item_cases w stl f matches l ms l' :
  search_item w stl f matches l = (inr ms, l') ->
  (contains stl (lower (name f)) = false /\ ms = matches) \/
  (contains stl (lower (name f)) = true /\
   exists e, ms = (matches ++ [e])%list /\ describes w f e).
Proof.
  unfold search_item. destruct (contains stl (lower (name f))).
  - intros H. right. split; [reflexivity|].
    inv_bind H. inv_bind H. inv_bind H. inversion H; subst.
    unfold stat in Hm. apply call_inv in Hm. apply lift_inv in Hm1.
    eexists. split; [reflexivity|]. exists a, a1. cbn.
    repeat split; solve [reflexivity | assumption].
  - intros H. inversion H. now left.
Qed.

(** The loop collects descriptions of the first matching files, up to the
    cap when the cap is not yet reached. *)
Lemma search_loop_spec w max_results stl files :
  forall acc l ms l',
    search_loop w max_results stl files acc l = (inr ms, l') ->
    exists n added,
      ms = (acc ++ added)%list /\
      Forall2 (describes w)
        (firstn n (filter (fun f => contains stl (lower (name f))) files))
        added /\
      ((len acc < max_results)%Z ->
       n = (Z.to_nat max_results - List.length acc)%nat).
Proof.
  induction files as [|f rest IH]; intros acc l ms l' Hrun.
  - inversion Hrun; subst.
    exists (Z.to_nat max_results - List.length ms)%nat, [].
    rewrite app_nil_r, firstn_nil. repeat split; constructor.
  - cbn [search_loop] in Hrun. inv_bind Hrun. cbn [filter].
    apply search_item_cases in Hm.
    destruct Hm as [[Hno ->]|[Hyes (e & -> & Hdesc)]].
    + rewrite Hno.
      destruct (len acc >=? max_results)%Z eqn:Hcap.
      * inversion Hrun; subst. exists 0%nat, [].
        rewrite app_nil_r. repeat split; [constructor|].
        intros Hlt. rewrite Z.geb_leb in Hcap. apply Z.leb_le in Hcap. lia.
      * apply IH in Hrun. exact Hrun.
    + rewrite Hyes.
      destruct (len (acc ++ [e]) >=? max_results)%Z eqn:Hcap.
      * inversion Hrun; subst. exists 1%nat, [e]. repeat split.
        -- cbn. constructor; [exact Hdesc | constructor].
        -- intros Hlt. rewrite Z.geb_leb in Hcap. apply Z.leb_le in Hcap.
           unfold len in *. rewrite length_app in Hcap. cbn in Hcap. lia.
      * apply IH in Hrun. destruct Hrun as (n & added & -> & Hall & Hn).
        exists (S n), (e :: added). repeat split.
        -- now rewrite <- app_assoc.
        -- cbn. now constructor.
        -- intros Hlt. rewrite Z.geb_leb in Hcap. apply Z.leb_gt in Hcap.
           specialize (Hn Hcap). unfold len in *.
           rewrite length_app in *. cbn in *. lia.
Qed.

Lemma search_files_inv_full w term exts recursive max_results p l r l' :
  search_files w term exts recursive max_results p l = (DSearch r, l') ->
  exists safe l1 l2 l3 matches,
    term <> "" /\
    get_safe_path w p l = (inr safe, l1) /\
    fs_exists w safe = inr true /\
    search_loop w max_results (lower term)
      (filter (passes_filter exts)
         (filter (is_file_true w) (search_candidates w safe recursive)))
      [] l2 = (inr matches, l3) /\
    sr_files r = sort_desc modified_key matches /\
    sr_total_matches r = len (sr_files r) /\
    sr_search_term r = term /\ sr_max_results r = max_results /\
    sr_recursive r = recursive /\ sr_path r = path_str safe.
Proof.
  intros Hrun. unfold search_files, run_tool in Hrun.
  destruct (search_files_body w term exts recursive max_results p l)
    as [[e|r0] l0] eqn:Hbody; inversion Hrun; subst r0 l0; clear Hrun.
  unfold search_files_body in Hbody.
  inv_bind Hbody. destruct a. apply raise_if_inv in Hm.
  destruct Hm as [Hterm ->].
  inv_bind Hbody. inv_bind Hbody. inv_bind Hbody.
  destruct a1. apply raise_if_inv in Hm1. destruct Hm1 as [Hex ->].
  apply negb_false_iff in Hex. subst a0.
  unfold exists_ in Hm0. apply call_inv in Hm0.
  inv_bind Hbody. inv_bind Hbody. inv_bind Hbody. inv_bind Hbody.
  inversion Hbody; subst r; clear Hbody. cbn.
  unfold is_file in Hm1. apply call_inv in Hm1.
  apply keep_files_spec in Hm3. subst a2.
  rewrite filter_test_is_passes in Hm4.
  assert (a1 = search_candidates w a recursive) as ->.
  { unfold search_candidates. rewrite Hm1. destruct a0.
    - now inversion Hm2.
    - destruct recursive.
      + unfold rglob in Hm2. inv_bind Hm2.
        match goal with
        | H : call _ _ _ = _ |- _ => apply call_inv in H; rewrite H
        end.
        inversion Hm2; subst.
        apply filter_ext. intros q. apply fnmatch_star_dot_star.
      + unfold glob in Hm2. inv_bind Hm2.
        match goal with
        | H : call _ _ _ = _ |- _ => apply call_inv in H; rewrite H
        end.
        inversion Hm2; subst. f_equal.
        apply filter_ext. intros q. apply fnmatch_star_dot_star. }
  subst l5. exists a, l0, l4, l', a3.
  split; [now apply String.eqb_neq|].
  repeat split; auto.
Qed.

Lemma search_entries_spec w term exts recursive max_results p l r l' safe l1 :
  get_safe_path w p l = (inr safe, l1) ->
  search_files w term exts recursive max_results p l = (DSearch r, l') ->
  exists n entries,
    Forall2 (describes w)
      (firstn n (search_matches w term exts safe recursive)) entries /\
    sr_files r = sort_desc modified_key entries /\
    ((1 <= max_results)%Z -> n = Z.to_nat max_results).
Proof.
  intros Hsafe Hrun.
  destruct (search_files_inv_full _ _ _ _ _ _ _ _ _ Hrun)
    as (safe' & l1' & l2 & l3 & matches & _ & Hsafe' & _ & Hloop & Hfiles & _).
  rewrite Hsafe in Hsafe'. inversion Hsafe'; subst safe' l1'.
  apply search_loop_spec in Hloop.
  destruct Hloop as (n & added & -> & Hall & Hn).
  exists n, added. repeat split; [exact Hall | exact Hfiles |].
  intros Hmax. rewrite Hn; [cbn; lia | cbn; lia].
Qed.

(** X9: A successful search returns, newest first, descriptions of the matching
    candidates taken in enumeration order: the candidates are the confined
    path itself when it is a file, else the dotted names below it; a match
    is a regular file that passes the extension filter and holds the term
    in its name, case ignored.  With [max_results >= 1] exactly the first
    [max_results] matches are taken, whatever their time stamps. *)
Theorem search_returns_first_matches
        w term exts recursive max_results p l r l' safe l1 :
  get_safe_path w p l = (inr safe, l1) ->
  search_files w term exts recursive max_results p l = (DSearch r, l') ->
  exists n entries,
    Forall2 (describes w)
      (firstn n (search_matches w term exts safe recursive)) entries /\
    sr_files r = sort_desc modified_key entries /\
    ((1 <= max_results)%Z -> n = Z.to_nat max_results).
Proof. apply search_entries_spec. Qed.

Lemma search_returns_first_matches_witness :
  exists r l' entries,
    search_files demo "T" None true 2 "" [] = (DSearch r, l') /\
    Forall2 (describes demo)
      [ ["srv"; "proj"; "notes.txt"]; ["srv"; "proj"; "a.txt"] ] entries /\
    sr_files r = sort_desc modified_key entries /\
    search_matches demo "T" None ["srv"; "proj"] true =
      [ ["srv"; "proj"; "notes.txt"]; ["srv"; "proj"; "a.txt"];
        ["srv"; "proj"; "game.uproject"]; ["srv"; "proj"; "huge.txt"] ].
Proof.
  edestruct (search_returns_first_matches demo "T" None true 2 "" [])
    as (n & entries & Hdesc & Hfiles & Hn);
    [reflexivity | vm_compute; reflexivity |].
  rewrite (Hn ltac:(lia)) in Hdesc.
  eexists _, _, entries. split; [vm_compute; reflexivity|].
  split; [exact Hdesc|]. split; [exact Hfiles | reflexivity].
Defined.

Lemma Forall2_in_right {A B} (R : A -> B -> Prop) xs ys y :
  Forall2 R xs ys -> In y ys -> exists x, In x xs /\ R x y.
Proof.
  induction 1 as [|x0 y0 xs ys Hxy _ IH]; intros Hin; [contradiction|].
  destruct Hin as [<-|Hin].
  - exists x0. split; [now left | exact Hxy].
  - destruct (IH Hin) as (x & Hx & HR). exists x. split; [now right | exact HR].
Qed.

Lemma in_firstn {A} n (l : list A) x : In x (firstn n l) -> In x l.
Proof.
  revert l. induction n as [|n IH]; intros l H; [contradiction|].
  destruct l as [|y l]; [contradiction|].
  destruct H as [<-|H]; [now left | right; now apply IH].
Qed.

(** Each returned entry describes one of the matches. *)
Lemma search_entry_origin w term exts recursive max_results p l r l' safe l1 e :
  get_safe_path w p l = (inr safe, l1) ->
  search_files w term exts recursive max_results p l = (DSearch r, l') ->
  In e (sr_files r) ->
  exists f, In f (search_matches w term exts safe recursive) /\ describes w f e.
Proof.
  intros Hsafe Hrun He.
  destruct (search_entries_spec _ _ _ _ _ _ _ _ _ _ _ Hsafe Hrun)
    as (n & entries & Hdesc & Hfiles & _).
  rewrite Hfiles in He. unfold sort_desc in He. apply sort_by_in in He.
  destruct (Forall2_in_right _ _ _ _ Hdesc He) as (f & Hf & Hd).
  exists f. split; [now apply (in_firstn n) | exact Hd].
Qed.

(** Every entry of a search answer carries a time stamp: the key the
    sort uses is never the empty string of a missing [modified_time]. *)
Lemma search_entries_dated w term exts recursive max_results p l r l' :
  search_files w term exts recursive max_results p l = (DSearch r, l') ->
  Forall (fun e => fi_modified_time e <> None) (sr_files r).
Proof.
  intros Hrun.
  destruct (search_files_inv_full _ _ _ _ _ _ _ _ _ Hrun)
    as (safe & l1 & l2 & l3 & matches & _ & Hsafe & _).
  apply Forall_forall. intros e He.
  destruct (search_entry_origin _ _ _ _ _ _ _ _ _ _ _ _ Hsafe Hrun He)
    as (f & _ & st & t & _ & _ & _ & _ & _ & _ & Ht & _).
  rewrite Ht. discriminate.
Qed.

(** X10: Every entry a search returns describes a regular file among the
    candidates whose name holds the term, case ignored, and whose extension
    passes the filter. *)
Theorem search_entries_match w term exts recursive max_results p l r l' safe l1 :
  get_safe_path w p l = (inr safe, l1) ->
  search_files w term exts recursive max_results p l = (DSearch r, l') ->
  Forall (fun e =>
            exists f,
              describes w f e /\
              In f (search_candidates w safe recursive) /\
              fs_is_file w f = inr true /\
              passes_filter exts f = true /\
              contains (lower term) (lower (fi_name e)) = true)
         (sr_files r).
Proof.
  intros Hsafe Hrun. apply Forall_forall. intros e He.
  destruct (search_entry_origin _ _ _ _ _ _ _ _ _ _ _ e Hsafe Hrun He)
    as (f & Hf & Hd).
  exists f. unfold search_matches in Hf.
  apply filter_In in Hf. destruct Hf as [Hf Hname].
  apply filter_In in Hf. destruct Hf as [Hf Hpass].
  apply filter_In in Hf. destruct Hf as [Hf Hfile].
  repeat split; auto.
  - unfold is_file_true in Hfile.
    destruct (fs_is_file w f) as [?|[|]]; try discriminate. reflexivity.
  - destruct Hd as (st & t & _ & _ & -> & _). exact Hname.
Qed.

Lemma search_entries_match_witness :
  exists r l',
    search_files demo "NOTE" (Some ["TXT"]) true 50 "" [] = (DSearch r, l') /\
    map fi_name (sr_files r) = ["notes.txt"] /\
    Forall (fun e => contains "note" (lower (fi_name e)) = true) (sr_files r).
Proof.
  eexists _, _. split; [vm_compute; reflexivity|]. split; [reflexivity|].
  eapply Forall_impl;
    [| eapply (search_entries_match demo "NOTE" (Some ["TXT"]) true 50 "" []);
       [reflexivity | vm_compute; reflexivity]].
  cbn beta. intros e (f & _ & _ & _ & _ & H). exact H.
Defined.

(** X11: A search that is not recursive returns direct children of the confined
    directory only. *)
Theorem flat_search_stays_in_directory
        w term exts max_results p l r l' safe l1 names :
  get_safe_path w p l = (inr safe, l1) ->
  fs_is_file w safe = inr false ->
  fs_iterdir w safe = inr names ->
  search_files w term exts false max_results p l = (DSearch r, l') ->
  Forall (fun e =>
            exists n, In n names /\ fi_name e = n /\
                      fi_path e = path_str (child safe n))
         (sr_files r).
Proof.
  intros Hsafe Hfile Hiter Hrun. apply Forall_forall. intros e He.
  destruct (search_entry_origin _ _ _ _ _ _ _ _ _ _ _ e Hsafe Hrun He)
    as (f & Hf & Hd).
  unfold search_matches in Hf.
  apply filter_In in Hf. destruct Hf as [Hf _].
  apply filter_In in Hf. destruct Hf as [Hf _].
  apply filter_In in Hf. destruct Hf as [Hf _].
  unfold search_candidates in Hf. rewrite Hfile, Hiter in Hf.
  apply in_map_iff in Hf. destruct Hf as (n & <- & Hn).
  apply filter_In in Hn. destruct Hn as [Hn _].
  destruct Hd as (st & t & _ & _ & Hname & Hpath & _).
  exists n. rewrite Hname, Hpath, name_child. auto.
Qed.

Lemma flat_search_stays_in_directory_witness :
  exists r l',
    search_files demo "e" None false 50 "" [] = (DSearch r, l') /\
    map fi_name (sr_files r) = ["notes.txt"; "game.uproject"; "huge.txt"] /\
    Forall (fun e =>
              exists n, In n [ "notes.txt"; "a.txt"; "Makefile"; "logo.png";
                               "game.uproject"; "sub"; "alpha"; "huge.txt" ]
                        /\ fi_name e = n
                        /\ fi_path e = path_str (child ["srv"; "proj"] n))
           (sr_files r).
Proof.
  eexists _, _. split; [vm_compute; reflexivity|]. split; [reflexivity|].
  eapply (flat_search_stays_in_directory demo "e" None 50 "" []);
    [reflexivity | reflexivity | reflexivity | vm_compute; reflexivity].
Defined.

Lemma bind_map {A B} (m : M A) (g1 g2 : A -> M B) (h : B -> B) l :
  (forall a l1,
      g2 a l1 =
      (match fst (g1 a l1) with inr b => inr (h b) | inl e => inl e end,
       snd (g1 a l1))) ->
  bind m g2 l =
  (match fst (bind m g1 l) with inr b => inr (h b) | inl e => inl e end,
   snd (bind m g1 l)).
Proof.
  intros H. unfold bind. destruct (m l) as [[e|a] l1]; [reflexivity|].
  apply H.
Qed.

Lemma lower_empty_iff s : lower s = "" <-> s = "".
Proof. destruct s; cbn; split; intros H; congruence. Qed.

(** X12: The term is matched without regard to case: two terms with the same
    lower-case form get the same answer, apart from the term echoed in
    it. *)
Theorem search_ignores_term_case w t1 t2 exts recursive max_results p l :
  t1 <> "" ->
  lower t1 = lower t2 ->
  search_files w t2 exts recursive max_results p l =
  (with_search_term t2 (fst (search_files w t1 exts recursive max_results p l)),
   snd (search_files w t1 exts recursive max_results p l)).
Proof.
  intros Hne Hlow.
  assert (t2 <> "") as Hne2.
  { intros ->. apply Hne. apply lower_empty_iff. now rewrite Hlow. }
  pose (h := fun r : SearchResult =>
               {| sr_success := sr_success r; sr_action := sr_action r;
                  sr_search_term := t2; sr_path := sr_path r;
                  sr_files := sr_files r;
                  sr_total_matches := sr_total_matches r;
                  sr_max_results := sr_max_results r;
                  sr_recursive := sr_recursive r;
                  sr_timestamp := sr_timestamp r |}).
  assert (search_files_body w t2 exts recursive max_results p l =
          (match fst (search_files_body w t1 exts recursive max_results p l)
           with inr b => inr (h b) | inl e => inl e end,
           snd (search_files_body w t1 exts recursive max_results p l)))
    as Hbody.
  { unfold search_files_body. rewrite <- Hlow.
    destruct (String.eqb_spec t1 "") as [?|_]; [contradiction|].
    destruct (String.eqb_spec t2 "") as [?|_]; [contradiction|].
    repeat (apply bind_map; intros). reflexivity. }
  unfold search_files, run_tool. rewrite Hbody.
  destruct (search_files_body w t1 exts recursive max_results p l)
    as [[e|r] l']; reflexivity.
Qed.

Lemma search_ignores_term_case_witness :
  search_files demo "NoTeS" None true 50 "" [] =
  (with_search_term "NoTeS" (answer (search_files demo "notes" None true 50 "")),
   calls (search_files demo "notes" None true 50 "")).
Proof.
  apply (search_ignores_term_case demo "notes" "NoTeS" None true 50 "" []);
    [discriminate | reflexivity].
Defined.

(** ** What read_file and get_file_info return *)

Lemma concat_split_lines s : forall cur,
  List.concat (split_lines cur s) = (rev cur ++ s)%list.
Proof.
  induction s as [|c r IH]; intros cur; cbn [split_lines].
  - destruct cur; cbn; [reflexivity|]. now rewrite !app_nil_r.
  - destruct (c =? 10)%N.
    + cbn [List.concat rev]. rewrite IH. cbn. now rewrite <- app_assoc.
    + rewrite IH. cbn. now rewrite <- app_assoc.
Qed.

Lemma split_lines_length s : forall cur,
  List.length (split_lines cur s) =
  (count_lf s +
   (if match s with
       | [] => negb (Base64.is_nil cur)
       | _ => negb (last s 0%N =? 10)%N
       end then 1 else 0))%nat.
Proof.
  unfold count_lf.
  induction s as [|c r IH]; intros cur; cbn [split_lines filter].
  - now destruct cur.
  - destruct (c =? 10)%N eqn:Hc.
    + cbn [List.length]. rewrite IH. cbn [Base64.is_nil negb].
      destruct r as [|d r]; cbn [last]; [rewrite Hc; reflexivity|].
      lia.
    + rewrite IH. cbn [Base64.is_nil negb].
      destruct r as [|d r]; cbn [last]; [rewrite Hc; reflexivity|].
      reflexivity.
Qed.

Lemma readlines_count s :
  len (split_lines [] s) = lines_in s.
Proof.
  unfold len, lines_in, unterminated. rewrite split_lines_length.
  destruct s as [|c r]; cbn [Base64.is_nil negb]; [reflexivity|].
  destruct (negb (last (c :: r) 0%N =? 10)%N); lia.
Qed.

Lemma translate_newlines_no_cr_aux n : forall s,
  (List.length s <= n)%nat ->
  Forall (fun c => c <> 13%N) (translate_newlines s).
Proof.
  induction n as [|n IH]; intros s Hlen.
  - destruct s; [constructor | cbn in Hlen; lia].
  - destruct s as [|c r]; [constructor|]. cbn [translate_newlines].
    cbn in Hlen.
    destruct (c =? 13)%N eqn:Hc.
    + constructor; [discriminate|].
      destruct r as [|d r']; [constructor|].
      destruct (d =? 10)%N; apply IH; cbn in *; lia.
    + constructor; [now apply N.eqb_neq | apply IH; lia].
Qed.

Lemma translate_newlines_no_cr s :
  Forall (fun c => c <> 13%N) (translate_newlines s).
Proof. now apply (translate_newlines_no_cr_aux (List.length s)). Qed.

(** The whole run of [read_file] on a readable file within the size
    limit. *)
Lemma read_file_answer w p l safe l1 s bs :
  get_safe_path w p l = (inr safe, l1) ->
  fs_exists w safe = inr true ->
  fs_is_file w safe = inr true ->
  fs_stat w safe = inr s ->
  (st_size s <= 10 * 1024 * 1024)%Z ->
  fs_read w safe = inr bs ->
  exists rel,
    read_file w p l =
    (DRead {| rr_success := true;
              rr_action := "read";
              rr_path := path_str safe;
              rr_relative_path := rel;
              rr_content :=
                if classified_text w safe then text_of bs
                else map Byte.to_N (Base64.b64encode bs);
              rr_encoding :=
                if classified_text w safe then "text" else "base64";
              rr_line_count :=
                if classified_text w safe then lines_in (text_of bs) else 0%Z;
              rr_size := st_size s;
              rr_mime_type := mime_or_default (guess_type w (path_str safe));
              rr_is_text := classified_text w safe;
              rr_timestamp := now_isoformat w |},
     (l1 ++ [CExists safe; CIsFile safe; CStat safe; CStat safe;
             if classified_text w safe then COpenText safe Utf8
             else COpenBinary safe])%list).
Proof.
  intros Hsafe Hex Hfile Hstat Hsize Hread.
  destruct (relative_or_absolute_total w safe
              ((((l1 ++ [CExists safe]) ++ [CIsFile safe]) ++ [CStat safe])
                 ++ [CStat safe])%list) as [rel Hrel].
  exists rel.
  unfold read_file, run_tool, read_file_body.
  rewrite (bind_inr _ _ _ _ _ Hsafe).
  unfold exists_, is_file, stat. rewrite Hex, Hfile, Hstat.
  cbv [bind call ret raise raise_if lift negb].
  rewrite (size_within_limit s Hsize). rewrite Hrel. cbv beta iota.
  unfold classified_text.
  destruct (str_in (lower (suffix safe)) text_extensions) eqn:Hext;
    [rewrite orb_true_r
    |rewrite orb_false_r;
     destruct (mime_is_text (guess_type w (path_str safe))) eqn:Hmime].
  - unfold read_text, read_binary, read_lines_into, open_readlines, decode.
    cbv [bind call ret raise raise_if lift negb is_text try_except].
    rewrite Hread. cbv beta iota. rewrite !app_one_assoc.
    rewrite readlines_count, concat_split_lines. reflexivity.
  - unfold read_text, read_binary, read_lines_into, open_readlines, decode.
    cbv [bind call ret raise raise_if lift negb is_text try_except].
    rewrite Hread. cbv beta iota. rewrite !app_one_assoc.
    rewrite readlines_count, concat_split_lines. reflexivity.
  - unfold read_text, read_binary, open_read_binary.
    cbv [bind call ret raise raise_if lift negb is_text].
    rewrite Hread.
    rewrite (decode_strict_ascii _ (b64encode_ascii bs)).
    rewrite !app_one_assoc. reflexivity.
Qed.

(** X13: [read_file] on a readable file of at most 10 MiB (the limit itself
    included) succeeds; the file is text exactly when its MIME type is
    textual or its extension is listed, [encoding] is "text" then and
    "base64" otherwise; [size] is the size [stat] gave and [mime_type] the
    guessed type or "application/octet-stream". *)
Theorem read_is_classified w p l safe l1 s bs :
  get_safe_path w p l = (inr safe, l1) ->
  fs_exists w safe = inr true ->
  fs_is_file w safe = inr true ->
  fs_stat w safe = inr s ->
  (st_size s <= 10 * 1024 * 1024)%Z ->
  fs_read w safe = inr bs ->
  exists r l',
    read_file w p l = (DRead r, l') /\
    rr_is_text r = classified_text w safe /\
    rr_encoding r = (if classified_text w safe then "text" else "base64") /\
    rr_size r = st_size s /\
    rr_mime_type r = mime_or_default (guess_type w (path_str safe)).
Proof.
  intros Hsafe Hex Hfile Hstat Hsize Hread.
  destruct (read_file_answer w p l safe l1 s bs Hsafe Hex Hfile Hstat Hsize
              Hread) as [rel Hrun].
  eexists _, _. split; [exact Hrun|]. cbn. auto.
Qed.

Lemma read_is_classified_witness :
  exists r l',
    read_file demo "game.uproject" [] = (DRead r, l') /\
    rr_is_text r = true /\ rr_encoding r = "text" /\ rr_size r = 2%Z /\
    rr_mime_type r = "application/octet-stream".
Proof.
  apply (read_is_classified demo "game.uproject" []
           ["srv"; "proj"; "game.uproject"] [CResolve "game.uproject"]
           (mk_stat 2 4) (list_byte_of_string "{}"));
    try reflexivity.
  discriminate.
Defined.

(** X14: The text [read_file] returns has no carriage return: the file is read
    as UTF-8 with undecodable bytes dropped and [\r\n] and [\r] turned into
    [\n]; the content is all of that text, and [line_count] is its number
    of line feeds, plus one when it ends in an unfinished line. *)
Theorem read_text_lines w p l safe l1 s bs :
  get_safe_path w p l = (inr safe, l1) ->
  fs_exists w safe = inr true ->
  fs_is_file w safe = inr true ->
  fs_stat w safe = inr s ->
  (st_size s <= 10 * 1024 * 1024)%Z ->
  fs_read w safe = inr bs ->
  classified_text w safe = true ->
  exists r l',
    read_file w p l = (DRead r, l') /\
    rr_content r = text_of bs /\
    Forall (fun c => c <> 13%N) (rr_content r) /\
    rr_line_count r = lines_in (rr_content r).
Proof.
  intros Hsafe Hex Hfile Hstat Hsize Hread Htext.
  destruct (read_file_answer w p l safe l1 s bs Hsafe Hex Hfile Hstat Hsize
              Hread) as [rel Hrun].
  rewrite Htext in Hrun.
  eexists _, _. split; [exact Hrun|]. cbn.
  repeat split. apply translate_newlines_no_cr.
Qed.

Lemma read_text_lines_witness :
  let w := snapshot ["p"]
             [ dir_node ["p"];
               file_node ["p"; "dos.txt"] 1
                 (list_byte_of_string "a" ++ [x0d; x0a]
                  ++ list_byte_of_string "b" ++ [x0d]
                  ++ list_byte_of_string "c")%list ] in
  exists r l',
    read_file w "dos.txt" [] = (DRead r, l') /\
    rr_content r = [97; 10; 98; 10; 99]%N /\
    rr_line_count r = 3%Z /\ rr_size r = 6%Z.
Proof.
  intros w.
  edestruct (read_text_lines w "dos.txt" [] ["p"; "dos.txt"]
               [CResolve "dos.txt"] (mk_stat 6 1))
    as (r & l' & Hrun & Hcontent & _ & Hlines);
    [ reflexivity | reflexivity | reflexivity | reflexivity | discriminate
    | reflexivity | reflexivity | ].
  exists r, l'. split; [exact Hrun|].
  split; [rewrite Hcontent; reflexivity|].
  split; [rewrite Hlines, Hcontent; reflexivity|].
  vm_compute in Hrun. inversion Hrun. reflexivity.
Defined.

Lemma count_lines_run w safe mime l bs :
  fs_is_file w safe = inr true ->
  mime_is_text mime = true ->
  fs_read w safe = inr bs ->
  count_lines w safe mime l =
  (inr (Some (lines_in (text_of bs))),
   ((l ++ [CIsFile safe]) ++ [COpenText safe Utf8])%list).
Proof.
  intros Hfile Hmime Hread.
  unfold count_lines, open_readlines, is_file, decode.
  cbv [bind call ret raise raise_if lift negb try_except].
  rewrite Hfile, Hmime, Hread. cbv beta iota.
  now rewrite readlines_count.
Qed.

(** X15: For a readable file with a textual MIME type, [get_file_info] and
    [read_file] agree: the line count of the one is the line count of the
    other, and so is the size. *)
Theorem info_and_read_agree w p l safe l1 s d t bs :
  get_safe_path w p l = (inr safe, l1) ->
  fs_exists w safe = inr true ->
  fs_is_file w safe = inr true ->
  fs_is_dir w safe = inr d ->
  fs_stat w safe = inr s ->
  (st_size s <= 10 * 1024 * 1024)%Z ->
  fromtimestamp_isoformat w (st_mtime s) = inr t ->
  mime_is_text (guess_type w (path_str safe)) = true ->
  fs_read w safe = inr bs ->
  exists ri li rr lr,
    get_file_info w p l = (DInfo ri, li) /\
    read_file w p l = (DRead rr, lr) /\
    ir_line_count ri = Some (rr_line_count rr) /\
    ir_size ri = Some (rr_size rr).
Proof.
  intros Hsafe Hex Hfile Hdir Hstat Hsize Hts Hmime Hread.
  destruct (read_file_answer w p l safe l1 s bs Hsafe Hex Hfile Hstat Hsize
              Hread) as [rel Hrun].
  assert (classified_text w safe = true) as Htext
      by (unfold classified_text; now rewrite Hmime).
  rewrite Htext in Hrun.
  destruct (relative_or_absolute_total w safe
              ((l1 ++ [CExists safe]) ++ [CStat safe])%list) as [rel' Hrel].
  eexists _, _, _, _. split; [|split; [exact Hrun|]].
  - unfold get_file_info, run_tool, get_file_info_body.
    rewrite (bind_inr _ _ _ _ _ Hsafe).
    unfold exists_, stat, is_dir. rewrite Hex, Hstat, Hdir.
    cbv [bind call ret raise raise_if lift negb].
    rewrite Hrel. cbv beta iota.
    rewrite (count_lines_run w safe _ _ bs Hfile Hmime Hread).
    unfold is_file. cbv [call]. rewrite Hfile, Hts. reflexivity.
  - cbn. auto.
Qed.

Lemma info_and_read_agree_witness :
  exists ri li rr lr,
    get_file_info demo "notes.txt" [] = (DInfo ri, li) /\
    read_file demo "notes.txt" [] = (DRead rr, lr) /\
    ir_line_count ri = Some (rr_line_count rr) /\
    ir_size ri = Some (rr_size rr).
Proof.
  apply (info_and_read_agree demo "notes.txt" [] ["srv"; "proj"; "notes.txt"]
           [CResolve "notes.txt"] (mk_stat 5 5) false "1970-01-01T00:00:05"
           (list_byte_of_string "hello"));
    try reflexivity.
  discriminate.
Defined.

(** X16: [get_file_info] on a directory: the type is "directory", and size,
    extension and line count are absent; no file is opened. *)
Theorem info_on_a_directory w p l safe l1 s t :
  get_safe_path w p l = (inr safe, l1) ->
  fs_exists w safe = inr true ->
  fs_is_file w safe = inr false ->
  fs_is_dir w safe = inr true ->
  fs_stat w safe = inr s ->
  fromtimestamp_isoformat w (st_mtime s) = inr t ->
  exists r,
    get_file_info w p l =
    (DInfo r,
     (l1 ++ [CExists safe; CStat safe; CIsFile safe; CIsDir safe;
             CIsFile safe; CIsFile safe])%list) /\
    ir_type r = "directory" /\ ir_name r = name safe /\
    ir_size r = None /\ ir_extension r = None /\ ir_line_count r = None /\
    ir_modified_time r = t.
Proof.
  intros Hsafe Hex Hfile Hdir Hstat Hts.
  destruct (relative_or_absolute_total w safe
              ((l1 ++ [CExists safe]) ++ [CStat safe])%list) as [rel Hrel].
  eexists. split.
  - unfold get_file_info, run_tool, get_file_info_body.
    rewrite (bind_inr _ _ _ _ _ Hsafe).
    unfold exists_, stat, is_dir, count_lines, is_file.
    rewrite Hex, Hstat, Hdir, Hfile.
    cbv [bind call ret raise raise_if lift negb].
    rewrite Hrel. cbv beta iota. rewrite Hts.
    rewrite !app_one_assoc. reflexivity.
  - cbn. auto 10.
Qed.

Lemma info_on_a_directory_witness :
  exists r l',
    get_file_info demo "sub" [] = (DInfo r, l') /\
    ir_type r = "directory" /\ ir_size r = None /\ ir_line_count r = None.
Proof.
  edestruct (info_on_a_directory demo "sub" [] ["srv"; "proj"; "sub"]
               [CResolve "sub"] (mk_stat 4096 0) "1970-01-01T00:00:00")
    as (r & Hrun & Htype & _ & Hsize & _ & Hlc & _);
    try reflexivity.
  exists r. eexists. split; [exact Hrun|]. auto.
Defined.

Lemma str_in_lowercase_only s (exts : list string) :
  str_in (lower s) exts
  = str_in (lower s) (filter (fun e => e =? lower e) exts).
Proof.
  unfold str_in. induction exts as [|e exts IH]; [reflexivity|].
  cbn [existsb filter]. destruct (String.eqb_spec e (lower e)) as [He|He].
  - cbn [existsb]. now rewrite IH.
  - rewrite <- IH.
    destruct (String.eqb_spec (lower s) e) as [Heq|_]; [|reflexivity].
    exfalso. apply He. rewrite <- Heq. symmetry. apply lower_idem.
Qed.

(** X17: The extension is lowered before it is looked up, so only the list
    entries written in lower case can match: [.Build.cs] and [.Target.cs],
    the two entries with capitals, never do, and the text classification is
    the same without them. *)
Theorem capital_extensions_never_match p :
  str_in (lower (suffix p)) text_extensions
  = str_in (lower (suffix p))
      (filter (fun e => e =? lower e) text_extensions) /\
  filter (fun e => negb (e =? lower e)) text_extensions
  = [".Build.cs"; ".Target.cs"] /\
  lower (suffix p) <> ".Build.cs" /\ lower (suffix p) <> ".Target.cs".
Proof.
  split; [apply str_in_lowercase_only|]. split; [reflexivity|].
  split; intros H;
    pose proof (lower_idem (suffix p)) as Hidem; rewrite H in Hidem;
    discriminate.
Qed.

(** A [.Build.cs] file is text all the same, through its last extension
    [.cs]. *)
Example build_cs_is_text :
  suffix ["srv"; "proj"; "Game.Build.cs"] = ".cs" /\
  str_in (lower (suffix ["srv"; "proj"; "Game.Build.cs"])) text_extensions
  = true.
Proof. split; reflexivity. Qed.

(** * The engine bridge *)

Import UE4.

Lemma send_picked {value : Type} (c : connection) (cmd : @command value) l :
  send_ue4_command c cmd l
  = match picked c with
    | Some (t, Sends) =>
        (inr tt, (l ++ [mk_sent (conn_name c) t cmd])%list)
    | Some (t, Raises e) => (inl e, l)
    | Some (t, SendsThenRaises e) =>
        (inl e, (l ++ [mk_sent (conn_name c) t cmd])%list)
    | Some (_, Absent) | None =>
        (inl (RuntimeError
                "UE4 connection object does not support send_json/send"), l)
    end.
Proof.
  unfold send_ue4_command, picked.
  destruct (send_json c); try reflexivity.
  destruct (send c); try reflexivity.
  destruct (ws c) as [[] |]; reflexivity.
Qed.

Lemma connect_cases {value : Type} env sid (l : list (@sent value)) :
  (exists c, chosen env sid = Some c /\ connect env sid l = (inr c, l)) \/
  (chosen env sid = None /\ exists e, connect env sid l = (inl e, l)).
Proof.
  unfold connect, chosen.
  destruct (get_ue4_connection env sid) as [e | [c |]]; eauto.
Qed.

Lemma relay_run {value A : Type} env sid (cmd : @command value) (r : A) l c :
  chosen env sid = Some c ->
  bindU (connect env sid)
    (fun c => bindU (send_ue4_command c cmd) (fun _ => retU r)) l
  = match send_ue4_command c cmd l with
    | (inr _, l') => (inr r, l')
    | (inl e, l') => (inl e, l')
    end.
Proof.
  intros Hc. unfold bindU.
  destruct (connect_cases env sid l) as [(c' & Hc' & ->) | (Hn & _)];
    [| congruence].
  rewrite Hc in Hc'. inversion Hc'; subst c'. reflexivity.
Qed.

Lemma relay_sent {value A : Type} env sid (cmd : @command value) (r : A) l c t :
  chosen env sid = Some c -> picked c = Some (t, Sends) ->
  bindU (connect env sid)
    (fun c => bindU (send_ue4_command c cmd) (fun _ => retU r)) l
  = (inr r, (l ++ [mk_sent (conn_name c) t cmd])%list).
Proof.
  intros Hc Ht.
  rewrite (relay_run env sid cmd r l c Hc), send_picked, Ht. reflexivity.
Qed.

Lemma relay_unconnected {value A : Type} env sid (cmd : @command value) (r : A) l :
  ue4_manager env <> None -> chosen env sid = None ->
  bindU (connect env sid)
    (fun c => bindU (send_ue4_command c cmd) (fun _ => retU r)) l
  = (inl (RuntimeError
            ("No active UE4 connection found for session_id: " ++ sid)), l).
Proof.
  unfold bindU, connect, chosen, get_ue4_connection.
  destruct (ue4_manager env) as [m |]; [| congruence]. intros _.
  cbv zeta.
  destruct (lookup sid _); [discriminate |].
  destruct (sid =? ""); [| reflexivity].
  destruct (match active_connections m with Some d => d | None => [] end)
    as [| [k c] rest]; [reflexivity | discriminate].
Qed.

Lemma sends_at_most_once_relay {value A : Type} env sid
      (wrap : A -> answer) action (cmd : @command value) (r : A) :
  succeeded (wrap r) = true ->
  sends_at_most_once env action sid
    (run_engine_tool env action sid wrap
       (bindU (connect env sid)
          (fun c => bindU (send_ue4_command c cmd) (fun _ => retU r)))).
Proof.
  intros Hs l. unfold run_engine_tool.
  destruct (connect_cases env sid l) as [(c & Hc & Hcon) | (Hn & e & Hcon)].
  - rewrite (relay_run env sid cmd r l c Hc), send_picked.
    destruct (picked c) as [[t [| | e | e]] |] eqn:Hp.
    + right; left. split; reflexivity.
    + left. split; [exact Hs |]. exists c, t, cmd. repeat split; assumption.
    + right; left. split; reflexivity.
    + right; right. exists c, t, cmd, e. repeat split; assumption.
    + right; left. split; reflexivity.
  - unfold bindU. rewrite Hcon. right; left. split; reflexivity.
Qed.

Lemma sends_at_most_once_refused {value : Type} env action sid e :
  sends_at_most_once (value := value) env action sid
    (fun l => (AFailed (failed env action sid e), l)).
Proof.
  intros l. right; left. split; reflexivity.
Qed.

(** X18: Each of the three relaying tools sends at most one command, and
    that only to the connection its session id stands for, through the first
    send method that connection has.  The answer has success true exactly
    when that method took the command and returned.  An answer with success
    false does not by itself mean that nothing went out: either nothing was
    sent, or the one command was sent by a method that raised after sending
    (a plain [send], whose result cannot be awaited), and the answer then
    carries that exception. *)
Theorem engine_tools_send_at_most_once {value : Type} (env : Env)
        (sid name : string) (lo ro sc params : option (@dict value)) :
  sends_at_most_once env "move_actor" sid
    (move_actor env sid name lo ro sc) /\
  sends_at_most_once env "get_selected_actors" sid
    (get_selected_actors (value := value) env sid) /\
  sends_at_most_once env "execute_ue4_command" sid
    (execute_ue4_command env sid name params).
Proof.
  split; [| split].
  - unfold move_actor, move_actor_body.
    destruct (name =? ""); [apply sends_at_most_once_refused |].
    apply sends_at_most_once_relay. reflexivity.
  - unfold get_selected_actors, get_selected_actors_body.
    apply sends_at_most_once_relay. reflexivity.
  - unfold execute_ue4_command, execute_ue4_command_body.
    destruct (name =? ""); [apply sends_at_most_once_refused |].
    apply sends_at_most_once_relay. reflexivity.
Qed.

(** The third case happens: the session [ed6] has a plain [send]; the
    command goes out, the await raises, and the tool answers with success
    false. *)
Example plain_send_fails_after_sending :
  exists cmd,
    move_actor (value := Z) studio "ed6" "Cube" None None None []
    = (AFailed
         (failed studio "move_actor" "ed6"
            (mk_exn (OtherException "TypeError")
               "object NoneType can't be used in 'await' expression")),
       [mk_sent "editor-6" BySend cmd]) /\
    cmd_action cmd = "move_actor".
Proof.
  eexists. split; reflexivity.
Qed.

Lemma chosen_unregistered env sid :
  lookup sid (registered env) = None ->
  sid <> "" \/ registered env = [] ->
  chosen env sid = None.
Proof.
  unfold chosen, get_ue4_connection, registered.
  destruct (ue4_manager env) as [m |]; [| reflexivity].
  cbv zeta. intros -> Hs.
  destruct (sid =? "") eqn:E; [| reflexivity].
  apply String.eqb_eq in E.
  destruct Hs as [Hs | ->]; [congruence | reflexivity].
Qed.

Lemma run_engine_tool_log {value A : Type} env action sid (wrap : A -> answer)
      (body : U A) (l : list (@sent value)) :
  snd (run_engine_tool env action sid wrap body l) = snd (body l).
Proof.
  unfold run_engine_tool. destruct (body l) as [[e | r] l']; reflexivity.
Qed.

Lemma relay_log {value A B : Type} env sid (cmd : @command value)
      (r : A) (r' : B) l :
  snd (bindU (connect env sid)
         (fun c => bindU (send_ue4_command c cmd) (fun _ => retU r)) l)
  = snd (bindU (connect env sid)
           (fun c => bindU (send_ue4_command c cmd) (fun _ => retU r')) l).
Proof.
  unfold bindU.
  destruct (connect env sid l) as [[e | c] l1]; [reflexivity |].
  destruct (send_ue4_command c cmd l1) as [[e | []] l2]; reflexivity.
Qed.

(** X19: A session id that is not registered is not redirected to
    another connection: with a manager installed, a session id that is not
    a key of its connections, and that is non-empty or meets an empty
    registry, makes each relaying tool answer with RuntimeError "No active
    UE4 connection found for session_id: <id>" and send nothing, whatever
    other connections are registered. *)
Theorem unregistered_session_is_not_redirected {value : Type} (env : Env)
        (sid name : string) (lo ro sc params : option (@dict value))
        (l : list sent) :
  ue4_manager env <> None ->
  lookup sid (registered env) = None ->
  sid <> "" \/ registered env = [] ->
  name <> "" ->
  let e := RuntimeError
             ("No active UE4 connection found for session_id: " ++ sid) in
  move_actor env sid name lo ro sc l
  = (AFailed (failed env "move_actor" sid e), l) /\
  get_selected_actors env sid l
  = (AFailed (failed env "get_selected_actors" sid e), l) /\
  execute_ue4_command env sid name params l
  = (AFailed (failed env "execute_ue4_command" sid e), l).
Proof.
  intros Hm Hl Hs Hn e.
  pose proof (chosen_unregistered env sid Hl Hs) as Hc.
  apply String.eqb_neq in Hn.
  unfold move_actor, get_selected_actors, execute_ue4_command,
    move_actor_body, get_selected_actors_body, execute_ue4_command_body,
    run_engine_tool.
  rewrite Hn.
  rewrite !(relay_unconnected env sid _ _ l Hm Hc).
  repeat split.
Qed.

Lemma unregistered_session_is_not_redirected_witness :
  move_actor (value := Z) studio "ed9" "Cube" None None None []
  = (AFailed (failed studio "move_actor" "ed9"
                (RuntimeError
                   "No active UE4 connection found for session_id: ed9")),
     []).
Proof.
  refine (proj1 (unregistered_session_is_not_redirected
                   studio "ed9" "Cube" None None None None [] _ _ _ _)).
  - discriminate.
  - reflexivity.
  - left. discriminate.
  - discriminate.
Defined.

(** X20: An empty session id stands for the connection registered
    under the empty key if there is one, and otherwise for the first
    registered connection: get_selected_actors then sends its command, with
    an empty payload and the request id it reports, to that connection, and
    reports the session as "default". *)
Theorem empty_session_means_first_connection {value : Type} (env : Env)
        (k : string) (c : connection) (rest : list (string * connection))
        (t : transport) (l : list (@sent value)) :
  ue4_manager env <> None ->
  registered env = (k, c) :: rest ->
  let c' := match lookup "" (registered env) with
            | Some x => x
            | None => c
            end in
  picked c' = Some (t, Sends) ->
  exists r,
    get_selected_actors env "" l
    = (ASelected r,
       (l ++ [mk_sent (conn_name c') t
                {| cmd_action := "get_selected_actors";
                   cmd_request_id := sl_request_id r;
                   cmd_payload := DictPayload [] |}])%list) /\
    sl_session_id r = "default" /\
    sl_request_id r
    = "get_selected_actors_" ++ str_of_Z (clock_millis env).
Proof.
  intros Hm Hr c' Ht.
  assert (Hc : chosen env "" = Some c').
  { subst c'. revert Hm Hr.
    unfold chosen, get_ue4_connection, registered.
    destruct (ue4_manager env) as [m |]; [| congruence].
    cbv zeta. intros _ ->.
    destruct (lookup "" ((k, c) :: rest)); reflexivity. }
  unfold get_selected_actors, get_selected_actors_body, run_engine_tool.
  rewrite (relay_sent env "" _ _ l c' t Hc Ht).
  match goal with
  | |- exists r, (ASelected ?r0, _) = _ /\ _ => exists r0
  end.
  split; [reflexivity | split; reflexivity].
Qed.

Lemma empty_session_means_first_connection_witness :
  exists r,
    get_selected_actors (value := Z) studio "" []
    = (ASelected r,
       [mk_sent "editor-1" BySendJson
          {| cmd_action := "get_selected_actors";
             cmd_request_id := sl_request_id r;
             cmd_payload := DictPayload [] |}]) /\
    sl_session_id r = "default" /\
    sl_request_id r = "get_selected_actors_1700000000000".
Proof.
  refine (empty_session_means_first_connection
            studio "ed1" (mk_connection "editor-1" Sends Sends None)
            _ BySendJson [] _ _ _).
  - discriminate.
  - reflexivity.
  - reflexivity.
Defined.

(** X21: The name is checked before the connection is looked up:
    move_actor with an empty actor name and execute_ue4_command with an
    empty command name answer with ValueError and send nothing, whatever the
    session id and whether or not a manager or a connection exists. *)
Theorem names_are_checked_first {value : Type} (env : Env) (sid : string)
        (lo ro sc params : option (@dict value)) (l : list sent) :
  move_actor env sid "" lo ro sc l
  = (AFailed (failed env "move_actor" sid
                (mk_exn ValueError "Actor name is required")), l) /\
  execute_ue4_command env sid "" params l
  = (AFailed (failed env "execute_ue4_command" sid
                (mk_exn ValueError "Command name is required")), l).
Proof.
  split; reflexivity.
Qed.

(** X22: Without an installed manager every relaying call that passes
    its name check fails with RuntimeError "UE4 WebSocket manager not
    initialized. Call set_ue4_websocket_manager() first." and sends nothing,
    whatever the session id. *)
Theorem missing_manager_fails {value : Type} (env : Env) (sid name : string)
        (lo ro sc params : option (@dict value)) (l : list sent) :
  ue4_manager env = None ->
  name <> "" ->
  let e := RuntimeError
             "UE4 WebSocket manager not initialized. Call set_ue4_websocket_manager() first." in
  move_actor env sid name lo ro sc l
  = (AFailed (failed env "move_actor" sid e), l) /\
  get_selected_actors env sid l
  = (AFailed (failed env "get_selected_actors" sid e), l) /\
  execute_ue4_command env sid name params l
  = (AFailed (failed env "execute_ue4_command" sid e), l).
Proof.
  intros Hm Hn e.
  apply String.eqb_neq in Hn.
  unfold move_actor, get_selected_actors, execute_ue4_command,
    move_actor_body, get_selected_actors_body, execute_ue4_command_body,
    run_engine_tool, bindU, connect, get_ue4_connection.
  rewrite Hn, Hm.
  repeat split.
Qed.

Lemma missing_manager_fails_witness :
  execute_ue4_command (value := Z) (mk_env None 0 "1970-01-01T00:00:00")
    "ed1" "spawn" None []
  = (AFailed
       (failed (mk_env None 0 "1970-01-01T00:00:00") "execute_ue4_command"
          "ed1"
          (RuntimeError
             "UE4 WebSocket manager not initialized. Call set_ue4_websocket_manager() first.")),
     []).
Proof.
  refine (proj2 (proj2 (missing_manager_fails
                          (mk_env None 0 "1970-01-01T00:00:00")
                          "ed1" "spawn" None None None None [] _ _))).
  - reflexivity.
  - discriminate.
Defined.




(** X24: A connection that has neither send_json nor send, and whose
    ws attribute is missing, None or without a send method, makes each
    relaying tool answer with RuntimeError "UE4 connection object does not
    support send_json/send"; nothing is sent. *)
Theorem connection_without_sender_fails {value : Type} (env : Env)
        (sid name : string) (c : connection)
        (lo ro sc params : option (@dict value)) (l : list sent) :
  name <> "" ->
  chosen env sid = Some c ->
  send_json c = Absent ->
  send c = Absent ->
  ws c = None \/ ws c = Some Absent ->
  let e := RuntimeError
             "UE4 connection object does not support send_json/send" in
  move_actor env sid name lo ro sc l
  = (AFailed (failed env "move_actor" sid e), l) /\
  get_selected_actors env sid l
  = (AFailed (failed env "get_selected_actors" sid e), l) /\
  execute_ue4_command env sid name params l
  = (AFailed (failed env "execute_ue4_command" sid e), l).
Proof.
  intros Hn Hc Hj Hs Hw e.
  apply String.eqb_neq in Hn.
  assert (Hsend : forall (cmd : @command value),
             send_ue4_command c cmd l = (inl e, l)).
  { intros cmd. unfold send_ue4_command. rewrite Hj, Hs.
    destruct Hw as [-> | ->]; reflexivity. }
  assert (Hconn : connect env sid l = (inr c, l)).
  { destruct (connect_cases env sid l) as [(c' & Hc' & ->) | (Hno & _)];
      congruence. }
  unfold move_actor, get_selected_actors, execute_ue4_command,
    move_actor_body, get_selected_actors_body, execute_ue4_command_body,
    run_engine_tool, bindU.
  rewrite Hn, Hconn, !Hsend.
  repeat split.
Qed.

Lemma connection_without_sender_fails_witness :
  get_selected_actors (value := Z) studio "ed4" []
  = (AFailed
       (failed studio "get_selected_actors" "ed4"
          (RuntimeError
             "UE4 connection object does not support send_json/send")), []).
Proof.
  refine (proj1 (proj2 (connection_without_sender_fails
                          studio "ed4" "Cube"
                          (mk_connection "editor-4" Absent Absent None)
                          None None None None [] _ _ _ _ _))).
  - discriminate.
  - reflexivity.
  - reflexivity.
  - reflexivity.
  - left. reflexivity.
Defined.

(** X25: A move_actor call with an actor name, a connection for its
    session id and a working send method sends exactly one command: action
    "move_actor", the request id "move_actor_<milliseconds>" that the answer
    reports, and a payload in which an omitted location, rotation or scale
    is the empty dictionary, while the answer echoes the three arguments as
    they were given. *)
Theorem move_actor_relays_one_command {value : Type} (env : Env)
        (sid name : string) (c : connection) (t : transport)
        (lo ro sc : option (@dict value)) (l : list sent) :
  name <> "" ->
  chosen env sid = Some c ->
  picked c = Some (t, Sends) ->
  exists r cmd,
    move_actor env sid name lo ro sc l
    = (AMove r, (l ++ [mk_sent (conn_name c) t cmd])%list) /\
    cmd_action cmd = "move_actor" /\
    cmd_request_id cmd = mv_request_id r /\
    mv_request_id r = "move_actor_" ++ str_of_Z (clock_millis env) /\
    cmd_payload cmd
    = MovePayload name (or_empty lo) (or_empty ro) (or_empty sc) /\
    mv_success r = true /\
    mv_actor_name r = name /\
    mv_location r = lo /\ mv_rotation r = ro /\ mv_scale r = sc /\
    mv_session_id r = or_default sid.
Proof.
  intros Hn Hc Ht.
  apply String.eqb_neq in Hn.
  do 2 eexists.
  unfold move_actor, move_actor_body, run_engine_tool.
  rewrite Hn.
  rewrite (relay_sent env sid _ _ l c t Hc Ht).
  cbn. repeat split.
Qed.

Lemma move_actor_relays_one_command_witness :
  exists r cmd,
    move_actor studio "ed3" "Cube" (Some [("x", 1%Z)]) None None []
    = (AMove r, [mk_sent "editor-3" ByWsSend cmd]) /\
    cmd_action cmd = "move_actor" /\
    cmd_request_id cmd = mv_request_id r /\
    mv_request_id r = "move_actor_1700000000000" /\
    cmd_payload cmd = MovePayload "Cube" [("x", 1%Z)] [] [] /\
    mv_success r = true /\
    mv_actor_name r = "Cube" /\
    mv_location r = Some [("x", 1%Z)] /\
    mv_rotation r = None /\ mv_scale r = None /\
    mv_session_id r = "ed3".
Proof.
  refine (move_actor_relays_one_command
            studio "ed3" "Cube"
            (mk_connection "editor-3" Absent Absent (Some Sends)) ByWsSend
            (Some [("x", 1%Z)]) None None [] _ _ _).
  - discriminate.
  - reflexivity.
  - reflexivity.
Defined.

(** X26: execute_ue4_command puts the command name on the wire as the
    action of the command it sends, while its answer keeps the action
    "execute_ue4_command" and reports the name under command_name; the
    request id is "execute_ue4_command_<milliseconds>" whatever the command
    name, the same in the command and in the answer, and the parameters
    sent and reported are the given ones, or the empty dictionary when
    omitted. *)
Theorem execute_command_relays_name_as_action {value : Type} (env : Env)
        (sid name : string) (c : connection) (t : transport)
        (params : option (@dict value)) (l : list sent) :
  name <> "" ->
  chosen env sid = Some c ->
  picked c = Some (t, Sends) ->
  exists r cmd,
    execute_ue4_command env sid name params l
    = (AExec r, (l ++ [mk_sent (conn_name c) t cmd])%list) /\
    cmd_action cmd = name /\
    ex_action r = "execute_ue4_command" /\
    ex_command_name r = name /\
    cmd_request_id cmd = ex_request_id r /\
    ex_request_id r
    = "execute_ue4_command_" ++ str_of_Z (clock_millis env) /\
    cmd_payload cmd = DictPayload (ex_parameters r) /\
    ex_parameters r = or_empty params /\
    ex_session_id r = or_default sid.
Proof.
  intros Hn Hc Ht.
  apply String.eqb_neq in Hn.
  do 2 eexists.
  unfold execute_ue4_command, execute_ue4_command_body, run_engine_tool.
  rewrite Hn.
  rewrite (relay_sent env sid _ _ l c t Hc Ht).
  cbn. repeat split.
Qed.

Lemma execute_command_relays_name_as_action_witness :
  exists r cmd,
    execute_ue4_command (value := Z) studio "ed2" "spawn" None []
    = (AExec r, [mk_sent "editor-2" BySend cmd]) /\
    cmd_action cmd = "spawn" /\
    ex_action r = "execute_ue4_command" /\
    ex_command_name r = "spawn" /\
    cmd_request_id cmd = ex_request_id r /\
    ex_request_id r = "execute_ue4_command_1700000000000" /\
    cmd_payload cmd = DictPayload (ex_parameters r) /\
    ex_parameters r = [] /\
    ex_session_id r = "ed2".
Proof.
  refine (execute_command_relays_name_as_action
            studio "ed2" "spawn"
            (mk_connection "editor-2" Absent Sends None) BySend
            None [] _ _ _).
  - discriminate.
  - reflexivity.
  - reflexivity.
Defined.

(** X27: An omitted dictionary and an empty one cannot be told apart
    by the engine: move_actor sends the same commands whether location,
    rotation and scale are given or replaced by their "or {}" values, and
    execute_ue4_command gives the same answer and sends the same command
    whether parameters is None or the empty dictionary. *)
Theorem omitted_dictionaries_are_sent_empty {value : Type} (env : Env)
        (sid name : string) (lo ro sc params : option (@dict value))
        (l : list sent) :
  snd (move_actor env sid name lo ro sc l)
  = snd (move_actor env sid name (Some (or_empty lo)) (Some (or_empty ro))
           (Some (or_empty sc)) l) /\
  execute_ue4_command env sid name params l
  = execute_ue4_command env sid name (Some (or_empty params)) l.
Proof.
  split.
  - unfold move_actor. rewrite !run_engine_tool_log.
    unfold move_actor_body.
    destruct (name =? ""); [reflexivity |].
    cbn [or_empty]. apply relay_log.
  - reflexivity.
Qed.
